(** * DubSub caption pipeline: the subtitle scripts of [apps/server/scripts]

    A shallow embedding of [asr.py] (timestamp codec, caption emitter,
    progress telemetry) and [translate.py] (caption parser, serializer,
    per-line translation loop), followed by the properties of the
    caption pipeline that the design document states about them.

    Python strings are modelled as lists of code points below 256
    ([list ascii]); Python integers as [Z] and [N]; Python floats as
    IEEE-754 binary64 values of the standard library's [spec_float]. *)

From Stdlib Require Import Ascii String.
From Stdlib Require Import List ZArith NArith Lia Bool Arith.
From Stdlib Require Import SpecFloat.
Import ListNotations.

Set Implicit Arguments.

(** Python [str], restricted to code points below 256. *)
Definition str := list ascii.

(** String literals of the sources. *)
Definition lit (s : string) : str := list_ascii_of_string s.

(** ** Python built-ins used by the scripts *)

Module Py.

Definition LF : ascii := ascii_of_nat 10.
Definition CR : ascii := ascii_of_nat 13.

(** [str.isspace] on one code point, which is also the class [\s] of
    the [re] module on [str] patterns: TAB, LF, VT, FF, CR, the four
    separators FS GS RS US, SPACE, NEL and NBSP. *)
Definition isspace (c : ascii) : bool :=
  let n := N_of_ascii c in
  (((9 <=? n) && (n <=? 13)) || ((28 <=? n) && (n <=? 32))
   || (n =? 133) || (n =? 160))%N.

(** [str.isdigit] on one code point: the ASCII digits and the three
    superscript digits of Latin-1. *)
Definition isdigit_char (c : ascii) : bool :=
  let n := N_of_ascii c in
  (((48 <=? n) && (n <=? 57)) || (n =? 178) || (n =? 179) || (n =? 185))%N.

(** [s.isdigit()]: every character is a digit and there is at least one. *)
Definition isdigit (s : str) : bool :=
  match s with
  | [] => false
  | _ :: _ => forallb isdigit_char s
  end.

(** [s.lstrip()], [s.rstrip()], [s.strip()] with no argument. *)
Fixpoint lstrip (s : str) : str :=
  match s with
  | [] => []
  | c :: s' => if isspace c then lstrip s' else s
  end.

Definition rstrip (s : str) : str := rev (lstrip (rev s)).

Definition strip (s : str) : str := rstrip (lstrip s).

(** [s.replace(c, "")] for a one-character [c]. *)
Definition remove_char (c : ascii) (s : str) : str :=
  filter (fun x => negb (Ascii.eqb x c)) s.

(** [s.split(sep)] for a one-character separator: never empty. *)
Fixpoint split (sep : ascii) (s : str) : list str :=
  match s with
  | [] => [[]]
  | c :: s' =>
      if Ascii.eqb c sep then [] :: split sep s'
      else match split sep s' with
           | l :: ls => (c :: l) :: ls
           | [] => [[c]]
           end
  end.

(** [sep.join(ls)]. *)
Fixpoint join (sep : str) (ls : list str) : str :=
  match ls with
  | [] => []
  | l :: ls' =>
      match ls' with
      | [] => l
      | _ :: _ => l ++ sep ++ join sep ls'
      end
  end.

(** [re.split(p, s)] for a pattern [p] that matches no empty string.
    [m t] is the length of the match of [p] anchored at the head of
    [t], if there is one.  The scan is leftmost and non-overlapping:
    [cur] is the piece being collected (reversed) and [skip] counts
    the characters of the current match still to be consumed. *)
Fixpoint re_split_aux (m : str -> option nat) (skip : nat) (cur : str)
  (s : str) : list str :=
  match s with
  | [] => [rev cur]
  | c :: s' =>
      match skip with
      | S k => re_split_aux m k cur s'
      | O =>
          match m s with
          | Some (S k) => rev cur :: re_split_aux m k [] s'
          | _ => re_split_aux m 0 (c :: cur) s'
          end
      end
  end.

Definition re_split (m : str -> option nat) (s : str) : list str :=
  re_split_aux m 0 [] s.

(** Decimal digits of a natural number, most significant first. *)
Definition digit_char (d : N) : ascii := ascii_of_N (48 + d).

Fixpoint digits_aux (fuel : nat) (n : N) : str :=
  match fuel with
  | O => []
  | S f =>
      if (n <? 10)%N then [digit_char n]
      else digits_aux f (n / 10)%N ++ [digit_char (n mod 10)%N]
  end.

Definition str_of_N (n : N) : str := digits_aux (S (N.to_nat (N.log2 n))) n.

(** [str(i)] and [f"{i}"] for an [int]. *)
Definition str_of_int (z : Z) : str :=
  if (z <? 0)%Z then lit "-" ++ str_of_N (Z.abs_N z) else str_of_N (Z.abs_N z).

(** Left padding with zeros up to [width] characters. *)
Definition zfill (width : nat) (s : str) : str :=
  repeat (digit_char 0) (width - length s) ++ s.

(** [f"{z:0Wd}"]: sign-aware zero padding to a minimum width [W]. *)
Definition format_0d (width : nat) (z : Z) : str :=
  if (z <? 0)%Z then lit "-" ++ zfill (width - 1) (str_of_N (Z.abs_N z))
  else zfill width (str_of_N (Z.abs_N z)).

End Py.

(** ** translate.py *)

Module Translate.

(** One parsed caption: the timestamp line and the text lines. *)
Definition entry := (str * list str)%type.

(** The pattern [\n\s*\n] anchored at the head of a string.
    [blank_tail r] is the length of the greedy match of [\s*\n] on
    [r]: the star first takes a whitespace character and lets the rest
    match; when the rest fails it gives the character back, which then
    has to be the closing newline. *)
Fixpoint blank_tail (r : str) : option nat :=
  match r with
  | [] => None
  | c :: r' =>
      if Py.isspace c then
        match blank_tail r' with
        | Some k => Some (S k)
        | None => if Ascii.eqb c Py.LF then Some 1 else None
        end
      else None
  end.

Definition blank_sep (s : str) : option nat :=
  match s with
  | [] => None
  | c :: r =>
      if Ascii.eqb c Py.LF then option_map S (blank_tail r) else None
  end.

(** The body of the [for block in blocks] loop of [parse_srt].
    [None] stands for an [IndexError] of a list subscript. *)
Definition parse_block (block : str) (entries : list entry)
  : option (list entry) :=
  let lines := Py.split Py.LF block in
  if length lines <? 2 then Some entries
  else
    match nth_error lines 0 with
    | None => None
    | Some first =>
        let idx := if Py.isdigit (Py.strip first) then 1 else 0 in
        match nth_error lines idx with
        | None => None
        | Some time_line =>
            let body := skipn (idx + 1) lines in
            Some (entries ++ [(time_line, body)])
        end
    end.

Fixpoint parse_blocks (blocks : list str) (entries : list entry)
  : option (list entry) :=
  match blocks with
  | [] => Some entries
  | block :: rest =>
      match parse_block block entries with
      | None => None
      | Some entries' => parse_blocks rest entries'
      end
  end.

(** [blocks = re.split(r"\n\s*\n", text.replace("\r", "").strip())] *)
Definition blocks_of (text : str) : list str :=
  Py.re_split blank_sep (Py.strip (Py.remove_char Py.CR text)).

Definition parse_srt (text : str) : option (list entry) :=
  parse_blocks (blocks_of text) [].

(** [write_srt]: the arguments of the successive [f.write] calls, the
    counter of [enumerate(entries, 1)] being [i]. *)
Fixpoint write_calls (i : Z) (entries : list entry) : list str :=
  match entries with
  | [] => []
  | (time_line, body_lines) :: rest =>
      (Py.str_of_int i ++ [Py.LF])
        :: (time_line ++ [Py.LF])
        :: (Py.strip (Py.join [Py.LF] body_lines) ++ [Py.LF; Py.LF])
        :: write_calls (i + 1) rest
  end.

(** The file that [write_srt(entries, path)] leaves at [path]. *)
Definition write_srt (entries : list entry) : str :=
  concat (write_calls 1 entries).

(** [srt_text = f.read()] of [main], the file being opened with
    [open(args.input_srt, "r", encoding="utf-8")]: in text mode a
    carriage return, alone or with the newline that follows it, is
    read as one newline. *)
Fixpoint read_text (s : str) : str :=
  match s with
  | [] => []
  | c :: s' =>
      if Ascii.eqb c Py.CR then
        match s' with
        | d :: _ =>
            if Ascii.eqb d Py.LF then read_text s'
            else Py.LF :: read_text s'
        | [] => [Py.LF]
        end
      else c :: read_text s'
  end.

End Translate.

(** ** Python floats: IEEE-754 binary64 *)

Module F64.

Definition prec : Z := 53.
Definition emax : Z := 1024.

Definition mul : spec_float -> spec_float -> spec_float := SFmul prec emax.
Definition sub : spec_float -> spec_float -> spec_float := SFsub prec emax.
Definition fdiv : spec_float -> spec_float -> spec_float := SFdiv prec emax.

(** [float(z)] for an integer that a double holds exactly. *)
Definition of_Z (z : Z) : spec_float := binary_normalize prec emax z 0 false.

(** The double of the decimal literal [n / d], correctly rounded. *)
Definition of_ratio (n d : Z) : spec_float := fdiv (of_Z n) (of_Z d).

(** [x < y] and [x > y]; false as soon as one side is a NaN. *)
Definition lt (x y : spec_float) : bool := SFltb x y.
Definition gt (x y : spec_float) : bool := SFltb y x.

Definition is_zero (x : spec_float) : bool :=
  match x with
  | S754_zero _ => true
  | _ => false
  end.

(** [x / y] of Python: [ZeroDivisionError] ([None]) on a zero divisor. *)
Definition truediv (x y : spec_float) : option spec_float :=
  if is_zero y then None else Some (fdiv x y).

(** [max(a, b)] and [min(a, b)] of Python on two arguments: the first
    one is kept unless the second is strictly larger (smaller). *)
Definition max (a b : spec_float) : spec_float := if gt b a then b else a.
Definition min (a b : spec_float) : spec_float := if lt b a then b else a.

(** The integer nearest to [num / den], ties to the even one
    ([0 <= num], [0 < den]). *)
Definition round_half_even (num den : Z) : Z :=
  let q := (num / den)%Z in
  let r := (num mod den)%Z in
  match (2 * r ?= den)%Z with
  | Lt => q
  | Gt => (q + 1)%Z
  | Eq => if Z.even q then q else (q + 1)%Z
  end.

(** The value [m * 2^e] scaled by [k] and rounded to an integer. *)
Definition round_scaled (k : Z) (m : positive) (e : Z) : Z :=
  round_half_even (Z.pos m * k * 2 ^ Z.max e 0) (2 ^ Z.max (- e) 0).

(** [round(x)] with one argument: the nearest integer, ties to even;
    [ValueError] on a NaN and [OverflowError] on an infinity ([None]). *)
Definition round (x : spec_float) : option Z :=
  match x with
  | S754_zero _ => Some 0%Z
  | S754_finite s m e => Some (cond_Zopp s (round_scaled 1 m e))
  | S754_infinity _ | S754_nan => None
  end.

(** [f"{x:.Pf}"]: [P] decimals, correctly rounded (ties to even on the
    exact binary value), sign kept on negative zero. *)
Definition fixed (p : nat) (n : Z) : str :=
  let d := Py.zfill (p + 1) (Py.str_of_N (Z.to_N n)) in
  firstn (length d - p) d
    ++ (if p =? 0 then [] else lit "." ++ skipn (length d - p) d).

Definition sign_of (s : bool) : str := if s then lit "-" else [].

Definition format_f (p : nat) (x : spec_float) : str :=
  match x with
  | S754_nan => lit "nan"
  | S754_infinity s => sign_of s ++ lit "inf"
  | S754_zero s => sign_of s ++ fixed p 0
  | S754_finite s m e =>
      sign_of s ++ fixed p (round_scaled (10 ^ Z.of_nat p) m e)
  end.

End F64.

(** ** asr.py *)

Module Asr.

(** A recognized speech segment as the engine yields it. *)
Record segment := Segment {
  seg_start : spec_float;
  seg_end : spec_float;
  seg_text : str
}.

(** [format_time(seconds)]; [None] when [round] raises. *)
Definition format_time (seconds : spec_float) : option str :=
  match F64.round (F64.mul seconds (F64.of_Z 1000)) with
  | None => None
  | Some millis =>
      let hours := (millis / 3600000)%Z in
      let minutes := ((millis mod 3600000) / 60000)%Z in
      let secs := ((millis mod 60000) / 1000)%Z in
      let ms := (millis mod 1000)%Z in
      Some (Py.format_0d 2 hours ++ lit ":" ++ Py.format_0d 2 minutes
              ++ lit ":" ++ Py.format_0d 2 secs ++ lit ","
              ++ Py.format_0d 3 ms)
  end.

(** [write_srt]: the arguments of the successive [f.write] calls, the
    counter of [enumerate(segments, 1)] being [i]; [None] when
    [format_time] raises. *)
Fixpoint write_calls (i : Z) (segments : list segment)
  : option (list str) :=
  match segments with
  | [] => Some []
  | seg :: rest =>
      match format_time (seg_start seg), format_time (seg_end seg) with
      | Some t1, Some t2 =>
          match write_calls (i + 1) rest with
          | Some ws =>
              Some ((Py.str_of_int i ++ [Py.LF])
                      :: (t1 ++ lit " --> " ++ t2 ++ [Py.LF])
                      :: (Py.strip (seg_text seg) ++ [Py.LF; Py.LF])
                      :: ws)
          | None => None
          end
      | _, _ => None
      end
  end.

(** The file that [write_srt(segments, path)] leaves at [path]. *)
Definition write_srt (segments : list segment) : option str :=
  option_map (@concat ascii) (write_calls 1 segments).

(** The process as [main] sees it: how many times [time.time()] was
    called, and the lines printed on standard output. *)
Record world := World {
  clock_calls : nat;
  stdout : list str
}.

(** The line [f"PROGRESS {ratio:.4f} {pos:.2f} {total:.2f} {speed:.2f}"]. *)
Definition progress_line (ratio pos total speed : spec_float) : str :=
  lit "PROGRESS " ++ F64.format_f 4 ratio ++ lit " " ++ F64.format_f 2 pos
    ++ lit " " ++ F64.format_f 2 total ++ lit " " ++ F64.format_f 2 speed.

Section Main.

(** [clock k] is what the [k]-th call of [time.time()] returns. *)
Variable clock : nat -> spec_float.

Definition time_time (w : world) : spec_float * world :=
  (clock (clock_calls w),
   {| clock_calls := S (clock_calls w); stdout := stdout w |}).

Definition print (line : str) (w : world) : world :=
  {| clock_calls := clock_calls w; stdout := stdout w ++ [line] |}.

(** The body of [for seg in segments_iter], after [segments.append]. *)
Definition report (total start_time : spec_float) (seg : segment)
  (w : world) : option world :=
  if F64.gt total (F64.of_Z 0) then
    match F64.truediv (seg_end seg) total with
    | None => None
    | Some q =>
        let ratio := F64.min (F64.max q (S754_zero false)) (F64.of_Z 1) in
        let (now, w1) := time_time w in
        let elapsed :=
          F64.max (F64.sub now start_time) (F64.of_ratio 1 1000) in
        match F64.truediv (seg_end seg) elapsed with
        | None => None
        | Some speed =>
            Some (print (progress_line ratio (seg_end seg) total speed) w1)
        end
    end
  else Some w.

Fixpoint consume (total start_time : spec_float)
  (segments_iter segments : list segment) (w : world)
  : option (list segment * world) :=
  match segments_iter with
  | [] => Some (segments, w)
  | seg :: rest =>
      match report total start_time seg w with
      | None => None
      | Some w' => consume total start_time rest (segments ++ [seg]) w'
      end
  end.

(** [main], from [total = float(args.duration_sec or 0.0)] on:
    the printed lines and the subtitle file. *)
Definition main (segments_iter : list segment) (duration_sec : spec_float)
  : option (list str * str) :=
  let total := if F64.is_zero duration_sec then S754_zero false
               else duration_sec in
  let (start_time, w0) := time_time {| clock_calls := 0; stdout := [] |} in
  match consume total start_time segments_iter [] w0 with
  | None => None
  | Some (segments, w) =>
      match write_srt segments with
      | None => None
      | Some file => Some (stdout w, file)
      end
  end.

End Main.

End Asr.

(** ** translate.py, the translation loop *)

Module Pipeline.

Import Translate.

Section Main.

(** The line translator is an external capability: [translate_line]
    maps a line to its translation and may depend on, and change, a
    state [tstate] of the engine. *)
Variable tstate : Type.
Variable translate_line : str -> tstate -> str * tstate.

(** The engine together with the record of the lines handed to it. *)
Record engine := Engine {
  eng_state : tstate;
  eng_calls : list str
}.

(** [translation.translate(line)] *)
Definition call_translate (line : str) (g : engine) : str * engine :=
  let (out, st) := translate_line line (eng_state g) in
  (out, {| eng_state := st; eng_calls := eng_calls g ++ [line] |}).

(** [for line in body_lines: ...] *)
Fixpoint translate_lines (body_lines translated_lines : list str)
  (g : engine) : list str * engine :=
  match body_lines with
  | [] => (translated_lines, g)
  | line :: rest =>
      let line := Py.strip line in
      match line with
      | [] => translate_lines rest (translated_lines ++ [[]]) g
      | _ :: _ =>
          let (out, g') := call_translate line g in
          translate_lines rest (translated_lines ++ [out]) g'
      end
  end.

(** [for time_line, body_lines in entries: ...] *)
Fixpoint translate_entries (entries translated_entries : list entry)
  (g : engine) : list entry * engine :=
  match entries with
  | [] => (translated_entries, g)
  | (time_line, body_lines) :: rest =>
      let (translated_lines, g') := translate_lines body_lines [] g in
      translate_entries rest
        (translated_entries ++ [(time_line, translated_lines)]) g'
  end.

(** [main]: [translation] is [None] when no model is installed
    ([RuntimeError]); the result is the output file and the engine. *)
Definition main (srt_text : str) (translation : option tstate)
  : option (str * engine) :=
  match translation with
  | None => None
  | Some st =>
      match parse_srt srt_text with
      | None => None
      | Some entries =>
          let (translated_entries, g) :=
            translate_entries entries []
              {| eng_state := st; eng_calls := [] |} in
          Some (write_srt translated_entries, g)
      end
  end.

End Main.

End Pipeline.

(** ** Notions used in the statements *)

Module Notions.

(** The [f.write] calls of a serializer, grouped per caption: the
    index line, the timestamp line and the text block. *)
Fixpoint captions (writes : list str) : list (str * str * str) :=
  match writes with
  | a :: b :: c :: rest => (a, b, c) :: captions rest
  | _ => []
  end.

Definition index_lines (writes : list str) : list str :=
  map (fun t => fst (fst t)) (captions writes).

Definition time_lines (writes : list str) : list str :=
  map (fun t => snd (fst t)) (captions writes).

Definition text_blocks (writes : list str) : list str :=
  map (fun t => snd t) (captions writes).

(** The line [str(k) + "\n"] for the counters [i+1 .. i+n]. *)
Definition numbered (i : Z) (n : nat) : list str :=
  map (fun k => Py.str_of_int (i + Z.of_nat k) ++ [Py.LF]) (seq 1 n).

(** A line of text holds no newline. *)
Definition no_newline (l : str) : Prop := ~ In Py.LF l.

(** A line is blank when it holds nothing but whitespace. *)
Definition blank (l : str) : bool := forallb Py.isspace l.

Definition nonblank (l : str) : bool := negb (blank l).

(** [s] does not start with whitespace. *)
Definition head_ok (s : str) : bool :=
  match s with
  | [] => true
  | c :: _ => negb (Py.isspace c)
  end.

(** [s] neither starts nor ends with whitespace. *)
Definition trimmed (s : str) : bool := head_ok s && head_ok (rev s).

(** The pattern [\n\s*\n] matches nowhere in [s]: [s] has no
    newline that only whitespace separates from the next newline. *)
Fixpoint sep_free (s : str) : bool :=
  match s with
  | [] => true
  | _ :: s' =>
      match Translate.blank_sep s with
      | Some _ => false
      | None => sep_free s'
      end
  end.

(** The decimal value of a string of ASCII digits. *)
Definition decimal_value (s : str) : N :=
  fold_left (fun acc c => (acc * 10 + (N_of_ascii c - 48))%N) s 0%N.

Definition ascii_digits (s : str) : Prop :=
  Forall (fun c => (48 <= N_of_ascii c <= 57)%N) s.

(** The parser as the design document words it: a block with fewer
    than two non-empty lines is dropped; in any other block a purely
    numeric first line is an index and is skipped, the next line is
    the timestamp line and the remaining lines are the text. *)
Definition nonempty_lines (block : str) : list str :=
  filter (fun l => negb (length l =? 0)) (Py.split Py.LF block).

Definition entry_of_lines (lines : list str) : list Translate.entry :=
  match lines with
  | first :: rest =>
      if Py.isdigit (Py.strip first) then
        match rest with
        | time_line :: body => [(time_line, body)]
        | [] => []
        end
      else [(first, rest)]
  | [] => []
  end.

Definition entries_of_block (block : str) : list Translate.entry :=
  if length (nonempty_lines block) <? 2 then []
  else entry_of_lines (Py.split Py.LF block).

(** The same with the test that the code makes: fewer than two
    lines, empty or not. *)
Definition entries_by_count (block : str) : list Translate.entry :=
  if length (Py.split Py.LF block) <? 2 then []
  else entry_of_lines (Py.split Py.LF block).

(** A line that is not the empty string. *)
Definition nonempty (l : str) : bool := negb (length l =? 0).

(** Every line of [s] holds a character that is not whitespace;
    [seen] tells whether the line being read already holds one. *)
Fixpoint scan_lines (seen : bool) (s : str) : bool :=
  match s with
  | [] => seen
  | c :: s' =>
      if Ascii.eqb c Py.LF then seen && scan_lines false s'
      else scan_lines (seen || negb (Py.isspace c)) s'
  end.

(** The pieces [blocks] put back together around the separators
    [seps]. *)
Fixpoint weave (blocks seps : list str) : str :=
  match blocks with
  | [] => []
  | b :: bs =>
      match seps with
      | [] => b
      | p :: ps => b ++ p ++ weave bs ps
      end
  end.

(** A blank-line boundary: a newline, whitespace, a newline. *)
Definition boundary (p : str) : Prop :=
  exists w, p = Py.LF :: w ++ [Py.LF] /\ blank w = true.

(** What the translation loop keeps of the text lines [body] of one
    entry in the lines [outs] it produces: as many lines, and the
    empty string wherever the trimmed line is empty. *)
Definition lines_outcome (body outs : list str) : Prop :=
  length outs = length body
  /\ forall k line, nth_error body k = Some line ->
       Py.strip line = [] -> nth_error outs k = Some [].

Definition parse_spec (text : str) : list Translate.entry :=
  flat_map entries_of_block (Translate.blocks_of text).

(** Per-line emission as the data model words it: every text line
    stripped on its own, then joined. *)
Definition stripped_lines (body_lines : list str) : str :=
  Py.join [Py.LF] (map Py.strip body_lines).

(** [clamp(x, lo, hi)] *)
Definition clamp (x lo hi : spec_float) : spec_float :=
  if F64.lt x lo then lo else if F64.lt hi x then hi else x.

(** [max(a, b)] as a formula. *)
Definition larger (a b : spec_float) : spec_float :=
  if F64.lt a b then b else a.

(** The progress sample of one segment, as the design document
    gives it, [now] being the clock reading for that segment. *)
Record sample := Sample {
  ratio : spec_float;
  position_sec : spec_float;
  total_sec : spec_float;
  speed : spec_float
}.

Definition epsilon : spec_float := F64.of_ratio 1 1000.

Definition sample_of (total start_time now : spec_float)
  (seg : Asr.segment) : sample :=
  let elapsed := larger (F64.sub now start_time) epsilon in
  {| ratio := clamp (F64.fdiv (Asr.seg_end seg) total)
                (F64.of_Z 0) (F64.of_Z 1);
     position_sec := Asr.seg_end seg;
     total_sec := total;
     speed := F64.fdiv (Asr.seg_end seg) elapsed |}.

Definition sample_line (p : sample) : str :=
  Asr.progress_line (ratio p) (position_sec p) (total_sec p) (speed p).

(** The lines printed for the segments [segs] when the clock is read
    for the [k]-th time at the first of them. *)
Fixpoint lines_from (clock : nat -> spec_float)
  (total start_time : spec_float) (k : nat) (segs : list Asr.segment)
  : list str :=
  match segs with
  | [] => []
  | seg :: rest =>
      sample_line (sample_of total start_time (clock k) seg)
        :: lines_from clock total start_time (S k) rest
  end.

(** [x] is a number in the closed interval from 0 to 1. *)
Definition in_unit (x : spec_float) : Prop :=
  SFleb (F64.of_Z 0) x = true /\ SFleb x (F64.of_Z 1) = true.

(** A block that the splitting leaves whole: not empty, no
    whitespace at either end, no blank-line boundary inside. *)
Definition tight (b : str) : Prop :=
  b <> [] /\ trimmed b = true /\ sep_free b = true.

(** The text of one caption in the file: index line, timestamp line
    and the text [t], which may be empty; and what separates it from
    the next caption. *)
Definition caption_block (idx time_line t : str) : str :=
  idx ++ Py.LF :: time_line
    ++ match t with
       | [] => []
       | _ :: _ => Py.LF :: t
       end.

Definition caption_sep (t : str) : str :=
  match t with
  | [] => [Py.LF; Py.LF; Py.LF]
  | _ :: _ => [Py.LF; Py.LF]
  end.

(** A file given by its captions and what follows each of them. *)
Fixpoint emit (pairs : list (str * str)) : str :=
  match pairs with
  | [] => []
  | (b, p) :: rest => b ++ p ++ emit rest
  end.

Fixpoint captions_written (i : Z) (entries : list Translate.entry)
  : list (str * str) :=
  match entries with
  | [] => []
  | (time_line, body) :: rest =>
      let t := Py.strip (Py.join [Py.LF] body) in
      (caption_block (Py.str_of_int i) time_line t, caption_sep t)
        :: captions_written (i + 1) rest
  end.

(** The lines of a text, none for the empty text. *)
Definition text_lines (t : str) : list str :=
  match t with
  | [] => []
  | _ :: _ => Py.split Py.LF t
  end.

(** An entry that a subtitle file can hold as it is: the timestamp
    line is one line, not empty, without whitespace at its ends; the
    text lines are the lines of a text without whitespace at its ends
    and without a blank line; no carriage return anywhere. *)
Definition storable (e : Translate.entry) : Prop :=
  (fst e <> [] /\ trimmed (fst e) = true /\ no_newline (fst e)
   /\ ~ In Py.CR (fst e))
  /\ exists t, snd e = text_lines t /\ trimmed t = true
               /\ sep_free t = true /\ ~ In Py.CR t.

(** The exact value of a finite double is [num / den]. *)
Definition num_of (m : positive) (e : Z) : Z := (Z.pos m * 2 ^ Z.max e 0)%Z.
Definition den_of (e : Z) : Z := (2 ^ Z.max (- e) 0)%Z.

(** [n] is an integer nearest to [num / den], the even one on a tie. *)
Definition nearest_even (num den n : Z) : Prop :=
  (Z.abs (2 * num - 2 * n * den) <= den)%Z
  /\ (Z.abs (2 * num - 2 * n * den) = den -> Z.even n = true)%Z.

(** The value [m * 2^e] is at least the integer [K]. *)
Definition at_least (K m e : Z) : Prop :=
  (K * 2 ^ Z.max (- e) 0 <= m * 2 ^ Z.max e 0)%Z.

(** Rounding half-up, as the design document words the codec. *)
Definition round_half_up (num den : Z) : Z := ((2 * num + den) / (2 * den))%Z.

(** The text of a segment as the parser will read it back. *)
Definition text_of (seg : Asr.segment) : str :=
  Py.remove_char Py.CR (Py.strip (Asr.seg_text seg)).

(** The characters that are not whitespace. *)
Definition squeeze (s : str) : str :=
  filter (fun c => negb (Py.isspace c)) s.

End Notions.

(** ** Notions for the further properties *)

Module Derived.

(** What the translation loop makes of one text line when the
    translator answers [f l] for the line [l]. *)
Definition translated_line (f : str -> str) (line : str) : str :=
  match Py.strip line with
  | [] => []
  | c :: l => f (c :: l)
  end.

Definition translated_entry (f : str -> str) (e : Translate.entry)
  : Translate.entry :=
  (fst e, map (translated_line f) (snd e)).

(** A line that holds a visible character and neither a newline nor
    a carriage return. *)
Definition clean (l : str) : Prop :=
  Notions.nonblank l = true /\ Notions.no_newline l /\ ~ In Py.CR l.

(** A caption written without its index line. *)
Definition bare_block (e : Translate.entry) : str :=
  fst e ++ Py.LF :: Py.join [Py.LF] (snd e).

(** A time in seconds that a double holds in canonical form and whose
    magnitude is at most [2^900]. *)
Definition moderate (x : spec_float) : Prop :=
  valid_binary F64.prec F64.emax x = true
  /\ SFleb (SFabs x) (F64.of_Z (2 ^ 900)) = true.

(** The text with every newline written as a carriage return and a
    newline, as an editor on Windows saves it. *)
Definition crlf (s : str) : str :=
  flat_map (fun c => if Ascii.eqb c Py.LF then [Py.CR; Py.LF] else [c]) s.

(** A string without whitespace. *)
Definition visible (s : str) : Prop :=
  Forall (fun c => Py.isspace c = false) s.

(** What [format_time] writes for a count of milliseconds. *)
Definition stamp (millis : Z) : str :=
  Py.format_0d 2 (millis / 3600000) ++ lit ":"
    ++ Py.format_0d 2 ((millis mod 3600000) / 60000) ++ lit ":"
    ++ Py.format_0d 2 ((millis mod 60000) / 1000) ++ lit ","
    ++ Py.format_0d 3 (millis mod 1000).

(** An engine fed the lines [lines] one after the other from the
    state [st]: its answers and the state it is left in. *)
Fixpoint drive (tstate : Type)
  (translate_line : str -> tstate -> str * tstate)
  (lines : list str) (st : tstate) : list str * tstate :=
  match lines with
  | [] => ([], st)
  | l :: rest =>
      let (out, st1) := translate_line l st in
      let (outs, st2) := drive translate_line rest st1 in
      (out :: outs, st2)
  end.

(** The fields of a progress line. *)
Definition progress_fields (ratio pos total speed : spec_float)
  : list str :=
  [lit "PROGRESS"; F64.format_f 4 ratio; F64.format_f 2 pos;
   F64.format_f 2 total; F64.format_f 2 speed].

End Derived.

(** ** Sanity checks of the embedding on concrete inputs *)

Example read_text_newlines :
  Translate.read_text
    (lit "a" ++ [Py.CR; Py.LF] ++ lit "b" ++ [Py.CR] ++ lit "c"
       ++ [Py.CR; Py.CR; Py.LF] ++ lit "d" ++ [Py.LF; Py.CR])
  = lit "a" ++ [Py.LF] ++ lit "b" ++ [Py.LF] ++ lit "c"
      ++ [Py.LF; Py.LF] ++ lit "d" ++ [Py.LF; Py.LF].
Proof. vm_compute. reflexivity. Qed.

Example parse_two_blocks :
  Translate.parse_srt
    (lit "1
00:00:00,000 --> 00:00:01,000
hello

00:00:01,000 --> 00:00:02,000
world
again
")
  = Some [ (lit "00:00:00,000 --> 00:00:01,000", [lit "hello"]);
           (lit "00:00:01,000 --> 00:00:02,000", [lit "world"; lit "again"]) ].
Proof. vm_compute. reflexivity. Qed.

(** ** Basic facts about the string built-ins *)

Section StringFacts.

Lemma split_not_nil : forall sep s, Py.split sep s <> [].
Proof.
  intros sep s. destruct s as [|c s]; simpl.
  - discriminate.
  - destruct (Ascii.eqb c sep); [discriminate|].
    destruct (Py.split sep s); discriminate.
Qed.

Lemma split_no_sep : forall sep s, ~ In sep s -> Py.split sep s = [s].
Proof.
  intros sep s. induction s as [|c s IH]; intros H; simpl.
  - reflexivity.
  - destruct (Ascii.eqb_spec c sep) as [->|Hne].
    + exfalso. apply H. now left.
    + rewrite IH; [reflexivity|]. intros Hin. apply H. now right.
Qed.

Lemma split_app_sep : forall sep a b,
  ~ In sep a -> Py.split sep (a ++ sep :: b) = a :: Py.split sep b.
Proof.
  intros sep a b. induction a as [|c a IH]; intros H; simpl.
  - now rewrite Ascii.eqb_refl.
  - destruct (Ascii.eqb_spec c sep) as [->|Hne].
    + exfalso. apply H. now left.
    + rewrite IH; [reflexivity|]. intros Hin. apply H. now right.
Qed.

Lemma join_cons : forall sep l l' ls,
  Py.join sep (l :: l' :: ls) = l ++ sep ++ Py.join sep (l' :: ls).
Proof. reflexivity. Qed.

Lemma split_join : forall sep ls,
  ls <> [] -> Forall (fun l => ~ In sep l) ls ->
  Py.split sep (Py.join [sep] ls) = ls.
Proof.
  intros sep ls. induction ls as [|l ls IH]; intros Hne Hall.
  - now elim Hne.
  - inversion Hall as [|? ? Hl Hls]; subst.
    destruct ls as [|l' ls].
    + simpl. now apply split_no_sep.
    + rewrite join_cons.
      change ([sep] ++ Py.join [sep] (l' :: ls))
        with (sep :: Py.join [sep] (l' :: ls)).
      rewrite split_app_sep by assumption.
      f_equal. apply IH; [discriminate|assumption].
Qed.

Lemma join_split : forall sep s, Py.join [sep] (Py.split sep s) = s.
Proof.
  intros sep s. induction s as [|c s IH]; simpl.
  - reflexivity.
  - destruct (Ascii.eqb_spec c sep) as [->|Hne].
    + pose proof (split_not_nil sep s) as Hnn.
      destruct (Py.split sep s) as [|l ls] eqn:E; [now elim Hnn|].
      rewrite join_cons, IH. reflexivity.
    + pose proof (split_not_nil sep s) as Hnn.
      destruct (Py.split sep s) as [|l ls] eqn:E; [now elim Hnn|].
      destruct ls as [|l' ls].
      * simpl in *. now rewrite IH.
      * rewrite join_cons in *. rewrite <- IH. reflexivity.
Qed.

Lemma split_lines_no_sep : forall sep s,
  Forall (fun l => ~ In sep l) (Py.split sep s).
Proof.
  intros sep s. induction s as [|c s IH]; simpl.
  - constructor; [intros []|constructor].
  - destruct (Ascii.eqb_spec c sep) as [->|Hne].
    + constructor; [intros []|assumption].
    + destruct (Py.split sep s) as [|l ls]; [repeat constructor; intros [E|[]]; congruence|].
      inversion IH; subst. constructor; [|assumption].
      intros [E|Hin]; [congruence|contradiction].
Qed.

End StringFacts.

(** ** Index lines of the serializers *)

Section IndexLines.

Import Notions.

Lemma numbered_succ : forall i n,
  numbered (i - 1) (S n) = (Py.str_of_int i ++ [Py.LF]) :: numbered i n.
Proof.
  intros i n. unfold numbered. simpl seq. simpl map.
  f_equal.
  - do 2 f_equal. lia.
  - rewrite <- seq_shift, map_map. apply map_ext. intros k.
    do 2 f_equal. lia.
Qed.

Lemma index_lines_translate : forall entries i,
  index_lines (Translate.write_calls i entries)
  = numbered (i - 1) (length entries).
Proof.
  induction entries as [|[time_line body] rest IH]; intros i.
  - reflexivity.
  - cbn [Translate.write_calls length]. rewrite numbered_succ.
    unfold index_lines in *. cbn [captions map fst snd].
    f_equal. rewrite IH. f_equal. lia.
Qed.

Lemma index_lines_asr : forall segments i ws,
  Asr.write_calls i segments = Some ws ->
  index_lines ws = numbered (i - 1) (length segments).
Proof.
  induction segments as [|seg rest IH]; intros i ws H.
  - simpl in H. injection H as <-. reflexivity.
  - cbn [Asr.write_calls] in H.
    destruct (Asr.format_time (Asr.seg_start seg)) as [t1|]; [|discriminate].
    destruct (Asr.format_time (Asr.seg_end seg)) as [t2|]; [|discriminate].
    destruct (Asr.write_calls (i + 1) rest) as [ws'|] eqn:E; [|discriminate].
    injection H as <-. cbn [length]. rewrite numbered_succ.
    unfold index_lines in *. cbn [captions map fst snd].
    f_equal. rewrite (IH _ _ E). f_equal. lia.
Qed.

Lemma captions_translate : forall entries i,
  length (captions (Translate.write_calls i entries)) = length entries.
Proof.
  induction entries as [|[time_line body] rest IH]; intros i.
  - reflexivity.
  - cbn [Translate.write_calls captions length]. now rewrite IH.
Qed.

End IndexLines.

(** C3. Index regeneration: whatever the [N] entries are, and wherever
    they come from (in particular from a parsed file, whose own index
    lines the parser has dropped), the index lines written by either
    serializer are the numerals of [1..N] in order. *)
Theorem index_regeneration :
  forall (entries : list Translate.entry) (segments : list Asr.segment),
    Notions.index_lines (Translate.write_calls 1 entries)
      = Notions.numbered 0 (length entries)
    /\ length (Notions.captions (Translate.write_calls 1 entries))
      = length entries
    /\ (forall ws, Asr.write_calls 1 segments = Some ws ->
          Notions.index_lines ws = Notions.numbered 0 (length segments))
    /\ (forall text parsed, Translate.parse_srt text = Some parsed ->
          Notions.index_lines (Translate.write_calls 1 parsed)
            = Notions.numbered 0 (length parsed)).
Proof.
  intros entries segments. repeat split.
  - apply (index_lines_translate entries 1).
  - apply captions_translate.
  - intros ws H. apply (index_lines_asr segments 1 H).
  - intros text parsed _. apply (index_lines_translate parsed 1).
Qed.

(** ** The loop body of the parser on a block given by its lines *)

Section ParseBlock.

Import Notions.

Lemma parse_block_numeric : forall num second rest acc,
  Forall Notions.no_newline (num :: second :: rest) ->
  Py.isdigit (Py.strip num) = true ->
  Translate.parse_block (Py.join [Py.LF] (num :: second :: rest)) acc
  = Some (acc ++ [(second, rest)]).
Proof.
  intros num second rest acc Hnl Hd. unfold Translate.parse_block.
  rewrite split_join by (assumption || discriminate).
  cbn [length Nat.ltb Nat.leb nth_error]. rewrite Hd. reflexivity.
Qed.

Lemma parse_block_plain : forall first second rest acc,
  Forall Notions.no_newline (first :: second :: rest) ->
  Py.isdigit (Py.strip first) = false ->
  Translate.parse_block (Py.join [Py.LF] (first :: second :: rest)) acc
  = Some (acc ++ [(first, second :: rest)]).
Proof.
  intros first second rest acc Hnl Hd. unfold Translate.parse_block.
  rewrite split_join by (assumption || discriminate).
  cbn [length Nat.ltb Nat.leb nth_error]. rewrite Hd. reflexivity.
Qed.

Lemma parse_block_single : forall line acc,
  no_newline line -> Translate.parse_block line acc = Some acc.
Proof.
  intros line acc H. unfold Translate.parse_block.
  rewrite split_no_sep by assumption. reflexivity.
Qed.

End ParseBlock.

(** C5. Parser index tolerance.  In a block of at least two lines, a
    purely numeric first line is skipped and the second line is the
    timestamp line; a first line that is not purely numeric is the
    timestamp line itself.  Hence a block made of an index line, a
    timestamp line and at least one text line parses to the same entry
    as the block without the index line. *)
Theorem parser_index_tolerance :
  forall (num time_line : str) (body : list str) (acc : list Translate.entry),
    Forall Notions.no_newline (num :: time_line :: body) ->
    Py.isdigit (Py.strip num) = true ->
    Py.isdigit (Py.strip time_line) = false ->
    body <> [] ->
    Translate.parse_block (Py.join [Py.LF] (num :: time_line :: body)) acc
      = Some (acc ++ [(time_line, body)])
    /\ Translate.parse_block (Py.join [Py.LF] (time_line :: body)) acc
      = Some (acc ++ [(time_line, body)]).
Proof.
  intros num time_line body acc Hnl Hnum Htime Hbody. split.
  - now apply parse_block_numeric.
  - destruct body as [|l body]; [now elim Hbody|].
    apply parse_block_plain; [|assumption].
    now inversion Hnl.
Qed.

Lemma parser_index_tolerance_witness :
  Translate.parse_block
    (Py.join [Py.LF]
       [lit "12"; lit "00:00:01,000 --> 00:00:02,500"; lit "Hello"; lit "there"]) []
    = Some [(lit "00:00:01,000 --> 00:00:02,500", [lit "Hello"; lit "there"])]
  /\ Translate.parse_block
    (Py.join [Py.LF]
       [lit "00:00:01,000 --> 00:00:02,500"; lit "Hello"; lit "there"]) []
    = Some [(lit "00:00:01,000 --> 00:00:02,500", [lit "Hello"; lit "there"])].
Proof.
  apply (parser_index_tolerance (num := lit "12")
           (time_line := lit "00:00:01,000 --> 00:00:02,500")
           (body := [lit "Hello"; lit "there"]) []).
  - repeat constructor; unfold Notions.no_newline; vm_compute;
      intuition discriminate.
  - reflexivity.
  - reflexivity.
  - discriminate.
Defined.

(** C10. Entries without text.  A block of exactly two lines whose
    first line is purely numeric parses to an entry that has the
    second line as its timestamp line and no text line, and the
    serializer accepts such an entry: it writes the index line, the
    timestamp line and then an empty text line before the blank
    separator line. *)
Theorem entry_without_text :
  forall (num time_line : str) (acc : list Translate.entry) (i : Z),
    Notions.no_newline num -> Notions.no_newline time_line ->
    Py.isdigit (Py.strip num) = true ->
    Translate.parse_block (Py.join [Py.LF] [num; time_line]) acc
      = Some (acc ++ [(time_line, [])])
    /\ Translate.write_calls i [(time_line, [])]
      = [Py.str_of_int i ++ [Py.LF]; time_line ++ [Py.LF]; [Py.LF; Py.LF]]
    /\ Translate.write_srt [(time_line, [])]
      = lit "1" ++ [Py.LF] ++ time_line ++ [Py.LF] ++ [Py.LF] ++ [Py.LF]
    /\ Translate.parse_srt (lit "7" ++ [Py.LF] ++ lit "00:00:01,000 --> 00:00:02,500")
      = Some [(lit "00:00:01,000 --> 00:00:02,500", [])].
Proof.
  intros num time_line acc i Hn Ht Hd. repeat split.
  - apply parse_block_numeric; [|assumption].
    repeat constructor; assumption.
  - unfold Translate.write_srt. cbn [Translate.write_calls concat].
    rewrite app_nil_r. change (Py.str_of_int 1) with (lit "1").
    rewrite <- !app_assoc. reflexivity.
Qed.

Lemma entry_without_text_witness :
  Translate.parse_block
    (Py.join [Py.LF] [lit "7"; lit "00:00:01,000 --> 00:00:02,500"]) []
    = Some ([] ++ [(lit "00:00:01,000 --> 00:00:02,500", [])])
  /\ Translate.write_calls 1 [(lit "00:00:01,000 --> 00:00:02,500", [])]
    = [Py.str_of_int 1 ++ [Py.LF];
       lit "00:00:01,000 --> 00:00:02,500" ++ [Py.LF]; [Py.LF; Py.LF]]
  /\ Translate.write_srt [(lit "00:00:01,000 --> 00:00:02,500", [])]
    = lit "1" ++ [Py.LF] ++ lit "00:00:01,000 --> 00:00:02,500"
        ++ [Py.LF] ++ [Py.LF] ++ [Py.LF]
  /\ Translate.parse_srt (lit "7" ++ [Py.LF] ++ lit "00:00:01,000 --> 00:00:02,500")
    = Some [(lit "00:00:01,000 --> 00:00:02,500", [])].
Proof.
  apply (entry_without_text (num := lit "7")
           (time_line := lit "00:00:01,000 --> 00:00:02,500") [] 1).
  - unfold Notions.no_newline; vm_compute; intuition discriminate.
  - unfold Notions.no_newline; vm_compute; intuition discriminate.
  - reflexivity.
Defined.

(** ** Stripping *)

Section StripFacts.

Import Notions.

Lemma lstrip_head_ok : forall s, head_ok (Py.lstrip s) = true.
Proof.
  induction s as [|c s IH]; simpl; [reflexivity|].
  destruct (Py.isspace c) eqn:E; [assumption|]. simpl. now rewrite E.
Qed.

Lemma lstrip_id : forall s, head_ok s = true -> Py.lstrip s = s.
Proof.
  intros [|c s] H; simpl in *; [reflexivity|].
  now destruct (Py.isspace c).
Qed.

Lemma lstrip_blank : forall s, blank s = true -> Py.lstrip s = [].
Proof.
  induction s as [|c s IH]; simpl; intros H; [reflexivity|].
  apply andb_prop in H as [-> H]. auto.
Qed.

Lemma lstrip_blank_app : forall w s,
  blank w = true -> Py.lstrip (w ++ s) = Py.lstrip s.
Proof.
  induction w as [|c w IH]; simpl; intros s H; [reflexivity|].
  apply andb_prop in H as [-> H]. auto.
Qed.

Lemma lstrip_nonblank_app : forall a b,
  nonblank a = true -> Py.lstrip (a ++ b) = Py.lstrip a ++ b.
Proof.
  unfold nonblank, blank. induction a as [|c a IH]; simpl; intros b H.
  - discriminate.
  - destruct (Py.isspace c); [apply IH; exact H|reflexivity].
Qed.

Lemma lstrip_suffix : forall s, exists w,
  s = w ++ Py.lstrip s /\ blank w = true.
Proof.
  induction s as [|c s (w & Hs & Hw)]; simpl.
  - exists []. split; reflexivity.
  - destruct (Py.isspace c) eqn:E.
    + exists (c :: w). simpl. rewrite E, Hw. split; [now f_equal|reflexivity].
    + exists []. split; reflexivity.
Qed.

Lemma blank_app : forall a b, blank (a ++ b) = blank a && blank b.
Proof. intros a b. unfold blank. apply forallb_app. Qed.

Lemma blank_rev : forall a, blank (rev a) = blank a.
Proof.
  induction a as [|c a IH]; simpl; [reflexivity|].
  rewrite blank_app, IH. simpl. rewrite andb_true_r. apply andb_comm.
Qed.

Lemma nonblank_rev : forall a, nonblank (rev a) = nonblank a.
Proof. intros a. unfold nonblank. now rewrite blank_rev. Qed.

Lemma rstrip_nonblank_app : forall a b,
  nonblank b = true -> Py.rstrip (a ++ b) = a ++ Py.rstrip b.
Proof.
  intros a b H. unfold Py.rstrip.
  rewrite rev_app_distr, lstrip_nonblank_app by now rewrite nonblank_rev.
  now rewrite rev_app_distr, rev_involutive.
Qed.

Lemma rstrip_blank_app : forall s w,
  blank w = true -> Py.rstrip (s ++ w) = Py.rstrip s.
Proof.
  intros s w H. unfold Py.rstrip.
  rewrite rev_app_distr, lstrip_blank_app by now rewrite blank_rev.
  reflexivity.
Qed.

Lemma rstrip_id : forall s, head_ok (rev s) = true -> Py.rstrip s = s.
Proof.
  intros s H. unfold Py.rstrip. rewrite lstrip_id by assumption.
  apply rev_involutive.
Qed.

Lemma rstrip_head_ok_rev : forall s, head_ok (rev (Py.rstrip s)) = true.
Proof.
  intros s. unfold Py.rstrip. rewrite rev_involutive. apply lstrip_head_ok.
Qed.

Lemma head_ok_nonblank : forall s,
  s <> [] -> head_ok s = true -> nonblank s = true.
Proof.
  intros [|c s] Hne H; [now elim Hne|].
  unfold nonblank, blank. simpl in *.
  now destruct (Py.isspace c).
Qed.

Lemma rstrip_keeps_head : forall s,
  head_ok s = true -> head_ok (Py.rstrip s) = true.
Proof.
  intros [|c s] H; [reflexivity|].
  change (c :: s) with ([c] ++ s).
  destruct (blank s) eqn:Eb.
  - rewrite rstrip_blank_app by assumption.
    unfold Py.rstrip. simpl in *.
    destruct (Py.isspace c) eqn:E; [discriminate|].
    simpl. now rewrite E.
  - rewrite rstrip_nonblank_app by (unfold nonblank; now rewrite Eb).
    exact H.
Qed.

Lemma strip_trimmed : forall s, trimmed (Py.strip s) = true.
Proof.
  intros s. unfold trimmed, Py.strip.
  rewrite rstrip_keeps_head by apply lstrip_head_ok.
  now rewrite rstrip_head_ok_rev.
Qed.

Lemma strip_id : forall s, trimmed s = true -> Py.strip s = s.
Proof.
  intros s H. unfold trimmed in H. apply andb_prop in H as [H1 H2].
  unfold Py.strip. rewrite lstrip_id by assumption. now apply rstrip_id.
Qed.

Lemma strip_idem : forall s, Py.strip (Py.strip s) = Py.strip s.
Proof. intros s. apply strip_id, strip_trimmed. Qed.

Lemma join_snoc : forall sep l ls last,
  Py.join sep ((l :: ls) ++ [last]) = Py.join sep (l :: ls) ++ sep ++ last.
Proof.
  intros sep l ls. revert l. induction ls as [|l' ls IH]; intros l last.
  - simpl. reflexivity.
  - change ((l :: l' :: ls) ++ [last]) with (l :: ((l' :: ls) ++ [last])).
    change ((l' :: ls) ++ [last]) with (l' :: (ls ++ [last])) at 1.
    rewrite join_cons.
    change (l' :: (ls ++ [last])) with ((l' :: ls) ++ [last]).
    rewrite IH, join_cons. now rewrite <- !app_assoc.
Qed.

Lemma strip_join_ends : forall first mid last,
  nonblank first = true -> nonblank last = true ->
  Py.strip (Py.join [Py.LF] (first :: mid ++ [last]))
  = Py.join [Py.LF] (Py.lstrip first :: mid ++ [Py.rstrip last]).
Proof.
  intros first mid last Hf Hl. unfold Py.strip.
  change (first :: mid ++ [last]) with ((first :: mid) ++ [last]).
  change (Py.lstrip first :: mid ++ [Py.rstrip last])
    with ((Py.lstrip first :: mid) ++ [Py.rstrip last]).
  rewrite !join_snoc.
  assert (Hj : forall x, Py.lstrip (Py.join [Py.LF] (first :: mid) ++ x)
                 = Py.join [Py.LF] (Py.lstrip first :: mid) ++ x).
  { intros x. destruct mid as [|l mid].
    - simpl. now apply lstrip_nonblank_app.
    - rewrite !join_cons, <- !app_assoc. now apply lstrip_nonblank_app. }
  rewrite Hj.
  rewrite !app_assoc. rewrite rstrip_nonblank_app by assumption.
  reflexivity.
Qed.

End StripFacts.

(** C9 as stated fails: the serializer strips the joined text block,
    not each line.  With the text lines ["a "] and [" b"] the block
    written is ["a \n b"], while stripping every line would give
    ["a\nb"]. *)
Lemma per_line_stripping_counterexample :
  Notions.text_blocks
    (Translate.write_calls 1
       [(lit "00:00:01,000 --> 00:00:02,000", [lit "a "; lit " b"])])
  <> [Notions.stripped_lines [lit "a "; lit " b"] ++ [Py.LF; Py.LF]].
Proof. vm_compute. discriminate. Qed.

(** C9, amended.  The serializers strip the text of an entry as one
    block: [translate.py] joins the text lines with newlines and
    strips the result, [asr.py] strips the segment text.  The block
    written neither starts nor ends with whitespace; a single line is
    written stripped; and when the first and the last line are not
    blank, only the leading whitespace of the first line and the
    trailing whitespace of the last line are removed, every line in
    between and every inner line end being written as it is. *)
Theorem block_stripping :
  (forall (time_line : str) (body : list str) (i : Z),
      Notions.text_blocks (Translate.write_calls i [(time_line, body)])
        = [Py.strip (Py.join [Py.LF] body) ++ [Py.LF; Py.LF]]
      /\ Notions.trimmed (Py.strip (Py.join [Py.LF] body)) = true)
  /\ (forall (seg : Asr.segment) (i : Z) (ws : list str),
      Asr.write_calls i [seg] = Some ws ->
      Notions.text_blocks ws = [Py.strip (Asr.seg_text seg) ++ [Py.LF; Py.LF]]
      /\ Notions.trimmed (Py.strip (Asr.seg_text seg)) = true)
  /\ (forall line : str,
      Py.strip (Py.join [Py.LF] [line]) = Py.strip line)
  /\ (forall (first last : str) (mid : list str),
      Notions.nonblank first = true -> Notions.nonblank last = true ->
      Py.strip (Py.join [Py.LF] (first :: mid ++ [last]))
        = Py.join [Py.LF] (Py.lstrip first :: mid ++ [Py.rstrip last])).
Proof.
  repeat split.
  - apply strip_trimmed.
  - cbn [Asr.write_calls] in H.
    destruct (Asr.format_time (Asr.seg_start seg)); [|discriminate].
    destruct (Asr.format_time (Asr.seg_end seg)); [|discriminate].
    injection H as <-. reflexivity.
  - apply strip_trimmed.
  - intros first last mid Hf Hl. now apply strip_join_ends.
Qed.

Lemma block_stripping_witness :
  Py.strip (Py.join [Py.LF] (lit " a " :: [lit " b "] ++ [lit " c "]))
  = Py.join [Py.LF] (Py.lstrip (lit " a ") :: [lit " b "] ++ [Py.rstrip (lit " c ")]).
Proof.
  apply (proj2 (proj2 (proj2 block_stripping))); reflexivity.
Defined.

(** ** The translation loop *)

Section TranslationLoop.

Import Notions.
Import Translate.

Variable tstate : Type.
Variable translate_line : str -> tstate -> str * tstate.

Lemma translate_lines_spec : forall body acc (g : Pipeline.engine tstate),
  exists outs g',
    Pipeline.translate_lines translate_line body acc g = (acc ++ outs, g')
    /\ lines_outcome body outs
    /\ Pipeline.eng_calls g'
       = Pipeline.eng_calls g ++ filter nonempty (map Py.strip body).
Proof.
  induction body as [|line rest IH]; intros acc g.
  - exists [], g. repeat split.
    + simpl. now rewrite app_nil_r.
    + intros k line H. destruct k; discriminate.
    + simpl. now rewrite app_nil_r.
  - cbn [Pipeline.translate_lines].
    destruct (Py.strip line) as [|c l] eqn:E.
    + destruct (IH (acc ++ [[]]) g) as (outs & g' & Hr & (Hlen & Hemp) & Hc).
      exists ([] :: outs), g'. repeat split.
      * rewrite <- app_assoc in Hr. exact Hr.
      * simpl. now rewrite Hlen.
      * intros k l H Hs. destruct k; simpl in *; [reflexivity|eauto].
      * cbn [map filter]. rewrite E. exact Hc.
    + unfold Pipeline.call_translate.
      destruct (translate_line (c :: l) (Pipeline.eng_state g)) as [out st].
      destruct (IH (acc ++ [out])
                  {| Pipeline.eng_state := st;
                     Pipeline.eng_calls := Pipeline.eng_calls g ++ [c :: l] |})
        as (outs & g' & Hr & (Hlen & Hemp) & Hc).
      exists (out :: outs), g'. repeat split.
      * rewrite <- app_assoc in Hr. exact Hr.
      * simpl. now rewrite Hlen.
      * intros k l0 H Hs. destruct k; simpl in *; [|eauto].
        injection H as <-. congruence.
      * cbn [map filter]. rewrite E. cbn [nonempty length Nat.eqb negb].
        rewrite Hc. cbn [Pipeline.eng_calls]. now rewrite <- app_assoc.
Qed.

Lemma translate_entries_spec :
  forall entries acc (g : Pipeline.engine tstate),
  exists outs g',
    Pipeline.translate_entries translate_line entries acc g
    = (acc ++ outs, g')
    /\ map fst outs = map fst entries
    /\ Forall2 (fun e o => lines_outcome (snd e) (snd o)) entries outs
    /\ Pipeline.eng_calls g'
       = Pipeline.eng_calls g
           ++ filter nonempty (map Py.strip (concat (map snd entries))).
Proof.
  induction entries as [|[time_line body] rest IH]; intros acc g.
  - exists [], g. repeat split.
    + simpl. now rewrite app_nil_r.
    + constructor.
    + simpl. now rewrite app_nil_r.
  - cbn [Pipeline.translate_entries].
    destruct (translate_lines_spec body [] g) as (louts & g1 & Hl & Ho & Hc1).
    rewrite Hl. cbn [app].
    destruct (IH (acc ++ [(time_line, louts)]) g1)
      as (outs & g' & Hr & Hf & Hall & Hc).
    exists ((time_line, louts) :: outs), g'. repeat split.
    + rewrite <- app_assoc in Hr. exact Hr.
    + simpl. now rewrite Hf.
    + constructor; assumption.
    + cbn [map concat snd]. rewrite map_app, filter_app, Hc, Hc1.
      now rewrite <- app_assoc.
Qed.

End TranslationLoop.

(** ** The parser never raises *)

Section ParserTotal.

Import Notions.

Lemma parse_block_total : forall block acc,
  Translate.parse_block block acc = Some (acc ++ entries_by_count block).
Proof.
  intros block acc. unfold Translate.parse_block, entries_by_count.
  destruct (Py.split Py.LF block) as [|first [|second rest]]; simpl.
  - now rewrite app_nil_r.
  - now rewrite app_nil_r.
  - destruct (Py.isdigit (Py.strip first)); reflexivity.
Qed.

Lemma parse_blocks_total : forall blocks acc,
  Translate.parse_blocks blocks acc
  = Some (acc ++ flat_map entries_by_count blocks).
Proof.
  induction blocks as [|b bs IH]; intros acc; simpl.
  - now rewrite app_nil_r.
  - rewrite parse_block_total, IH. now rewrite <- app_assoc.
Qed.

Lemma parse_srt_total : forall text,
  Translate.parse_srt text
  = Some (flat_map entries_by_count (Translate.blocks_of text)).
Proof. intros text. apply (parse_blocks_total _ []). Qed.

End ParserTotal.

(** ** Splitting on blank lines *)

Section BlankSplit.

Import Notions.
Import Translate.

Lemma re_split_aux_skip : forall m k s cur,
  k <= length s ->
  Py.re_split_aux m k cur s = Py.re_split_aux m 0 cur (skipn k s).
Proof.
  intros m k. induction k as [|k IH]; intros s cur H.
  - reflexivity.
  - destruct s as [|c s]; simpl in H; [lia|].
    simpl. apply IH. lia.
Qed.

Lemma re_split_aux_cur : forall m s k cur,
  Py.re_split_aux m k cur s
  = match Py.re_split_aux m k [] s with
    | b :: bs => (rev cur ++ b) :: bs
    | [] => []
    end.
Proof.
  intros m s. induction s as [|c s IH]; intros k cur.
  - simpl. now rewrite app_nil_r.
  - destruct k as [|k].
    + cbn [Py.re_split_aux]. destruct (m (c :: s)) as [[|j]|].
      * rewrite (IH 0 (c :: cur)), (IH 0 [c]).
        destruct (Py.re_split_aux m 0 [] s); [reflexivity|].
        simpl. now rewrite <- app_assoc.
      * simpl. now rewrite app_nil_r.
      * rewrite (IH 0 (c :: cur)), (IH 0 [c]).
        destruct (Py.re_split_aux m 0 [] s); [reflexivity|].
        simpl. now rewrite <- app_assoc.
    + cbn [Py.re_split_aux]. apply IH.
Qed.

Lemma isspace_LF : Py.isspace Py.LF = true.
Proof. reflexivity. Qed.

Lemma blank_tail_LF : forall r, blank_tail (Py.LF :: r) <> None.
Proof.
  intros r. simpl. destruct (blank_tail r); discriminate.
Qed.

Lemma blank_tail_some : forall r k,
  blank_tail r = Some k ->
  1 <= k <= length r
  /\ blank (firstn k r) = true
  /\ blank_tail (skipn k r) = None.
Proof.
  induction r as [|c r IH]; intros k H; simpl in H; [discriminate|].
  destruct (Py.isspace c) eqn:Ec; [|discriminate].
  destruct (blank_tail r) as [j|] eqn:Er.
  - injection H as <-. destruct (IH j eq_refl) as (Hj & Hb & Hn).
    repeat split; simpl; try lia; [now rewrite Ec, Hb|assumption].
  - destruct (Ascii.eqb c Py.LF); [|discriminate].
    injection H as <-. repeat split; simpl; try lia.
    + now rewrite Ec.
    + assumption.
Qed.

Lemma blank_tail_space : forall c r,
  Py.isspace c = true -> blank_tail (c :: r) = None -> blank_tail r = None.
Proof.
  intros c r Hc H. simpl in H. rewrite Hc in H.
  now destruct (blank_tail r).
Qed.

Lemma head_ok_rev_suffix : forall a b,
  head_ok (rev (a ++ b)) = true -> head_ok (rev b) = true.
Proof.
  intros a b H. rewrite rev_app_distr in H.
  destruct (rev b); [reflexivity|exact H].
Qed.

Lemma head_ok_rev_tail : forall c s,
  head_ok (rev (c :: s)) = true -> head_ok (rev s) = true.
Proof. intros c s. apply (head_ok_rev_suffix [c] s). Qed.

Lemma blank_head_ok_rev : forall s,
  blank s = true -> head_ok (rev s) = true -> s = [].
Proof.
  intros s Hb Hh. rewrite <- blank_rev in Hb.
  rewrite <- (rev_involutive s). destruct (rev s) as [|c t]; [reflexivity|].
  simpl in *. apply andb_prop in Hb as [Hc _]. now rewrite Hc in Hh.
Qed.

Lemma blocks_scan : forall n s seen,
  length s <= n ->
  head_ok (rev s) = true ->
  (seen = false -> blank_tail s = None /\ s <> []) ->
  exists b bs,
    Py.re_split_aux blank_sep 0 [] s = b :: bs
    /\ scan_lines seen b = true
    /\ Forall (fun b => scan_lines false b = true) bs.
Proof.
  induction n as [|n IH]; intros s seen Hlen Hend Hseen.
  - destruct s; [|simpl in Hlen; lia].
    exists [], []. repeat split; [|constructor].
    destruct seen; [reflexivity|]. now destruct (Hseen eq_refl).
  - destruct s as [|c s].
    + exists [], []. repeat split; [|constructor].
      destruct seen; [reflexivity|]. now destruct (Hseen eq_refl).
    + simpl in Hlen. cbn [Py.re_split_aux].
      destruct (blank_sep (c :: s)) as [[|k]|] eqn:Em.
      * (* the pattern never matches the empty string *)
        simpl in Em. destruct (Ascii.eqb c Py.LF); [|discriminate].
        destruct (blank_tail s); discriminate.
      * (* a separator starts here *)
        simpl in Em. destruct (Ascii.eqb_spec c Py.LF) as [->|]; [|discriminate].
        destruct (blank_tail s) as [j|] eqn:Et; [|discriminate].
        injection Em as <-.
        destruct seen.
        2:{ destruct (Hseen eq_refl) as [Hn _]. now apply blank_tail_LF in Hn. }
        destruct (blank_tail_some _ Et) as (Hj & Hb & Hn).
        rewrite re_split_aux_skip by lia.
        assert (Hsuf : head_ok (rev (skipn j s)) = true).
        { apply head_ok_rev_tail in Hend.
          rewrite <- (firstn_skipn j s) in Hend.
          now apply head_ok_rev_suffix in Hend. }
        assert (Hne : skipn j s <> []).
        { intros E. apply head_ok_rev_tail in Hend.
          rewrite <- (firstn_skipn j s), E, app_nil_r in Hend.
          apply blank_head_ok_rev in Hend; [|assumption].
          assert (Hl : length (firstn j s) = 0) by now rewrite Hend.
          rewrite length_firstn in Hl. lia. }
        destruct (IH (skipn j s) false) as (b & bs & Hr & Hb1 & Hbs).
        { rewrite length_skipn. lia. }
        { assumption. }
        { intros _. split; assumption. }
        exists [], (b :: bs). rewrite Hr. repeat split.
        constructor; assumption.
      * (* no separator here *)
        rewrite re_split_aux_cur.
        assert (Hs : c = Py.LF -> seen = true /\ blank_tail s = None).
        { intros ->. split.
          - destruct seen; [reflexivity|].
            destruct (Hseen eq_refl) as [Hn _]. now apply blank_tail_LF in Hn.
          - simpl in Em. now destruct (blank_tail s). }
        assert (Hs' : s = [] -> Py.isspace c = false).
        { intros ->. simpl in Hend. now destruct (Py.isspace c). }
        destruct (IH s (if Ascii.eqb c Py.LF then false
                        else seen || negb (Py.isspace c)))
          as (b & bs & Hr & Hb1 & Hbs).
        { lia. }
        { now apply head_ok_rev_tail in Hend. }
        { destruct (Ascii.eqb_spec c Py.LF) as [->|Hne].
          - intros _. destruct (Hs eq_refl) as [_ Hn]. split; [assumption|].
            intros ->. now specialize (Hs' eq_refl).
          - intros Hf. apply orb_false_elim in Hf as [-> Hsp].
            apply negb_false_iff in Hsp.
            destruct (Hseen eq_refl) as [Hn _]. split.
            + now apply (blank_tail_space c).
            + intros ->. rewrite Hs' in Hsp; [discriminate|reflexivity]. }
        rewrite Hr. exists ([c] ++ b), bs. repeat split; [|assumption].
        simpl. destruct (Ascii.eqb_spec c Py.LF) as [->|Hne].
        -- destruct (Hs eq_refl) as [-> _]. exact Hb1.
        -- exact Hb1.
Qed.

End BlankSplit.

Section BlockLines.

Import Notions.
Import Translate.

Lemma nonblank_cons : forall c l,
  nonblank (c :: l) = negb (Py.isspace c) || nonblank l.
Proof. intros c l. unfold nonblank. simpl. apply negb_andb. Qed.

Lemma scan_lines_split : forall s seen,
  scan_lines seen s
  = match Py.split Py.LF s with
    | l :: ls => (seen || nonblank l) && forallb nonblank ls
    | [] => false
    end.
Proof.
  induction s as [|c s IH]; intros seen.
  - simpl. unfold nonblank. simpl. now rewrite orb_false_r, andb_true_r.
  - simpl. pose proof (split_not_nil Py.LF s) as Hnn.
    destruct (Ascii.eqb c Py.LF).
    + rewrite IH. destruct (Py.split Py.LF s) as [|l ls]; [now elim Hnn|].
      unfold nonblank at 2. simpl. now rewrite orb_false_r.
    + rewrite IH. destruct (Py.split Py.LF s) as [|l ls]; [now elim Hnn|].
      rewrite nonblank_cons. now rewrite orb_assoc.
Qed.

Lemma scan_lines_nonblank : forall s,
  scan_lines false s = true ->
  Forall (fun l => nonblank l = true) (Py.split Py.LF s).
Proof.
  intros s H. rewrite scan_lines_split in H.
  destruct (Py.split Py.LF s) as [|l ls]; [discriminate|].
  simpl in H. apply andb_prop in H as [Hl Hls].
  constructor; [assumption|].
  apply Forall_forall. intros x Hx.
  exact (proj1 (forallb_forall nonblank ls) Hls x Hx).
Qed.

Lemma head_ok_blank_tail : forall s,
  s <> [] -> head_ok s = true -> blank_tail s = None.
Proof.
  intros [|c s] Hne H; [now elim Hne|]. simpl in *.
  now destruct (Py.isspace c).
Qed.

(** The blocks of a text: a single empty block when the text holds
    nothing but whitespace and carriage returns, and otherwise blocks
    whose lines all hold a visible character. *)
Lemma blocks_of_lines : forall text,
  blocks_of text = [[]]
  \/ Forall (fun b => Forall (fun l => nonblank l = true) (Py.split Py.LF b))
       (blocks_of text).
Proof.
  intros text. unfold blocks_of, Py.re_split.
  pose proof (strip_trimmed (Py.remove_char Py.CR text)) as Ht.
  destruct (Py.strip (Py.remove_char Py.CR text)) as [|c s] eqn:E.
  - left. reflexivity.
  - right. unfold trimmed in Ht. apply andb_prop in Ht as [H1 H2].
    destruct (@blocks_scan (length (c :: s)) (c :: s) false) as (b & bs & Hr & Hb & Hbs).
    + lia.
    + assumption.
    + intros _. split; [|discriminate].
      apply head_ok_blank_tail; [discriminate|assumption].
    + rewrite Hr. constructor.
      * now apply scan_lines_nonblank.
      * eapply Forall_impl; [|exact Hbs]. intros a. apply scan_lines_nonblank.
Qed.

Lemma nonblank_nonempty : forall l, nonblank l = true -> nonempty l = true.
Proof. intros [|c l] H; [discriminate|reflexivity]. Qed.

Lemma entries_count_agree : forall b,
  b = [] \/ Forall (fun l => nonblank l = true) (Py.split Py.LF b) ->
  entries_by_count b = entries_of_block b.
Proof.
  intros b [->|H].
  - reflexivity.
  - unfold entries_by_count, entries_of_block, nonempty_lines.
    replace (filter (fun l => negb (length l =? 0)) (Py.split Py.LF b))
      with (Py.split Py.LF b); [reflexivity|].
    induction H as [|l ls Hl Hls IH]; [reflexivity|].
    simpl. apply nonblank_nonempty in Hl. unfold nonempty in Hl.
    rewrite Hl. now f_equal.
Qed.

Lemma parse_spec_by_count : forall text,
  flat_map entries_by_count (blocks_of text) = parse_spec text.
Proof.
  intros text. unfold parse_spec.
  destruct (blocks_of_lines text) as [E|H].
  - rewrite E. reflexivity.
  - induction H as [|b bs Hb Hbs IH]; [reflexivity|].
    simpl. rewrite IH. f_equal. apply entries_count_agree. now right.
Qed.

Lemma parse_blocks_app : forall bs1 bs2 acc,
  parse_blocks (bs1 ++ bs2) acc
  = match parse_blocks bs1 acc with
    | Some acc' => parse_blocks bs2 acc'
    | None => None
    end.
Proof.
  induction bs1 as [|b bs1 IH]; intros bs2 acc; simpl; [reflexivity|].
  destruct (parse_block b acc); [apply IH|reflexivity].
Qed.

End BlockLines.

Section Boundaries.

Import Notions.
Import Translate.

Lemma blank_tail_last : forall r k,
  blank_tail r = Some k ->
  exists w, firstn k r = w ++ [Py.LF] /\ blank w = true.
Proof.
  induction r as [|c r IH]; intros k H; simpl in H; [discriminate|].
  destruct (Py.isspace c) eqn:Ec; [|discriminate].
  destruct (blank_tail r) as [j|] eqn:Er.
  - injection H as <-. destruct (IH j eq_refl) as (w & Hw & Hb).
    exists (c :: w). simpl. rewrite Hw, Ec, Hb. split; reflexivity.
  - destruct (Ascii.eqb_spec c Py.LF) as [->|]; [|discriminate].
    injection H as <-. exists []. split; reflexivity.
Qed.

Lemma weave_cons_head : forall c b bs seps,
  weave ((c :: b) :: bs) seps = c :: weave (b :: bs) seps.
Proof. intros c b bs [|p ps]; reflexivity. Qed.

Lemma re_split_weave : forall n s,
  length s <= n ->
  exists seps,
    weave (Py.re_split_aux blank_sep 0 [] s) seps = s
    /\ Forall boundary seps
    /\ S (length seps) = length (Py.re_split_aux blank_sep 0 [] s).
Proof.
  induction n as [|n IH]; intros s Hlen.
  - destruct s; [|simpl in Hlen; lia].
    exists []. repeat split. constructor.
  - destruct s as [|c s].
    + exists []. repeat split. constructor.
    + simpl in Hlen. cbn [Py.re_split_aux].
      destruct (blank_sep (c :: s)) as [[|k]|] eqn:Em.
      * simpl in Em. destruct (Ascii.eqb c Py.LF); [|discriminate].
        destruct (blank_tail s); discriminate.
      * simpl in Em.
        destruct (Ascii.eqb_spec c Py.LF) as [->|]; [|discriminate].
        destruct (blank_tail s) as [j|] eqn:Et; [|discriminate].
        injection Em as <-.
        destruct (blank_tail_some _ Et) as (Hj & _ & _).
        destruct (blank_tail_last _ Et) as (w & Hw & Hb).
        rewrite re_split_aux_skip by lia.
        destruct (IH (skipn j s)) as (seps & Hv & Hall & Hn).
        { rewrite length_skipn. lia. }
        exists ((Py.LF :: firstn j s) :: seps). repeat split.
        -- cbn [weave app rev]. rewrite Hv. f_equal. apply firstn_skipn.
        -- constructor; [|assumption]. exists w. now rewrite Hw.
        -- simpl. now rewrite Hn.
      * rewrite re_split_aux_cur.
        destruct (IH s) as (seps & Hv & Hall & Hn); [lia|].
        destruct (Py.re_split_aux blank_sep 0 [] s) as [|b bs];
          [simpl in Hn; lia|].
        exists seps. repeat split; [|assumption|exact Hn].
        simpl rev. cbn [app]. rewrite weave_cons_head. now f_equal.
Qed.

Lemma blocks_of_weave : forall text,
  exists seps,
    weave (blocks_of text) seps = Py.strip (Py.remove_char Py.CR text)
    /\ Forall boundary seps
    /\ S (length seps) = length (blocks_of text).
Proof.
  intros text. unfold blocks_of, Py.re_split.
  now apply (re_split_weave (n := length (Py.strip (Py.remove_char Py.CR text)))).
Qed.

End Boundaries.

(** C6. Malformed-block leniency.  On every text the parser returns,
    without raising, the entries that the design document describes:
    the text, carriage returns removed and stripped, is cut at its
    blank-line boundaries (the blocks woven back around boundaries
    give the text, and no block holds a blank line); a block with
    fewer than two non-empty lines yields nothing; the other blocks
    yield their entries in file order.  The empty text yields no
    entry, and a last block of a single line is dropped. *)
Theorem malformed_block_leniency :
  forall text : str,
    Translate.parse_srt text = Some (Notions.parse_spec text)
    /\ (exists seps,
          Notions.weave (Translate.blocks_of text) seps
            = Py.strip (Py.remove_char Py.CR text)
          /\ Forall Notions.boundary seps
          /\ S (length seps) = length (Translate.blocks_of text))
    /\ (Translate.blocks_of text = [[]]
        \/ Forall (fun b =>
                     Forall (fun l => Notions.nonblank l = true)
                       (Py.split Py.LF b))
             (Translate.blocks_of text))
    /\ Translate.parse_srt [] = Some []
    /\ (forall blocks last,
          Translate.blocks_of text = blocks ++ [last] ->
          Notions.no_newline last ->
          Translate.parse_srt text = Translate.parse_blocks blocks []).
Proof.
  intros text. repeat split.
  - rewrite parse_srt_total. f_equal. apply parse_spec_by_count.
  - apply blocks_of_weave.
  - apply blocks_of_lines.
  - intros blocks last Hb Hl. unfold Translate.parse_srt.
    rewrite Hb, parse_blocks_app.
    destruct (Translate.parse_blocks blocks []) as [acc|] eqn:E.
    + simpl. now rewrite parse_block_single.
    + reflexivity.
Qed.

Lemma malformed_block_leniency_witness :
  Translate.parse_srt
    (lit "1" ++ [Py.LF] ++ lit "00:00:01,000 --> 00:00:02,000" ++ [Py.LF]
       ++ lit "hello" ++ [Py.LF; Py.CR; Py.LF] ++ lit "dangling")
  = Translate.parse_blocks
      [lit "1" ++ [Py.LF] ++ lit "00:00:01,000 --> 00:00:02,000" ++ [Py.LF]
         ++ lit "hello"] [].
Proof.
  apply (proj2 (proj2 (proj2 (proj2
           (malformed_block_leniency
              (lit "1" ++ [Py.LF] ++ lit "00:00:01,000 --> 00:00:02,000"
                 ++ [Py.LF] ++ lit "hello" ++ [Py.LF; Py.CR; Py.LF]
                 ++ lit "dangling")))))
           _ (lit "dangling")).
  - vm_compute. reflexivity.
  - unfold Notions.no_newline. vm_compute. intuition discriminate.
Defined.

Section TimeLines.

Import Notions.

Lemma time_lines_translate : forall entries i,
  time_lines (Translate.write_calls i entries)
  = map (fun e => fst e ++ [Py.LF]) entries.
Proof.
  induction entries as [|[time_line body] rest IH]; intros i.
  - reflexivity.
  - unfold time_lines in *. cbn [Translate.write_calls captions map fst snd].
    now rewrite IH.
Qed.

Lemma lines_outcome_length : forall entries outs,
  Forall2 (fun e o => lines_outcome (snd e) (snd o)) entries outs ->
  Forall2 (fun (e o : Translate.entry) => length (snd o) = length (snd e))
    entries outs.
Proof.
  intros entries outs H. induction H as [|e o es os [Hl _] _ IH];
    constructor; assumption.
Qed.

End TimeLines.

(** C2. Frame property of the reparse-translate pipeline.  On every
    input file with an installed model the pipeline runs to the end;
    the entries it writes carry, one for one and in the same order,
    the timestamp lines of the parsed entries, character for
    character, both in the entries handed to the serializer and in
    the timestamp lines written; each entry keeps its number of text
    lines: only the text of the lines is replaced. *)
Theorem reparse_translate_frame :
  forall (tstate : Type) (translate_line : str -> tstate -> str * tstate)
         (text : str) (st : tstate),
  exists entries translated g,
    Translate.parse_srt text = Some entries
    /\ Pipeline.translate_entries translate_line entries []
         {| Pipeline.eng_state := st; Pipeline.eng_calls := [] |}
       = (translated, g)
    /\ Pipeline.main translate_line text (Some st)
       = Some (Translate.write_srt translated, g)
    /\ map fst translated = map fst entries
    /\ Notions.time_lines (Translate.write_calls 1 translated)
       = map (fun e => fst e ++ [Py.LF]) entries
    /\ Forall2 (fun (e o : Translate.entry) => length (snd o) = length (snd e))
         entries translated.
Proof.
  intros tstate translate_line text st.
  destruct (translate_entries_spec translate_line
              (flat_map Notions.entries_by_count (Translate.blocks_of text)) []
              {| Pipeline.eng_state := st; Pipeline.eng_calls := [] |})
    as (outs & g & Hr & Hf & Hall & _).
  exists (flat_map Notions.entries_by_count (Translate.blocks_of text)), outs, g.
  repeat split.
  - apply parse_srt_total.
  - exact Hr.
  - unfold Pipeline.main. rewrite parse_srt_total. cbn [app] in Hr.
    now rewrite Hr.
  - exact Hf.
  - rewrite time_lines_translate.
    transitivity (map (fun t => t ++ [Py.LF]) (map fst outs)).
    + symmetry. apply map_map.
    + rewrite Hf. apply map_map.
  - now apply lines_outcome_length.
Qed.

(** C8. Empty-line passthrough.  Whatever entries the translation
    loop is given, a text line that is empty once trimmed is kept as
    the empty string at its place, and the lines handed to the
    translator are exactly the non-empty trimmed lines, each once, in
    file order; so it is in the pipeline on every input file. *)
Theorem empty_line_passthrough :
  forall (tstate : Type) (translate_line : str -> tstate -> str * tstate),
    (forall (entries acc : list Translate.entry) (g : Pipeline.engine tstate),
      exists outs g',
        Pipeline.translate_entries translate_line entries acc g
          = (acc ++ outs, g')
        /\ Forall2 (fun e o => Notions.lines_outcome (snd e) (snd o))
             entries outs
        /\ Pipeline.eng_calls g'
           = Pipeline.eng_calls g
               ++ filter Notions.nonempty
                    (map Py.strip (concat (map snd entries))))
    /\ (forall (text : str) (st : tstate) (file : str)
               (g : Pipeline.engine tstate),
          Pipeline.main translate_line text (Some st) = Some (file, g) ->
          Pipeline.eng_calls g
          = filter Notions.nonempty
              (map Py.strip (concat (map snd (Notions.parse_spec text))))).
Proof.
  intros tstate translate_line. split.
  - intros entries acc g.
    destruct (translate_entries_spec translate_line entries acc g)
      as (outs & g' & Hr & _ & Hall & Hc).
    exists outs, g'. repeat split; assumption.
  - intros text st file g H. unfold Pipeline.main in H.
    rewrite parse_srt_total, parse_spec_by_count in H.
    destruct (translate_entries_spec translate_line (Notions.parse_spec text) []
                {| Pipeline.eng_state := st; Pipeline.eng_calls := [] |})
      as (outs & g' & Hr & _ & _ & Hc).
    rewrite Hr in H. injection H as _ <-. exact Hc.
Qed.

Lemma empty_line_passthrough_witness :
  Pipeline.eng_calls
    (snd (Pipeline.translate_entries (fun l (n : nat) => (lit "x" ++ l, S n))
            [(lit "00:00:01,000 --> 00:00:02,000", [lit " a "; lit "  "; lit "b"])]
            [] {| Pipeline.eng_state := 0; Pipeline.eng_calls := [] |}))
  = [lit "a"; lit "b"].
Proof.
  destruct (proj1 (empty_line_passthrough (fun l (n : nat) => (lit "x" ++ l, S n)))
              [(lit "00:00:01,000 --> 00:00:02,000", [lit " a "; lit "  "; lit "b"])]
              [] {| Pipeline.eng_state := 0; Pipeline.eng_calls := [] |})
    as (outs & g' & Hr & _ & Hc).
  rewrite Hr. exact Hc.
Defined.

Lemma index_regeneration_witness :
  Notions.index_lines
    (Translate.write_calls 1
       [(lit "00:00:01,000 --> 00:00:02,000", [lit "one"]);
        (lit "00:00:02,000 --> 00:00:03,000", [lit "two"])])
  = Notions.numbered 0 2.
Proof.
  apply (proj2 (proj2 (proj2 (index_regeneration [] [])))
           (lit "41" ++ [Py.LF] ++ lit "00:00:01,000 --> 00:00:02,000"
              ++ [Py.LF] ++ lit "one" ++ [Py.LF; Py.LF]
              ++ lit "97" ++ [Py.LF] ++ lit "00:00:02,000 --> 00:00:03,000"
              ++ [Py.LF] ++ lit "two" ++ [Py.LF])).
  vm_compute. reflexivity.
Defined.

(** ** Progress telemetry *)

Section Telemetry.

Import Notions.

Lemma max_larger : forall a b, F64.max a b = larger a b.
Proof. reflexivity. Qed.

Lemma min_max_clamp : forall q,
  F64.min (F64.max q (S754_zero false)) (F64.of_Z 1)
  = clamp q (F64.of_Z 0) (F64.of_Z 1).
Proof.
  intros q. unfold F64.min, F64.max, clamp, F64.gt, F64.lt.
  change (F64.of_Z 0) with (S754_zero false).
  destruct (SFltb q (S754_zero false)) eqn:E; reflexivity.
Qed.

Lemma positive_not_zero : forall total,
  F64.gt total (F64.of_Z 0) = true -> F64.is_zero total = false.
Proof.
  intros total H. destruct total as [s|s| |s m e]; try reflexivity.
  destruct s; discriminate.
Qed.

Lemma epsilon_value :
  epsilon = S754_finite false 4611686018427388 (-62).
Proof. vm_compute. reflexivity. Qed.

Lemma elapsed_not_zero : forall d,
  F64.is_zero (larger d epsilon) = false.
Proof.
  intros d. unfold larger. rewrite epsilon_value.
  destruct d as [s|s| |s m e]; try (destruct s; reflexivity).
  - reflexivity.
  - destruct (F64.lt _ _); reflexivity.
Qed.

Lemma report_emits : forall clock total start_time seg w,
  F64.gt total (F64.of_Z 0) = true ->
  Asr.report clock total start_time seg w
  = Some {| Asr.clock_calls := S (Asr.clock_calls w);
            Asr.stdout :=
              Asr.stdout w
                ++ [sample_line
                      (sample_of total start_time
                         (clock (Asr.clock_calls w)) seg)] |}.
Proof.
  intros clock total start_time seg w H. unfold Asr.report. rewrite H.
  unfold F64.truediv. rewrite (positive_not_zero total H).
  cbn [Asr.time_time]. rewrite max_larger.
  change (F64.of_ratio 1 1000) with epsilon.
  rewrite elapsed_not_zero, min_max_clamp. reflexivity.
Qed.

Lemma report_silent : forall clock total start_time seg w,
  F64.gt total (F64.of_Z 0) = false ->
  Asr.report clock total start_time seg w = Some w.
Proof.
  intros clock total start_time seg w H. unfold Asr.report. now rewrite H.
Qed.

Lemma consume_emits : forall clock total start_time segs acc w,
  F64.gt total (F64.of_Z 0) = true ->
  Asr.consume clock total start_time segs acc w
  = Some (acc ++ segs,
          {| Asr.clock_calls := Asr.clock_calls w + length segs;
             Asr.stdout :=
               Asr.stdout w
                 ++ lines_from clock total start_time
                      (Asr.clock_calls w) segs |}).
Proof.
  intros clock total start_time segs. induction segs as [|seg rest IH];
    intros acc w H.
  - simpl. rewrite !app_nil_r, Nat.add_0_r. now destruct w.
  - cbn [Asr.consume]. rewrite report_emits by assumption.
    rewrite IH by assumption. cbn [Asr.clock_calls Asr.stdout lines_from length].
    rewrite <- !app_assoc. do 3 f_equal. lia.
Qed.

Lemma consume_silent : forall clock total start_time segs acc w,
  F64.gt total (F64.of_Z 0) = false ->
  Asr.consume clock total start_time segs acc w = Some (acc ++ segs, w).
Proof.
  intros clock total start_time segs. induction segs as [|seg rest IH];
    intros acc w H.
  - simpl. now rewrite app_nil_r.
  - cbn [Asr.consume]. rewrite report_silent by assumption.
    rewrite IH by assumption. now rewrite <- app_assoc.
Qed.

Lemma clamp_not_above : forall q,
  F64.gt (clamp q (F64.of_Z 0) (F64.of_Z 1)) (F64.of_Z 1) = false.
Proof.
  intros q. unfold clamp.
  destruct (F64.lt q (F64.of_Z 0)); [reflexivity|].
  destruct (F64.lt (F64.of_Z 1) q) eqn:E; [reflexivity|exact E].
Qed.

Lemma one_value : F64.of_Z 1 = S754_finite false 4503599627370496 (-52).
Proof. vm_compute. reflexivity. Qed.

Lemma clamp_in_unit : forall q,
  q <> S754_nan -> in_unit (clamp q (F64.of_Z 0) (F64.of_Z 1)).
Proof.
  intros q Hq. unfold clamp, in_unit, F64.lt.
  change (F64.of_Z 0) with (S754_zero false). rewrite one_value.
  destruct q as [s|s| |s m e].
  - destruct s; split; reflexivity.
  - destruct s; split; reflexivity.
  - now elim Hq.
  - destruct s; [split; reflexivity|].
    assert (Hc : SFcompare (S754_finite false m e)
                   (S754_finite false 4503599627370496 (-52))
                 = option_map CompOpp
                     (SFcompare (S754_finite false 4503599627370496 (-52))
                        (S754_finite false m e))).
    { cbn [SFcompare option_map]. f_equal.
      rewrite (Z.compare_antisym (-52) e).
      destruct (-52 ?= e)%Z; cbn [CompOpp]; try reflexivity.
      symmetry. apply (Pos.compare_cont_antisym 4503599627370496 m Eq). }
    unfold SFltb, SFleb.
    change (SFcompare (S754_finite false m e) (S754_zero false))
      with (Some Gt).
    cbv iota.
    destruct (SFcompare (S754_finite false 4503599627370496 (-52))
                (S754_finite false m e)) as [[| |]|] eqn:E; cbv iota.
    + rewrite Hc. split; reflexivity.
    + split; reflexivity.
    + rewrite Hc. split; reflexivity.
    + discriminate E.
Qed.

End Telemetry.

(** C7. Progress telemetry.  For every incoming segment a progress
    line is printed exactly when the total duration is strictly
    positive, and no division raises.  The line printed is the one of
    the sample with [ratio = clamp(end / total, 0, 1)],
    [elapsed = max(now - start_time, 0.001)] and
    [speed = end / elapsed]; the ratio is never above 1 and lies
    between 0 and 1 when the quotient is a number.  Over a whole run
    one line per segment is printed in order, the clock being read
    once per segment, or nothing at all when the total is not
    positive.  With [total = 10.0] and [end = 15.0] the ratio is
    printed as [1.0000]. *)
Theorem progress_telemetry :
  forall (clock : nat -> spec_float) (total start_time : spec_float)
         (seg : Asr.segment) (w : Asr.world),
    (F64.gt total (F64.of_Z 0) = true ->
       Asr.report clock total start_time seg w
       = Some {| Asr.clock_calls := S (Asr.clock_calls w);
                 Asr.stdout :=
                   Asr.stdout w
                     ++ [Notions.sample_line
                           (Notions.sample_of total start_time
                              (clock (Asr.clock_calls w)) seg)] |})
    /\ (F64.gt total (F64.of_Z 0) = false ->
          Asr.report clock total start_time seg w = Some w)
    /\ (forall now,
          F64.gt (Notions.ratio (Notions.sample_of total start_time now seg))
            (F64.of_Z 1) = false)
    /\ (forall now,
          F64.fdiv (Asr.seg_end seg) total <> S754_nan ->
          Notions.in_unit
            (Notions.ratio (Notions.sample_of total start_time now seg)))
    /\ (forall segs acc,
          Asr.consume clock total start_time segs acc w
          = Some (acc ++ segs,
                  if F64.gt total (F64.of_Z 0) then
                    {| Asr.clock_calls := Asr.clock_calls w + length segs;
                       Asr.stdout :=
                         Asr.stdout w
                           ++ Notions.lines_from clock total start_time
                                (Asr.clock_calls w) segs |}
                  else w))
    /\ F64.gt Notions.epsilon (F64.of_Z 0) = true
    /\ (forall now,
          Asr.seg_end seg = F64.of_Z 15 ->
          Notions.ratio (Notions.sample_of (F64.of_Z 10) start_time now seg)
            = F64.of_Z 1
          /\ F64.format_f 4
               (Notions.ratio
                  (Notions.sample_of (F64.of_Z 10) start_time now seg))
             = lit "1.0000").
Proof.
  intros clock total start_time seg w.
  split; [now apply report_emits|].
  split; [now apply report_silent|].
  split; [intros now; apply clamp_not_above|].
  split; [intros now Hq; now apply clamp_in_unit|].
  split.
  { intros segs acc. destruct (F64.gt total (F64.of_Z 0)) eqn:E.
    - now apply consume_emits.
    - now apply consume_silent. }
  split; [vm_compute; reflexivity|].
  intros now H. cbn [Notions.sample_of Notions.ratio]. rewrite H.
  split; vm_compute; reflexivity.
Qed.

Lemma progress_telemetry_witness :
  Asr.report (fun k => F64.of_Z (Z.of_nat k)) (F64.of_Z 10) (F64.of_Z 0)
    (Asr.Segment (F64.of_Z 12) (F64.of_Z 15) (lit "hello"))
    {| Asr.clock_calls := 3; Asr.stdout := [] |}
  = Some {| Asr.clock_calls := 4;
            Asr.stdout := [lit "PROGRESS 1.0000 15.00 10.00 5.00"] |}.
Proof.
  apply (proj1 (progress_telemetry (fun k => F64.of_Z (Z.of_nat k))
                  (F64.of_Z 10) (F64.of_Z 0)
                  (Asr.Segment (F64.of_Z 12) (F64.of_Z 15) (lit "hello"))
                  {| Asr.clock_calls := 3; Asr.stdout := [] |})).
  reflexivity.
Defined.

(** ** Decimal numerals *)

Section DigitFacts.

Import Notions.

Open Scope N_scope.

Lemma digit_char_code : forall d, d < 10 -> N_of_ascii (Py.digit_char d) = 48 + d.
Proof.
  intros d H. unfold Py.digit_char. apply N_ascii_embedding. lia.
Qed.

Lemma decimal_value_snoc : forall a c,
  decimal_value (a ++ [c]) = decimal_value a * 10 + (N_of_ascii c - 48).
Proof. intros a c. unfold decimal_value. now rewrite fold_left_app. Qed.

Lemma half_below : forall n f,
  n < 2 ^ N.of_nat (S f) -> n / 10 < 2 ^ N.of_nat f.
Proof.
  intros n f H. rewrite Nat2N.inj_succ, N.pow_succ_r' in H.
  apply N.Div0.div_lt_upper_bound. lia.
Qed.

Lemma digits_value : forall fuel n,
  n < 2 ^ N.of_nat fuel -> decimal_value (Py.digits_aux fuel n) = n.
Proof.
  induction fuel as [|f IH]; intros n H.
  - simpl in H. assert (n = 0) by lia. subst. reflexivity.
  - cbn [Py.digits_aux]. destruct (N.ltb_spec n 10) as [Hlt|Hge].
    + unfold decimal_value. simpl. rewrite digit_char_code by assumption. lia.
    + rewrite decimal_value_snoc, IH by now apply half_below.
      rewrite digit_char_code by (apply N.mod_lt; lia).
      pose proof (N.Div0.div_mod n 10) as Hdm. clear - Hdm.
      generalize dependent (n mod 10). generalize dependent (n / 10).
      intros q r Hdm. lia.
Qed.

Lemma digits_ascii : forall fuel n, ascii_digits (Py.digits_aux fuel n).
Proof.
  induction fuel as [|f IH]; intros n; cbn [Py.digits_aux].
  - constructor.
  - destruct (N.ltb_spec n 10) as [Hlt|Hge].
    + constructor; [|constructor]. rewrite digit_char_code by assumption. lia.
    + apply Forall_app. split; [apply IH|].
      constructor; [|constructor].
      assert (n mod 10 < 10) by (apply N.mod_lt; lia).
      rewrite digit_char_code by assumption.
      generalize dependent (n mod 10). intros r Hr. lia.
Qed.

Lemma digits_length_le : forall fuel n k,
  n < 10 ^ N.of_nat (S k) -> (length (Py.digits_aux fuel n) <= S k)%nat.
Proof.
  induction fuel as [|f IH]; intros n k H; cbn [Py.digits_aux].
  - simpl. lia.
  - destruct (N.ltb_spec n 10) as [Hlt|Hge].
    + simpl. lia.
    + rewrite length_app. simpl.
      destruct k as [|k].
      * simpl in H. lia.
      * assert (n / 10 < 10 ^ N.of_nat (S k)).
        { rewrite (Nat2N.inj_succ (S k)), N.pow_succ_r' in H.
          apply N.Div0.div_lt_upper_bound. lia. }
        specialize (IH (n / 10) k). lia.
Qed.

Lemma digits_length_gt : forall fuel n k,
  n < 2 ^ N.of_nat fuel -> 10 ^ N.of_nat k <= n ->
  (k < length (Py.digits_aux fuel n))%nat.
Proof.
  induction fuel as [|f IH]; intros n k Hf H.
  - simpl in Hf. assert (n = 0) by lia. subst.
    pose proof (N.pow_nonzero 10 (N.of_nat k)). lia.
  - cbn [Py.digits_aux]. destruct (N.ltb_spec n 10) as [Hlt|Hge].
    + destruct k as [|k]; [simpl; lia|].
      rewrite Nat2N.inj_succ, N.pow_succ_r' in H.
      pose proof (N.pow_nonzero 10 (N.of_nat k)). lia.
    + rewrite length_app. simpl. destruct k as [|k]; [lia|].
      assert (10 ^ N.of_nat k <= n / 10).
      { rewrite Nat2N.inj_succ, N.pow_succ_r' in H.
        apply N.div_le_lower_bound; lia. }
      specialize (IH (n / 10) k (half_below Hf)). lia.
Qed.

Lemma fuel_enough : forall n, n < 2 ^ N.of_nat (S (N.to_nat (N.log2 n))).
Proof.
  intros n. rewrite Nat2N.inj_succ, N2Nat.id.
  destruct n as [|p]; [reflexivity|].
  apply N.log2_spec. lia.
Qed.

Lemma str_of_N_value : forall n, decimal_value (Py.str_of_N n) = n.
Proof. intros n. apply digits_value, fuel_enough. Qed.

Lemma str_of_N_ascii : forall n, ascii_digits (Py.str_of_N n).
Proof. intros n. apply digits_ascii. Qed.

Lemma str_of_N_nonempty : forall n, (1 <= length (Py.str_of_N n))%nat.
Proof.
  intros n. unfold Py.str_of_N. cbn [Py.digits_aux].
  destruct (n <? 10); [simpl; lia|]. rewrite length_app. simpl. lia.
Qed.

Lemma str_of_N_length_le : forall n k,
  n < 10 ^ N.of_nat (S k) -> (length (Py.str_of_N n) <= S k)%nat.
Proof. intros n k. apply digits_length_le. Qed.

Lemma str_of_N_length_gt : forall n k,
  10 ^ N.of_nat k <= n -> (k < length (Py.str_of_N n))%nat.
Proof. intros n k. apply digits_length_gt, fuel_enough. Qed.

Lemma decimal_value_zeros : forall k s,
  decimal_value (repeat (Py.digit_char 0) k ++ s) = decimal_value s.
Proof.
  intros k s. unfold decimal_value. rewrite fold_left_app.
  replace (fold_left _ (repeat (Py.digit_char 0) k) 0) with 0; [reflexivity|].
  induction k as [|k IH]; [reflexivity|]. simpl. exact IH.
Qed.

Lemma zfill_value : forall w s, decimal_value (Py.zfill w s) = decimal_value s.
Proof. intros w s. apply decimal_value_zeros. Qed.

Lemma zfill_length : forall w s,
  length (Py.zfill w s) = Nat.max w (length s).
Proof.
  intros w s. unfold Py.zfill. rewrite length_app, repeat_length. lia.
Qed.

Lemma zfill_ascii : forall w s, ascii_digits s -> ascii_digits (Py.zfill w s).
Proof.
  intros w s H. unfold Py.zfill. apply Forall_app. split; [|assumption].
  apply Forall_forall. intros c Hc. apply repeat_spec in Hc. subst.
  vm_compute. split; discriminate.
Qed.

Lemma zfill_long : forall w s, (w <= length s)%nat -> Py.zfill w s = s.
Proof.
  intros w s H. unfold Py.zfill.
  replace (w - length s)%nat with 0%nat by lia. reflexivity.
Qed.

Close Scope N_scope.

End DigitFacts.

(** ** The timestamp codec *)

Section Codec.

Import Notions.

Open Scope Z_scope.

Lemma round_half_even_nearest : forall num den,
  0 <= num -> 0 < den ->
  nearest_even num den (F64.round_half_even num den)
  /\ 0 <= F64.round_half_even num den.
Proof.
  intros num den Hn Hd. unfold nearest_even, F64.round_half_even.
  pose proof (Z.div_mod num den ltac:(lia)) as Hdm.
  pose proof (Z.mod_pos_bound num den Hd) as Hr.
  pose proof (Z.div_pos num den Hn Hd) as Hq.
  generalize dependent (num mod den). generalize dependent (num / den).
  intros q Hq r Hdm Hr. subst num.
  destruct (2 * r ?= den) eqn:E.
  - apply Z.compare_eq in E. destruct (Z.even q) eqn:Ev.
    + repeat split; try lia. intros _. exact Ev.
    + repeat split; try lia. intros _.
      rewrite Z.even_add, Ev. reflexivity.
  - rewrite Z.compare_lt_iff in E. repeat split; lia.
  - rewrite Z.compare_gt_iff in E. repeat split; lia.
Qed.

Lemma den_of_pos : forall e, 0 < den_of e.
Proof. intros e. unfold den_of. apply Z.pow_pos_nonneg; lia. Qed.

Lemma num_of_nonneg : forall m e, 0 <= num_of m e.
Proof.
  intros m e. unfold num_of.
  apply Z.mul_nonneg_nonneg; [lia|]. apply Z.pow_nonneg. lia.
Qed.

Lemma round_finite : forall s m e,
  exists n,
    F64.round (S754_finite s m e) = Some (cond_Zopp s n)
    /\ nearest_even (num_of m e) (den_of e) n.
Proof.
  intros s m e. exists (F64.round_scaled 1 m e). split; [reflexivity|].
  unfold F64.round_scaled. rewrite Z.mul_1_r.
  apply (round_half_even_nearest (num_of_nonneg m e) (den_of_pos e)).
Qed.

Lemma format_0d_nonneg : forall w z,
  0 <= z -> Py.format_0d w z = Py.zfill w (Py.str_of_N (Z.to_N z)).
Proof.
  intros w z H. unfold Py.format_0d.
  destruct (Z.ltb_spec z 0); [lia|].
  now rewrite Zabs2N.abs_N_nonneg.
Qed.

Lemma str_of_int_nonneg : forall z,
  0 <= z -> Py.str_of_int z = Py.str_of_N (Z.to_N z).
Proof.
  intros z H. unfold Py.str_of_int.
  destruct (Z.ltb_spec z 0); [lia|].
  now rewrite Zabs2N.abs_N_nonneg.
Qed.

(** A field of fixed width: two digits below 100, three below 1000. *)
Lemma field_two : forall z,
  0 <= z < 100 ->
  length (Py.format_0d 2 z) = 2%nat
  /\ ascii_digits (Py.format_0d 2 z)
  /\ Z.of_N (decimal_value (Py.format_0d 2 z)) = z.
Proof.
  intros z H. rewrite format_0d_nonneg by lia. repeat split.
  - rewrite zfill_length.
    pose proof (@str_of_N_length_le (Z.to_N z) 1 ltac:(change (10 ^ N.of_nat 2)%N with 100%N; lia)).
    pose proof (str_of_N_nonempty (Z.to_N z)). lia.
  - apply zfill_ascii, str_of_N_ascii.
  - rewrite zfill_value, str_of_N_value. lia.
Qed.

Lemma field_three : forall z,
  0 <= z < 1000 ->
  length (Py.format_0d 3 z) = 3%nat
  /\ ascii_digits (Py.format_0d 3 z)
  /\ Z.of_N (decimal_value (Py.format_0d 3 z)) = z.
Proof.
  intros z H. rewrite format_0d_nonneg by lia. repeat split.
  - rewrite zfill_length.
    pose proof (@str_of_N_length_le (Z.to_N z) 2 ltac:(change (10 ^ N.of_nat 3)%N with 1000%N; lia)).
    pose proof (str_of_N_nonempty (Z.to_N z)). lia.
  - apply zfill_ascii, str_of_N_ascii.
  - rewrite zfill_value, str_of_N_value. lia.
Qed.

(** The hours field: at least two digits, and every digit of the
    number of hours from 100 hours on. *)
Lemma field_hours : forall z,
  0 <= z ->
  (2 <= length (Py.format_0d 2 z))%nat
  /\ ascii_digits (Py.format_0d 2 z)
  /\ Z.of_N (decimal_value (Py.format_0d 2 z)) = z
  /\ (100 <= z ->
      Py.format_0d 2 z = Py.str_of_int z
      /\ (3 <= length (Py.format_0d 2 z))%nat).
Proof.
  intros z H. rewrite format_0d_nonneg by lia. repeat split.
  - rewrite zfill_length. lia.
  - apply zfill_ascii, str_of_N_ascii.
  - rewrite zfill_value, str_of_N_value. lia.
  - rewrite str_of_int_nonneg by lia. apply zfill_long.
    pose proof (@str_of_N_length_gt (Z.to_N z) 2 ltac:(change (10 ^ N.of_nat 2)%N with 100%N; lia)).
    lia.
  - rewrite zfill_length.
    pose proof (@str_of_N_length_gt (Z.to_N z) 2 ltac:(change (10 ^ N.of_nat 2)%N with 100%N; lia)).
    lia.
Qed.

Lemma format_time_fields : forall x millis,
  F64.round (F64.mul x (F64.of_Z 1000)) = Some millis ->
  0 <= millis ->
  exists hh mm ss ms,
    Asr.format_time x
      = Some (hh ++ lit ":" ++ mm ++ lit ":" ++ ss ++ lit "," ++ ms)
    /\ (ascii_digits hh /\ ascii_digits mm /\ ascii_digits ss
        /\ ascii_digits ms)
    /\ ((2 <= length hh)%nat /\ length mm = 2%nat /\ length ss = 2%nat
        /\ length ms = 3%nat)
    /\ (Z.of_N (decimal_value hh) = millis / 3600000
        /\ Z.of_N (decimal_value mm) = (millis / 60000) mod 60
        /\ Z.of_N (decimal_value ss) = (millis / 1000) mod 60
        /\ Z.of_N (decimal_value ms) = millis mod 1000)
    /\ (360000000 <= millis ->
        hh = Py.str_of_int (millis / 3600000) /\ (3 <= length hh)%nat).
Proof.
  intros x millis Hr Hm. unfold Asr.format_time. rewrite Hr.
  assert (Hh : 0 <= millis / 3600000) by (apply Z.div_pos; lia).
  assert (Hmin : 0 <= millis mod 3600000 / 60000 < 100).
  { pose proof (Z.mod_pos_bound millis 3600000 ltac:(lia)).
    split; [apply Z.div_pos; lia|].
    apply Z.div_lt_upper_bound; lia. }
  assert (Hsec : 0 <= millis mod 60000 / 1000 < 100).
  { pose proof (Z.mod_pos_bound millis 60000 ltac:(lia)).
    split; [apply Z.div_pos; lia|].
    apply Z.div_lt_upper_bound; lia. }
  assert (Hms : 0 <= millis mod 1000 < 1000)
    by (apply Z.mod_pos_bound; lia).
  destruct (field_hours Hh) as (Lh & Ah & Vh & Bh).
  destruct (field_two Hmin) as (Lm & Am & Vm).
  destruct (field_two Hsec) as (Ls & As & Vs).
  destruct (field_three Hms) as (Lms & Ams & Vms).
  do 4 eexists. split; [reflexivity|].
  repeat split; try assumption.
  - rewrite Vm. clear. Z.to_euclidean_division_equations. lia.
  - rewrite Vs. clear. Z.to_euclidean_division_equations. lia.
  - apply Bh. clear - H. Z.to_euclidean_division_equations. lia.
  - apply Bh. clear - H. Z.to_euclidean_division_equations. lia.
Qed.

Close Scope Z_scope.

End Codec.

(** ** The scaling to milliseconds *)

Section Scaling.

Import Notions.
Open Scope Z_scope.

Lemma shr_1_m : forall mrs,
  0 <= shr_m mrs -> shr_m (shr_1 mrs) = shr_m mrs / 2.
Proof.
  intros [m r s] H. cbn [shr_m] in *. rewrite <- Z.div2_div.
  destruct m as [|p|p]; [reflexivity| |lia].
  destruct p; reflexivity.
Qed.

Lemma pow2_xO : forall p, 2 ^ Z.pos p~0 = 2 ^ Z.pos p * 2 ^ Z.pos p.
Proof.
  intros p. rewrite (Pos2Z.inj_xO p). apply Z.pow_twice_r.
Qed.

Lemma pow2_xI : forall p, 2 ^ Z.pos p~1 = 2 * (2 ^ Z.pos p * 2 ^ Z.pos p).
Proof.
  intros p. rewrite (Pos2Z.inj_xI p).
  rewrite Z.add_1_r, Z.pow_succ_r by lia. f_equal. apply Z.pow_twice_r.
Qed.

Lemma iter_shr_m : forall p mrs,
  0 <= shr_m mrs ->
  shr_m (iter_pos shr_1 p mrs) = shr_m mrs / 2 ^ Z.pos p.
Proof.
  assert (Hnn : forall a b, 0 <= a -> 0 < b -> 0 <= a / b)
    by (intros; apply Z.div_pos; lia).
  assert (Hpp : forall p, 0 < 2 ^ Z.pos p)
    by (intros; apply Z.pow_pos_nonneg; lia).
  induction p as [p IH|p IH|]; intros mrs H; cbn [iter_pos].
  - assert (H1 : 0 <= shr_m (shr_1 mrs))
      by (rewrite shr_1_m by assumption; apply Hnn; lia).
    assert (H2 : 0 <= shr_m (iter_pos shr_1 p (shr_1 mrs)))
      by (rewrite IH by assumption; now apply Hnn).
    pose proof (Hpp p).
    rewrite IH, IH, shr_1_m by assumption.
    rewrite !Z.div_div by lia. now rewrite pow2_xI.
  - assert (H2 : 0 <= shr_m (iter_pos shr_1 p mrs))
      by (rewrite IH by assumption; now apply Hnn).
    pose proof (Hpp p).
    rewrite IH, IH by assumption.
    rewrite Z.div_div by lia. now rewrite pow2_xO.
  - now apply shr_1_m.
Qed.

Lemma digits2_bounds : forall m,
  2 ^ (Z.pos (digits2_pos m) - 1) <= Z.pos m < 2 ^ Z.pos (digits2_pos m).
Proof.
  assert (Hs : forall d, 0 < d ->
            2 ^ (Z.succ d - 1) = 2 * 2 ^ (d - 1)
            /\ 2 ^ Z.succ d = 2 * 2 ^ d).
  { intros d Hd. split.
    - replace (Z.succ d - 1) with (Z.succ (d - 1)) by lia.
      apply Z.pow_succ_r. lia.
    - apply Z.pow_succ_r. lia. }
  induction m as [m IH|m IH|]; cbn [digits2_pos].
  - rewrite Pos2Z.inj_succ, (Pos2Z.inj_xI m).
    destruct (Hs (Z.pos (digits2_pos m)) ltac:(lia)) as [-> ->]. lia.
  - rewrite Pos2Z.inj_succ, (Pos2Z.inj_xO m).
    destruct (Hs (Z.pos (digits2_pos m)) ltac:(lia)) as [-> ->]. lia.
  - simpl. lia.
Qed.

(** What [shr_fexp] does to a positive mantissa: a shift to the right
    by [n] places, [n] being what brings the exponent to the one of
    the format. *)
Lemma shr_fexp_spec : forall m e l,
  0 < m ->
  exists n,
    0 <= n
    /\ snd (shr_fexp F64.prec F64.emax m e l) = e + n
    /\ shr_m (fst (shr_fexp F64.prec F64.emax m e l)) = m / 2 ^ n
    /\ (0 < n -> e + n = Z.max (Zdigits2 m + e - 53) (-1074)).
Proof.
  intros m e l Hm. unfold shr_fexp, shr.
  assert (Hrec : shr_m (shr_record_of_loc m l) = m)
    by (destruct l as [|[| |]]; reflexivity).
  destruct (fexp F64.prec F64.emax (Zdigits2 m + e) - e) as [|p|p] eqn:En.
  - exists 0. cbn [fst snd]. rewrite Hrec, Z.div_1_r. repeat split; lia.
  - exists (Z.pos p). cbn [fst snd].
    rewrite iter_shr_m by (rewrite Hrec; lia). rewrite Hrec.
    repeat split; try lia. intros _. unfold fexp, emin in En.
    unfold F64.prec, F64.emax in En. lia.
  - exists 0. cbn [fst snd]. rewrite Hrec, Z.div_1_r. repeat split; lia.
Qed.


Lemma at_least_shift : forall K m e l,
  0 < K <= 2 ^ 52 -> 0 < m -> at_least K m e ->
  at_least K (shr_m (fst (shr_fexp F64.prec F64.emax m e l)))
    (snd (shr_fexp F64.prec F64.emax m e l)).
Proof.
  intros K m e l HK Hm H. unfold at_least in *.
  destruct (shr_fexp_spec e l Hm) as (n & Hn & -> & -> & Hmax).
  destruct (Z.eq_dec n 0) as [->|Hn0].
  - now rewrite Z.add_0_r, Z.div_1_r.
  - specialize (Hmax ltac:(lia)).
    assert (Hpn : 0 < 2 ^ n) by (apply Z.pow_pos_nonneg; lia).
    destruct (Z_le_gt_dec (e + n) 0) as [Hle|Hgt].
    + rewrite (Z.max_l (- (e + n)) 0), (Z.max_r (e + n) 0) by lia.
      rewrite (Z.max_l (- e) 0), (Z.max_r e 0) in H by lia.
      rewrite Z.pow_0_r, Z.mul_1_r in *.
      apply Z.div_le_lower_bound; [assumption|].
      replace (- e) with (n + - (e + n)) in H by lia.
      rewrite Z.pow_add_r in H by lia. lia.
    + rewrite (Z.max_r (- (e + n)) 0), (Z.max_l (e + n) 0) by lia.
      rewrite Z.pow_0_r, Z.mul_1_r.
      destruct m as [|p|p]; try lia. cbn [Zdigits2] in Hmax.
      pose proof (digits2_bounds p) as [Hd _].
      assert (Hn' : Z.pos (digits2_pos p) - 1 = n + 52) by lia.
      rewrite Hn', Z.pow_add_r in Hd by lia.
      assert (H52 : 2 ^ 52 <= Z.pos p / 2 ^ n)
        by (apply Z.div_le_lower_bound; lia).
      assert (Hpe : 1 <= 2 ^ (e + n))
        by (pose proof (Z.pow_pos_nonneg 2 (e + n)); lia).
      nia.
Qed.


Lemma round_nearest_even_ge : forall m l, m <= round_nearest_even m l.
Proof.
  intros m l. unfold round_nearest_even.
  destruct l as [|[| |]]; try destruct (Z.even m); lia.
Qed.

Lemma at_least_mono : forall K m m' e,
  at_least K m e -> m <= m' -> at_least K m' e.
Proof.
  intros K m m' e H Hm. unfold at_least in *.
  assert (0 <= 2 ^ Z.max e 0) by (apply Z.pow_nonneg; lia). nia.
Qed.

Lemma at_least_positive : forall K m e, 0 < K -> at_least K m e -> 0 < m.
Proof.
  intros K m e HK H. unfold at_least in H.
  assert (0 < 2 ^ Z.max (- e) 0) by (apply Z.pow_pos_nonneg; lia).
  assert (0 < 2 ^ Z.max e 0) by (apply Z.pow_pos_nonneg; lia).
  nia.
Qed.

Lemma round_scaled_at_least : forall K m e,
  at_least K (Z.pos m) e -> K <= F64.round_scaled 1 m e.
Proof.
  intros K m e H. unfold at_least in H.
  unfold F64.round_scaled, F64.round_half_even. rewrite Z.mul_1_r.
  assert (Hd : 0 < 2 ^ Z.max (- e) 0) by (apply Z.pow_pos_nonneg; lia).
  assert (Hq : K <= Z.pos m * 2 ^ Z.max e 0 / 2 ^ Z.max (- e) 0)
    by (apply Z.div_le_lower_bound; lia).
  destruct (_ ?= _); [destruct (Z.even _)| |]; lia.
Qed.

(** The double product of a value at least [K] rounds to an integer
    at least [K]. *)
Lemma round_aux_at_least : forall K P e millis,
  0 < K <= 2 ^ 52 -> 0 < P -> at_least K P e ->
  F64.round (binary_round_aux F64.prec F64.emax false P e loc_Exact)
    = Some millis ->
  K <= millis.
Proof.
  intros K P e millis HK HP H Hr. unfold binary_round_aux in Hr.
  pose proof (at_least_shift loc_Exact HK HP H) as H1.
  destruct (shr_fexp F64.prec F64.emax P e loc_Exact) as [mrs1 e1].
  cbn [fst snd] in H1.
  pose proof (at_least_mono H1
                (round_nearest_even_ge (shr_m mrs1)
                   (loc_of_shr_record mrs1))) as H2.
  pose proof (at_least_shift loc_Exact HK
                (at_least_positive (proj1 HK) H2) H2) as H3.
  destruct (shr_fexp F64.prec F64.emax
              (round_nearest_even (shr_m mrs1) (loc_of_shr_record mrs1))
              e1 loc_Exact) as [mrs2 e2].
  cbn [fst snd] in H3.
  pose proof (at_least_positive (proj1 HK) H3) as Hpos.
  destruct (shr_m mrs2) as [|m|m]; try lia.
  destruct (e2 <=? F64.emax - F64.prec); [|discriminate].
  cbn [F64.round cond_Zopp] in Hr. injection Hr as <-.
  now apply round_scaled_at_least.
Qed.


Lemma thousand_value :
  F64.of_Z 1000 = S754_finite false 8796093022208000 (-43).
Proof. vm_compute. reflexivity. Qed.

Lemma hundred_hours_value :
  F64.of_Z 360000 = S754_finite false 6184752906240000 (-34).
Proof. vm_compute. reflexivity. Qed.

Lemma valid_normal : forall s m e,
  valid_binary F64.prec F64.emax (S754_finite s m e) = true ->
  -1074 < e -> 2 ^ 52 <= Z.pos m.
Proof.
  intros s m e H He. cbn [valid_binary] in H. unfold bounded in H.
  apply andb_prop in H as [H _]. unfold canonical_mantissa in H.
  apply Z.eqb_eq in H. unfold fexp, emin, F64.prec, F64.emax in H.
  pose proof (digits2_bounds m) as [Hd _].
  replace (Z.pos (digits2_pos m) - 1) with 52 in Hd by lia. exact Hd.
Qed.

Lemma seconds_at_least : forall x,
  valid_binary F64.prec F64.emax x = true ->
  SFleb (F64.of_Z 360000) x = true ->
  x = S754_infinity false
  \/ exists mx ex,
       x = S754_finite false mx ex
       /\ at_least 360000000 (Z.pos (mx * 8796093022208000)) (ex + -43).
Proof.
  intros x Hv Hle. rewrite hundred_hours_value in Hle.
  destruct x as [s|s| |s mx ex]; try discriminate.
  - destruct s; [discriminate|]. now left.
  - right. destruct s; [discriminate|]. exists mx, ex. split; [reflexivity|].
    unfold SFleb in Hle. cbn [SFcompare] in Hle.
    unfold at_least. rewrite Pos2Z.inj_mul.
    destruct (Z.compare_spec (-34) ex) as [<-|Hlt|Hgt]; [| |discriminate].
    + rewrite Pos.compare_cont_spec in Hle. cbn [Pos.switch_Eq] in Hle.
      assert (Hm : (6184752906240000 <= mx)%positive).
      { apply Pos.compare_le_iff. intros E. now rewrite E in Hle. }
      change (2 ^ Z.max (- (-34 + -43)) 0) with 151115727451828646838272.
      change (2 ^ Z.max (-34 + -43) 0) with 1. lia.
    + pose proof (@valid_normal false mx ex Hv ltac:(lia)) as Hn.
      change (2 ^ 52) with 4503599627370496 in Hn.
      destruct (Z_le_gt_dec (ex + -43) 0) as [Hneg|Hpos].
      * rewrite (Z.max_l (- (ex + -43)) 0), (Z.max_r (ex + -43) 0) by lia.
        rewrite Z.pow_0_r.
        assert (Hp : 2 ^ (- (ex + -43)) <= 2 ^ 76)
          by (apply Z.pow_le_mono_r; lia).
        change (2 ^ 76) with 75557863725914323419136 in Hp.
        assert (0 < 2 ^ (- (ex + -43))) by (apply Z.pow_pos_nonneg; lia).
        nia.
      * rewrite (Z.max_r (- (ex + -43)) 0), (Z.max_l (ex + -43) 0) by lia.
        rewrite Z.pow_0_r.
        assert (1 <= 2 ^ (ex + -43))
          by (pose proof (Z.pow_pos_nonneg 2 (ex + -43)); lia).
        nia.
Qed.

(** From 100 hours on the count of milliseconds is at least
    360000000. *)
Lemma hundred_hours : forall x millis,
  valid_binary F64.prec F64.emax x = true ->
  SFleb (F64.of_Z 360000) x = true ->
  F64.round (F64.mul x (F64.of_Z 1000)) = Some millis ->
  360000000 <= millis.
Proof.
  intros x millis Hv Hle Hr. rewrite thousand_value in Hr.
  destruct (seconds_at_least x Hv Hle) as [->|(mx & ex & -> & H)].
  - discriminate.
  - unfold F64.mul, SFmul in Hr. cbn [xorb] in Hr.
    apply (round_aux_at_least (K := 360000000)
             (P := Z.pos (mx * 8796093022208000)) (e := ex + -43));
      try assumption; lia.
Qed.


Lemma round_aux_nonneg : forall P e l millis,
  F64.round (binary_round_aux F64.prec F64.emax false P e l) = Some millis ->
  0 <= millis.
Proof.
  intros P e l millis Hr. unfold binary_round_aux in Hr.
  destruct (shr_fexp F64.prec F64.emax P e l) as [mrs1 e1].
  destruct (shr_fexp F64.prec F64.emax _ e1 loc_Exact) as [mrs2 e2].
  destruct (shr_m mrs2) as [|m|m]; [| |discriminate].
  - injection Hr as <-. lia.
  - destruct (e2 <=? F64.emax - F64.prec); [|discriminate].
    cbn [F64.round cond_Zopp] in Hr. injection Hr as <-.
    unfold F64.round_scaled. rewrite Z.mul_1_r.
    apply (round_half_even_nearest (num_of_nonneg m e2) (den_of_pos e2)).
Qed.

(** Seconds that are not negative give a count of milliseconds that
    is not negative. *)
Lemma millis_nonneg : forall x millis,
  SFleb (F64.of_Z 0) x = true ->
  F64.round (F64.mul x (F64.of_Z 1000)) = Some millis ->
  0 <= millis.
Proof.
  intros x millis Hle Hr. rewrite thousand_value in Hr.
  change (F64.of_Z 0) with (S754_zero false) in Hle.
  destruct x as [s|s| |s mx ex]; try discriminate.
  - cbn in Hr. injection Hr as <-. lia.
  - destruct s; [discriminate|].
    unfold F64.mul, SFmul in Hr. cbn [xorb] in Hr.
    now apply round_aux_nonneg in Hr.
Qed.

End Scaling.

(** C4 as stated fails: [round] of Python rounds a tie to the even
    integer, not upwards.  The double nearest to 3661.2005, times
    1000, is exactly 3661200.5, which rounds to 3661200: the
    timestamp is [01:01:01,200], not [01:01:01,201].  In the same way
    0.0025 s is 2.5 ms and gives 2 ms where rounding half-up gives 3. *)
Lemma half_up_counterexample :
  Asr.format_time (F64.of_ratio 36612005 10000) = Some (lit "01:01:01,200")
  /\ Asr.format_time (F64.of_ratio 36612005 10000) <> Some (lit "01:01:01,201")
  /\ F64.mul (F64.of_ratio 25 10000) (F64.of_Z 1000)
     = S754_finite false 5629499534213120 (-51)
  /\ F64.round (S754_finite false 5629499534213120 (-51)) = Some 2%Z
  /\ Notions.round_half_up (Notions.num_of 5629499534213120 (-51))
       (Notions.den_of (-51)) = 3%Z.
Proof.
  repeat split; try (vm_compute; reflexivity).
  vm_compute. discriminate.
Qed.

(** C4, amended.  [format_time] multiplies the seconds by 1000 in
    double precision and rounds the product to the nearest integer,
    a tie going to the even integer.  For seconds that are not
    negative it writes hours, minutes, seconds and milliseconds as
    decimal digits, the hours on at least two digits, minutes and
    seconds on two and milliseconds on three, separated by [:], [:]
    and [,]; the hours are not reduced modulo 24 and from 100 hours
    on ([x >= 3600*100]) the field holds all the digits of the number
    of hours, three at least.  In particular [format_time(0)] is
    [00:00:00,000], [format_time(3661.2005)] is [01:01:01,200] and
    [format_time(360000)] is [100:00:00,000]. *)
Theorem timestamp_codec :
  Asr.format_time (F64.of_Z 0) = Some (lit "00:00:00,000")
  /\ Asr.format_time (F64.of_ratio 36612005 10000) = Some (lit "01:01:01,200")
  /\ Asr.format_time (F64.of_Z 360000) = Some (lit "100:00:00,000")
  /\ (forall s m e, exists n,
        F64.round (S754_finite s m e) = Some (cond_Zopp s n)
        /\ Notions.nearest_even (Notions.num_of m e) (Notions.den_of e) n)
  /\ (forall x millis,
        F64.round (F64.mul x (F64.of_Z 1000)) = Some millis ->
        SFleb (F64.of_Z 0) x = true ->
        exists hh mm ss ms,
          Asr.format_time x
            = Some (hh ++ lit ":" ++ mm ++ lit ":" ++ ss ++ lit "," ++ ms)
          /\ (Notions.ascii_digits hh /\ Notions.ascii_digits mm
              /\ Notions.ascii_digits ss /\ Notions.ascii_digits ms)
          /\ (2 <= length hh /\ length mm = 2 /\ length ss = 2
              /\ length ms = 3)
          /\ (Z.of_N (Notions.decimal_value hh) = millis / 3600000
              /\ Z.of_N (Notions.decimal_value mm) = (millis / 60000) mod 60
              /\ Z.of_N (Notions.decimal_value ss) = (millis / 1000) mod 60
              /\ Z.of_N (Notions.decimal_value ms) = millis mod 1000)%Z
          /\ (valid_binary F64.prec F64.emax x = true ->
              SFleb (F64.of_Z 360000) x = true ->
              hh = Py.str_of_int (millis / 3600000) /\ 3 <= length hh)).
Proof.
  split; [vm_compute; reflexivity|].
  split; [vm_compute; reflexivity|].
  split; [vm_compute; reflexivity|].
  split; [apply round_finite|].
  intros x millis Hr Hx.
  destruct (format_time_fields x Hr (millis_nonneg x Hx Hr))
    as (hh & mm & ss & ms & Hf & Hd & Hl & Hv & Hh).
  exists hh, mm, ss, ms. repeat split; try tauto.
  - apply Hh. now apply (hundred_hours x).
  - apply Hh. now apply (hundred_hours x).
Qed.

Lemma timestamp_codec_witness :
  exists hh mm ss ms,
    Asr.format_time (F64.of_ratio 4455069 10)
      = Some (hh ++ lit ":" ++ mm ++ lit ":" ++ ss ++ lit "," ++ ms)
    /\ (Notions.ascii_digits hh /\ Notions.ascii_digits mm
        /\ Notions.ascii_digits ss /\ Notions.ascii_digits ms)
    /\ (2 <= length hh /\ length mm = 2 /\ length ss = 2 /\ length ms = 3)
    /\ (Z.of_N (Notions.decimal_value hh) = 445506900 / 3600000
        /\ Z.of_N (Notions.decimal_value mm) = (445506900 / 60000) mod 60
        /\ Z.of_N (Notions.decimal_value ss) = (445506900 / 1000) mod 60
        /\ Z.of_N (Notions.decimal_value ms) = 445506900 mod 1000)%Z
    /\ hh = Py.str_of_int (445506900 / 3600000) /\ 3 <= length hh.
Proof.
  assert (Hr : F64.round (F64.mul (F64.of_ratio 4455069 10) (F64.of_Z 1000))
               = Some 445506900%Z) by (vm_compute; reflexivity).
  assert (Hx : SFleb (F64.of_Z 0) (F64.of_ratio 4455069 10) = true)
    by (vm_compute; reflexivity).
  assert (Hv : valid_binary F64.prec F64.emax (F64.of_ratio 4455069 10) = true)
    by (vm_compute; reflexivity).
  assert (Hh : SFleb (F64.of_Z 360000) (F64.of_ratio 4455069 10) = true)
    by (vm_compute; reflexivity).
  destruct (proj2 (proj2 (proj2 (proj2 timestamp_codec)))
              (F64.of_ratio 4455069 10) 445506900%Z Hr Hx)
    as (hh & mm & ss & ms & Hf & Hd & Hl & Hval & Hhh).
  exists hh, mm, ss, ms.
  split; [exact Hf|]. split; [exact Hd|]. split; [exact Hl|].
  split; [exact Hval|]. exact (Hhh Hv Hh).
Defined.

(** ** Splitting a file made of tight blocks *)

Section Unweave.

Import Notions.
Import Translate.

Lemma blank_tail_app : forall b t,
  b <> [] -> head_ok (rev b) = true ->
  blank_tail (b ++ t) = blank_tail b.
Proof.
  induction b as [|c b IH]; intros t Hne Hend; [now elim Hne|].
  simpl. destruct (Py.isspace c) eqn:Ec; [|reflexivity].
  destruct b as [|c' b].
  - simpl in Hend. now rewrite Ec in Hend.
  - rewrite IH; [reflexivity|discriminate|].
    now apply head_ok_rev_tail in Hend.
Qed.

Lemma blank_sep_app : forall b t,
  b <> [] -> head_ok (rev b) = true ->
  blank_sep (b ++ t) = blank_sep b.
Proof.
  intros [|c b] t Hne Hend; [now elim Hne|]. simpl.
  destruct (Ascii.eqb_spec c Py.LF) as [->|]; [|reflexivity].
  destruct b as [|c' b].
  - discriminate Hend.
  - rewrite blank_tail_app; [reflexivity|discriminate|].
    now apply head_ok_rev_tail in Hend.
Qed.

Lemma re_split_aux_block : forall b cur t,
  sep_free b = true -> head_ok (rev b) = true ->
  Py.re_split_aux blank_sep 0 cur (b ++ t)
  = Py.re_split_aux blank_sep 0 (rev b ++ cur) t.
Proof.
  induction b as [|c b IH]; intros cur t Hfree Hend; [reflexivity|].
  cbn [sep_free] in Hfree.
  destruct (blank_sep (c :: b)) eqn:Em; [discriminate|].
  change ((c :: b) ++ t) with (c :: (b ++ t)). cbn [Py.re_split_aux].
  change (c :: (b ++ t)) with ((c :: b) ++ t).
  rewrite blank_sep_app, Em by (assumption || discriminate).
  rewrite IH by (assumption || now apply head_ok_rev_tail in Hend).
  simpl rev. now rewrite <- app_assoc.
Qed.

Lemma blank_tail_boundary : forall w x r,
  blank w = true -> Py.isspace x = false ->
  blank_tail (w ++ Py.LF :: x :: r) = Some (S (length w)).
Proof.
  induction w as [|c w IH]; intros x r Hw Hx.
  - simpl. now rewrite Hx.
  - simpl in Hw. apply andb_prop in Hw as [Hc Hw].
    change ((c :: w) ++ Py.LF :: x :: r) with (c :: (w ++ Py.LF :: x :: r)).
    cbn [blank_tail]. rewrite Hc, IH by assumption. reflexivity.
Qed.

Lemma skipn_app_exact : forall (a b : str), skipn (length a) (a ++ b) = b.
Proof. induction a as [|c a IH]; intros b; [reflexivity|apply IH]. Qed.

Lemma re_split_aux_boundary : forall p x r cur,
  boundary p -> Py.isspace x = false ->
  Py.re_split_aux blank_sep 0 cur (p ++ x :: r)
  = rev cur :: Py.re_split_aux blank_sep 0 [] (x :: r).
Proof.
  intros p x r cur (w & -> & Hw) Hx.
  remember (Py.re_split_aux blank_sep 0 [] (x :: r)) as R eqn:ER.
  change ((Py.LF :: w ++ [Py.LF]) ++ x :: r)
    with (Py.LF :: ((w ++ [Py.LF]) ++ x :: r)).
  assert (E : (w ++ [Py.LF]) ++ x :: r = w ++ Py.LF :: x :: r)
    by now rewrite <- app_assoc.
  cbn [Py.re_split_aux blank_sep]. rewrite Ascii.eqb_refl, E.
  rewrite blank_tail_boundary by assumption. cbn [option_map].
  f_equal. rewrite re_split_aux_skip.
  - replace (S (length w)) with (length (w ++ [Py.LF]))
      by (rewrite length_app; simpl; lia).
    rewrite <- E, skipn_app_exact. now subst R.
  - rewrite length_app. simpl. lia.
Qed.

Lemma weave_head : forall b bs ps,
  b <> [] -> exists x r, weave (b :: bs) ps = x :: r /\ hd x b = x
    /\ head_ok (weave (b :: bs) ps) = head_ok b.
Proof.
  intros [|x b] bs ps Hne; [now elim Hne|].
  destruct ps as [|p ps]; simpl; eauto.
Qed.

Lemma re_split_unweave : forall bs ps cur,
  Forall tight bs -> Forall boundary ps ->
  S (length ps) = length bs ->
  Py.re_split_aux blank_sep 0 cur (weave bs ps)
  = match bs with
    | b :: bs' => (rev cur ++ b) :: bs'
    | [] => []
    end.
Proof.
  induction bs as [|b bs IH]; intros ps cur Hbs Hps Hlen;
    [simpl in Hlen; lia|].
  inversion Hbs as [|? ? (Hne & Htr & Hfree) Hbs']; subst.
  apply andb_prop in Htr as [Hh Hend].
  destruct ps as [|p ps].
  - destruct bs; [|simpl in Hlen; lia]. simpl weave.
    rewrite <- (app_nil_r b) at 1. rewrite re_split_aux_block by assumption.
    simpl. now rewrite rev_app_distr, rev_involutive.
  - destruct bs as [|b' bs]; [simpl in Hlen; lia|].
    inversion Hps as [|? ? Hp Hps']; subst.
    change (weave (b :: b' :: bs) (p :: ps))
      with (b ++ p ++ weave (b' :: bs) ps).
    rewrite re_split_aux_block by assumption.
    inversion Hbs' as [|? ? (Hne' & Htr' & _) _]; subst.
    apply andb_prop in Htr' as [Hh' _].
    destruct (@weave_head b' bs ps Hne') as (x & r & Hw & _ & Hhw).
    rewrite Hw in Hhw. simpl in Hhw. rewrite Hh' in Hhw.
    apply negb_true_iff in Hhw. unfold str in *. rewrite Hw.
    rewrite re_split_aux_boundary by assumption.
    rewrite rev_app_distr, rev_involutive. f_equal.
    rewrite <- Hw. rewrite IH; [reflexivity|assumption|assumption|].
    simpl in *. lia.
Qed.

End Unweave.

(** ** A written file read back *)

Section ReadBack.

Import Notions.
Import Translate.

Lemma ascii_digit_class : forall c,
  (48 <= N_of_ascii c <= 57)%N ->
  Py.isspace c = false /\ Py.isdigit_char c = true.
Proof.
  intros c H. unfold Py.isspace, Py.isdigit_char. cbv zeta.
  generalize dependent (N_of_ascii c). intros n H. split.
  - repeat rewrite ?orb_false_iff, ?andb_false_iff, ?N.leb_gt, ?N.eqb_neq.
    lia.
  - repeat rewrite ?orb_true_iff, ?andb_true_iff, ?N.leb_le, ?N.eqb_eq.
    lia.
Qed.

Lemma visible_not_in : forall c s,
  Py.isspace c = true -> Forall (fun x => Py.isspace x = false) s -> ~ In c s.
Proof.
  intros c s Hc Hs Hin. rewrite Forall_forall in Hs.
  specialize (Hs c Hin). congruence.
Qed.

Lemma digits_visible : forall s,
  ascii_digits s -> Forall (fun x => Py.isspace x = false) s.
Proof.
  intros s H. eapply Forall_impl; [|exact H].
  intros c Hc. now apply ascii_digit_class.
Qed.

Lemma digits_isdigit : forall s,
  ascii_digits s -> s <> [] -> Py.isdigit s = true.
Proof.
  intros [|c s] H Hne; [now elim Hne|]. unfold Py.isdigit.
  apply forallb_forall. intros x Hx. unfold ascii_digits in H.
  rewrite Forall_forall in H. now apply ascii_digit_class, H.
Qed.

Lemma visible_trimmed : forall s,
  Forall (fun x => Py.isspace x = false) s -> trimmed s = true.
Proof.
  intros s H. unfold trimmed.
  assert (Hh : forall l, Forall (fun x => Py.isspace x = false) l ->
                         head_ok l = true).
  { intros [|c l] Hl; [reflexivity|]. inversion Hl; subst. simpl.
    now apply negb_true_iff. }
  rewrite (Hh s H), (Hh (rev s)); [reflexivity|]. now apply Forall_rev.
Qed.

(** The index line written for a counter from 1 on. *)
Lemma index_line : forall i,
  (1 <= i)%Z ->
  Py.str_of_int i <> []
  /\ Forall (fun x => Py.isspace x = false) (Py.str_of_int i)
  /\ Py.isdigit (Py.strip (Py.str_of_int i)) = true.
Proof.
  intros i H. rewrite str_of_int_nonneg by lia.
  pose proof (str_of_N_nonempty (Z.to_N i)) as Hn.
  pose proof (str_of_N_ascii (Z.to_N i)) as Ha.
  assert (Hne : Py.str_of_N (Z.to_N i) <> [])
    by (intros E; rewrite E in Hn; simpl in Hn; lia).
  repeat split.
  - assumption.
  - now apply digits_visible.
  - rewrite strip_id by now apply visible_trimmed, digits_visible.
    now apply digits_isdigit.
Qed.

Lemma sep_free_no_newline : forall a b,
  no_newline a -> sep_free (a ++ b) = sep_free b.
Proof.
  induction a as [|c a IH]; intros b H; [reflexivity|].
  change ((c :: a) ++ b) with (c :: (a ++ b)). cbn [sep_free blank_sep].
  destruct (Ascii.eqb_spec c Py.LF) as [->|Hne].
  - exfalso. apply H. now left.
  - apply IH. intros Hin. apply H. now right.
Qed.

Lemma sep_free_line_end : forall x r,
  Py.isspace x = false -> sep_free (Py.LF :: x :: r) = sep_free (x :: r).
Proof.
  intros x r H. cbn [sep_free blank_sep blank_tail].
  rewrite Ascii.eqb_refl, H. reflexivity.
Qed.

Lemma head_ok_rev_app : forall a b,
  b <> [] -> head_ok (rev (a ++ b)) = head_ok (rev b).
Proof.
  intros a b H. rewrite rev_app_distr.
  destruct (rev b) as [|c l] eqn:E; [|reflexivity].
  apply (f_equal (@rev ascii)) in E. rewrite rev_involutive in E.
  now elim H.
Qed.

Lemma head_ok_app : forall a b, a <> [] -> head_ok (a ++ b) = head_ok a.
Proof. intros [|c a] b H; [now elim H|reflexivity]. Qed.

Lemma trimmed_ends : forall s,
  trimmed s = true -> head_ok s = true /\ head_ok (rev s) = true.
Proof. intros s H. now apply andb_prop in H. Qed.

(** The block written for a storable entry is tight. *)
Lemma caption_block_tight : forall idx time_line t,
  idx <> [] -> Forall (fun x => Py.isspace x = false) idx ->
  time_line <> [] -> trimmed time_line = true -> no_newline time_line ->
  trimmed t = true -> sep_free t = true ->
  tight (caption_block idx time_line t).
Proof.
  intros idx time_line t Hi Hv Htl Htr Hnl Ht Hf.
  apply trimmed_ends in Htr as [Hth Hte]. apply trimmed_ends in Ht as [Hh He].
  unfold tight, caption_block. repeat split.
  - destruct idx; [now elim Hi|discriminate].
  - unfold trimmed. apply andb_true_intro. split.
    + rewrite head_ok_app by assumption.
      now apply trimmed_ends, visible_trimmed.
    + destruct t as [|c t].
      * rewrite app_nil_r.
        change (idx ++ Py.LF :: time_line) with (idx ++ [Py.LF] ++ time_line).
        rewrite app_assoc, head_ok_rev_app by assumption. assumption.
      * change (idx ++ Py.LF :: time_line ++ Py.LF :: c :: t)
          with (idx ++ [Py.LF] ++ time_line ++ [Py.LF] ++ (c :: t)).
        rewrite !app_assoc, head_ok_rev_app by discriminate. assumption.
  - rewrite sep_free_no_newline
      by (apply visible_not_in; [reflexivity|assumption]).
    destruct time_line as [|x tl]; [now elim Htl|].
    simpl in Hth. apply negb_true_iff in Hth.
    change ((x :: tl) ++ ?r) with (x :: (tl ++ r)).
    rewrite sep_free_line_end by assumption.
    change (x :: (tl ++ ?r)) with ((x :: tl) ++ r).
    rewrite sep_free_no_newline by assumption.
    destruct t as [|c t]; [reflexivity|].
    simpl in Hh. apply negb_true_iff in Hh.
    now rewrite sep_free_line_end.
Qed.

Lemma caption_sep_boundary : forall t,
  boundary (caption_sep t) /\ blank (caption_sep t) = true.
Proof.
  intros [|c t]; split; try reflexivity.
  - exists [Py.LF]. split; reflexivity.
  - exists []. split; reflexivity.
Qed.

Lemma text_lines_join : forall t,
  trimmed t = true -> Py.strip (Py.join [Py.LF] (text_lines t)) = t.
Proof.
  intros [|c t] H; [reflexivity|].
  unfold text_lines. rewrite join_split. now apply strip_id.
Qed.

Lemma split_caption_block : forall idx time_line t,
  no_newline idx -> no_newline time_line ->
  Py.split Py.LF (caption_block idx time_line t)
  = idx :: time_line :: text_lines t.
Proof.
  intros idx time_line t Hi Ht. unfold caption_block.
  rewrite split_app_sep by assumption. f_equal.
  destruct t as [|c t].
  - rewrite app_nil_r. now apply split_no_sep.
  - now rewrite split_app_sep.
Qed.

Lemma parse_caption_block : forall i time_line t acc,
  (1 <= i)%Z -> no_newline time_line ->
  parse_block (caption_block (Py.str_of_int i) time_line t) acc
  = Some (acc ++ [(time_line, text_lines t)]).
Proof.
  intros i time_line t acc Hi Ht.
  destruct (index_line Hi) as (Hne & Hv & Hd).
  unfold parse_block. rewrite split_caption_block;
    [|apply visible_not_in; [reflexivity|assumption]|assumption].
  cbn [length Nat.ltb Nat.leb nth_error]. rewrite Hd. reflexivity.
Qed.

End ReadBack.

Section WholeFile.

Import Notions.
Import Translate.

Lemma write_emit : forall entries i,
  concat (write_calls i entries) = emit (captions_written i entries).
Proof.
  induction entries as [|[time_line body] rest IH]; intros i; [reflexivity|].
  cbn [write_calls captions_written concat emit]. rewrite IH.
  unfold caption_block, caption_sep.
  destruct (Py.strip (Py.join [Py.LF] body)) as [|c t];
    repeat (rewrite <- ?app_assoc; cbn [app]); reflexivity.
Qed.

Lemma emit_weave : forall L b p,
  emit (L ++ [(b, p)]) = weave (map fst L ++ [b]) (map snd L) ++ p.
Proof.
  induction L as [|[b0 p0] L IH]; intros b p.
  - simpl. now rewrite app_nil_r.
  - cbn [app emit map fst snd]. rewrite IH.
    destruct (map fst L ++ [b]) as [|b1 bs] eqn:E.
    + destruct (map fst L); discriminate.
    + cbn [weave]. now rewrite <- !app_assoc.
Qed.

Lemma weave_trimmed : forall bs ps,
  Forall tight bs -> S (length ps) = length bs ->
  trimmed (weave bs ps) = true /\ weave bs ps <> [].
Proof.
  induction bs as [|b bs IH]; intros ps Hbs Hlen; [simpl in Hlen; lia|].
  inversion Hbs as [|? ? (Hne & Htr & _) Hbs']; subst.
  destruct ps as [|p ps].
  - destruct bs; [|simpl in Hlen; lia]. simpl. now split.
  - destruct bs as [|b' bs]; [simpl in Hlen; lia|].
    destruct (IH ps Hbs') as [Ht Hn]; [simpl in *; lia|].
    change (weave (b :: b' :: bs) (p :: ps))
      with (b ++ p ++ weave (b' :: bs) ps).
    apply trimmed_ends in Htr as [Hh _]. apply trimmed_ends in Ht as [_ He].
    split.
    + unfold trimmed. rewrite head_ok_app by assumption.
      rewrite app_assoc, head_ok_rev_app by assumption.
      now rewrite Hh, He.
    + destruct b; [now elim Hne|discriminate].
Qed.

Lemma remove_char_notin : forall c s, ~ In c s -> Py.remove_char c s = s.
Proof.
  intros c s. induction s as [|x s IH]; intros H; [reflexivity|].
  simpl. destruct (Ascii.eqb_spec x c) as [->|Hne].
  - exfalso. apply H. now left.
  - simpl. f_equal. apply IH. intros Hin. apply H. now right.
Qed.

Lemma storable_text : forall (e : entry),
  storable e ->
  let t := Py.strip (Py.join [Py.LF] (snd e)) in
  snd e = text_lines t /\ trimmed t = true /\ sep_free t = true
  /\ ~ In Py.CR t.
Proof.
  intros e (_ & t & Hs & Ht & Hf & Hc). cbv zeta.
  rewrite Hs, text_lines_join by assumption. now repeat split.
Qed.

Lemma captions_props : forall entries i,
  (1 <= i)%Z -> Forall storable entries ->
  Forall tight (map fst (captions_written i entries))
  /\ Forall boundary (map snd (captions_written i entries))
  /\ Forall (fun p => blank p = true) (map snd (captions_written i entries))
  /\ ~ In Py.CR (emit (captions_written i entries)).
Proof.
  induction entries as [|[time_line body] rest IH]; intros i Hi Hall.
  - repeat split; try constructor. intros [].
  - inversion Hall as [|? ? He Hrest]; subst.
    destruct (IH (i + 1)%Z ltac:(lia) Hrest) as (H1 & H2 & H3 & H4).
    destruct (storable_text He) as (_ & Ht & Hf & Hc).
    destruct He as ((Hne & Htr & Hnl & Hcr) & _).
    destruct (index_line Hi) as (Hin & Hv & _).
    cbn [fst snd] in *. cbn [captions_written map fst snd emit].
    repeat split.
    + constructor; [|assumption]. now apply caption_block_tight.
    + constructor; [|assumption]. apply caption_sep_boundary.
    + constructor; [|assumption]. apply caption_sep_boundary.
    + unfold caption_block. rewrite !in_app_iff. cbn [In].
      rewrite !in_app_iff.
      assert (Hi' : ~ In Py.CR (Py.str_of_int i))
        by (apply visible_not_in; [reflexivity|assumption]).
      assert (Hlc : Py.LF <> Py.CR)
        by (intros Q; vm_compute in Q; discriminate Q).
      assert (Hsep : ~ In Py.CR (caption_sep (Py.strip (Py.join [Py.LF] body))))
        by (destruct (Py.strip (Py.join [Py.LF] body)); simpl; intuition).
      destruct (Py.strip (Py.join [Py.LF] body)) as [|c t] eqn:E.
      * simpl In. intuition.
      * cbn [In] in *. intuition.
Qed.

Lemma parse_captions : forall entries i acc,
  (1 <= i)%Z -> Forall storable entries ->
  parse_blocks (map fst (captions_written i entries)) acc
  = Some (acc ++ entries).
Proof.
  induction entries as [|[time_line body] rest IH]; intros i acc Hi Hall.
  - simpl. now rewrite app_nil_r.
  - inversion Hall as [|? ? He Hrest]; subst.
    destruct (storable_text He) as (Hs & _).
    destruct He as ((_ & _ & Hnl & _) & _). cbn [fst snd] in *.
    cbn [captions_written map fst parse_blocks].
    rewrite parse_caption_block by assumption.
    rewrite <- Hs. rewrite IH by (assumption || lia).
    now rewrite <- app_assoc.
Qed.

(** Reading back what the serializer of [translate.py] writes for
    storable entries gives these entries. *)
Lemma parse_written : forall entries i,
  (1 <= i)%Z -> Forall storable entries ->
  parse_srt (concat (write_calls i entries)) = Some entries.
Proof.
  intros entries i Hi Hall. rewrite write_emit.
  destruct (captions_props Hi Hall) as (Ht & Hb & Hbl & Hcr).
  pose proof (parse_captions [] Hi Hall) as Hp.
  destruct entries as [|e rest]; [reflexivity|].
  destruct (@exists_last _ (captions_written i (e :: rest)))
    as (L & [b p] & EP).
  { destruct e. discriminate. }
  rewrite EP in *. rewrite map_app in Ht, Hb, Hbl, Hp.
  cbn [map fst snd] in *.
  apply Forall_app in Hb as [Hb _]. apply Forall_app in Hbl as [_ Hp'].
  inversion Hp' as [|? ? Hblank _]; subst.
  assert (Hlen : S (length (map snd L)) = length (map fst L ++ [b]))
    by (rewrite length_app, !length_map; simpl; lia).
  destruct (weave_trimmed _ Ht Hlen) as [Htr Hne].
  unfold parse_srt, blocks_of, Py.re_split.
  rewrite remove_char_notin by assumption.
  rewrite emit_weave. unfold Py.strip.
  apply trimmed_ends in Htr as [Hh He].
  rewrite lstrip_id by now rewrite head_ok_app.
  rewrite rstrip_blank_app, rstrip_id by assumption.
  rewrite re_split_unweave by assumption.
  destruct (map fst L ++ [b]) as [|b1 bs] eqn:E.
  - destruct (map fst L); discriminate.
  - exact Hp.
Qed.

End WholeFile.

(** ** What the emitter writes, as entries *)

Section EmitterFile.

Import Notions.
Import Translate.

Lemma format_0d_shape : forall w z,
  Py.format_0d w z <> []
  /\ Forall (fun x => Py.isspace x = false) (Py.format_0d w z).
Proof.
  intros w z.
  assert (Hz : Py.zfill (if (z <? 0)%Z then w - 1 else w)
                 (Py.str_of_N (Z.abs_N z)) <> []
               /\ Forall (fun x => Py.isspace x = false)
                    (Py.zfill (if (z <? 0)%Z then w - 1 else w)
                       (Py.str_of_N (Z.abs_N z)))).
  { split.
    - intros E. apply (f_equal (@length ascii)) in E.
      rewrite zfill_length in E. simpl in E.
      pose proof (str_of_N_nonempty (Z.abs_N z)). lia.
    - apply digits_visible, zfill_ascii, str_of_N_ascii. }
  unfold Py.format_0d. destruct (z <? 0)%Z.
  - split; [discriminate|]. constructor; [reflexivity|apply Hz].
  - exact Hz.
Qed.

Lemma format_time_shape : forall x ts,
  Asr.format_time x = Some ts ->
  ts <> [] /\ Forall (fun c => Py.isspace c = false) ts.
Proof.
  intros x ts H. unfold Asr.format_time in H.
  destruct (F64.round _) as [millis|]; [|discriminate].
  injection H as <-.
  destruct (format_0d_shape 2 (millis / 3600000)) as [Hn Hh].
  split.
  - destruct (Py.format_0d 2 (millis / 3600000)); [now elim Hn|discriminate].
  - repeat match goal with
           | |- Forall _ (Py.format_0d _ _) => apply format_0d_shape
           | |- Forall _ (_ ++ _) => apply Forall_app; split
           | |- Forall _ (_ :: _) => constructor; [reflexivity|]
           | |- Forall _ [] => constructor
           end.
Qed.

Lemma time_line_shape : forall t1 t2,
  t1 <> [] -> Forall (fun c => Py.isspace c = false) t1 ->
  t2 <> [] -> Forall (fun c => Py.isspace c = false) t2 ->
  let time_line := t1 ++ lit " --> " ++ t2 in
  time_line <> [] /\ trimmed time_line = true /\ no_newline time_line
  /\ ~ In Py.CR time_line.
Proof.
  intros t1 t2 Hn1 Hv1 Hn2 Hv2. cbv zeta.
  assert (Hnot : forall c, Py.isspace c = true ->
                   ~ In c (lit " --> ") -> ~ In c (t1 ++ lit " --> " ++ t2)).
  { intros c Hc Hl. rewrite !in_app_iff. intros [H|[H|H]].
    - now apply (@visible_not_in c t1 Hc Hv1).
    - now apply Hl.
    - now apply (@visible_not_in c t2 Hc Hv2). }
  repeat split.
  - destruct t1; [now elim Hn1|discriminate].
  - unfold trimmed. rewrite head_ok_app by assumption.
    rewrite app_assoc, head_ok_rev_app by assumption.
    apply visible_trimmed in Hv1, Hv2.
    apply trimmed_ends in Hv1 as [-> _]. apply trimmed_ends in Hv2 as [_ ->].
    reflexivity.
  - apply Hnot; [reflexivity|]. vm_compute. intuition discriminate.
  - apply Hnot; [reflexivity|]. vm_compute. intuition discriminate.
Qed.

Lemma remove_char_rev : forall c s,
  Py.remove_char c (rev s) = rev (Py.remove_char c s).
Proof. intros c s. apply filter_rev. Qed.

Lemma remove_char_app : forall c a b,
  Py.remove_char c (a ++ b) = Py.remove_char c a ++ Py.remove_char c b.
Proof. intros c a b. apply filter_app. Qed.

Lemma remove_char_absent : forall c s, ~ In c (Py.remove_char c s).
Proof.
  intros c s H. apply filter_In in H as [_ H].
  now rewrite Ascii.eqb_refl in H.
Qed.

Lemma remove_char_idem : forall c s,
  Py.remove_char c (Py.remove_char c s) = Py.remove_char c s.
Proof. intros c s. apply remove_char_notin, remove_char_absent. Qed.

Lemma remove_char_concat : forall c l,
  Py.remove_char c (concat l) = concat (map (Py.remove_char c) l).
Proof.
  intros c l. induction l as [|a l IH]; [reflexivity|].
  simpl. now rewrite remove_char_app, IH.
Qed.

Lemma head_ok_remove_cr : forall s,
  head_ok s = true -> head_ok (Py.remove_char Py.CR s) = true.
Proof.
  intros [|c s] H; [reflexivity|]. simpl in *.
  destruct (Ascii.eqb_spec c Py.CR) as [->|Hne]; [discriminate H|].
  exact H.
Qed.

Lemma trimmed_remove_cr : forall s,
  trimmed s = true -> trimmed (Py.remove_char Py.CR s) = true.
Proof.
  intros s H. apply trimmed_ends in H as [Hh He]. unfold trimmed.
  rewrite head_ok_remove_cr by assumption.
  rewrite <- remove_char_rev. now rewrite head_ok_remove_cr.
Qed.

Lemma emitter_entries : forall segs i ws,
  (1 <= i)%Z ->
  Asr.write_calls i segs = Some ws ->
  Forall (fun seg => sep_free (text_of seg) = true) segs ->
  exists entries,
    length entries = length segs
    /\ Forall storable entries
    /\ map (Py.remove_char Py.CR) ws = write_calls i entries
    /\ index_lines (write_calls i entries) = index_lines ws
    /\ time_lines (write_calls i entries) = time_lines ws
    /\ text_blocks (write_calls i entries)
       = map (Py.remove_char Py.CR) (text_blocks ws).
Proof.
  induction segs as [|seg rest IH]; intros i ws Hi H Hall.
  - injection H as <-. exists []. repeat split. constructor.
  - cbn [Asr.write_calls] in H.
    destruct (Asr.format_time (Asr.seg_start seg)) as [t1|] eqn:E1;
      [|discriminate].
    destruct (Asr.format_time (Asr.seg_end seg)) as [t2|] eqn:E2;
      [|discriminate].
    destruct (Asr.write_calls (i + 1) rest) as [ws'|] eqn:E; [|discriminate].
    apply (f_equal (fun o => match o with Some l => l | None => [] end)) in H.
    cbv beta iota in H. subst ws.
    inversion Hall as [|? ? Hseg Hrest]; subst.
    destruct (IH (i + 1)%Z ws' ltac:(lia) E Hrest)
      as (es & Hlen & Hst & Hw & Hx & Ht & Hb).
    destruct (format_time_shape _ E1) as [Hn1 Hv1].
    destruct (format_time_shape _ E2) as [Hn2 Hv2].
    destruct (time_line_shape Hn1 Hv1 Hn2 Hv2) as (Hne & Htr & Hnl & Hcr).
    destruct (index_line Hi) as (_ & Hv & _).
    assert (Htt : trimmed (text_of seg) = true)
      by apply trimmed_remove_cr, strip_trimmed.
    exists ((t1 ++ lit " --> " ++ t2, text_lines (text_of seg)) :: es).
    cbn [write_calls]. rewrite text_lines_join by assumption.
    unfold index_lines, time_lines, text_blocks in *.
    cbn [captions map fst snd length]. repeat split.
    + now rewrite Hlen.
    + constructor; [|assumption]. split; [now repeat split|].
      exists (text_of seg). repeat split; try assumption.
      apply remove_char_absent.
    + rewrite Hw. f_equal; [|f_equal; [|f_equal]].
      * rewrite remove_char_app. f_equal.
        apply remove_char_notin, visible_not_in; [reflexivity|assumption].
      * replace (t1 ++ lit " --> " ++ t2 ++ [Py.LF])
          with ((t1 ++ lit " --> " ++ t2) ++ [Py.LF])
          by now rewrite <- !app_assoc.
        rewrite remove_char_app. f_equal. now apply remove_char_notin.
      * now rewrite remove_char_app.
    + now rewrite Hx.
    + rewrite Ht. f_equal. now rewrite <- !app_assoc.
    + rewrite Hb. f_equal. now rewrite remove_char_app.
Qed.

(** The text mode changes nothing in a text without carriage
    return. *)
Lemma read_text_notin : forall s, ~ In Py.CR s -> read_text s = s.
Proof.
  induction s as [|c s IH]; intros H; [reflexivity|].
  cbn [read_text].
  destruct (Ascii.eqb_spec c Py.CR) as [->|Hne].
  - elim H. now left.
  - f_equal. apply IH. intros Hin. apply H. now right.
Qed.

Lemma emitter_cr_free : forall segs i ws,
  (1 <= i)%Z ->
  Asr.write_calls i segs = Some ws ->
  Forall (fun seg => ~ In Py.CR (Py.strip (Asr.seg_text seg))) segs ->
  Forall (fun w => ~ In Py.CR w) ws.
Proof.
  induction segs as [|seg rest IH]; intros i ws Hi H Hall.
  - injection H as <-. constructor.
  - cbn [Asr.write_calls] in H.
    destruct (Asr.format_time (Asr.seg_start seg)) as [t1|] eqn:E1;
      [|discriminate].
    destruct (Asr.format_time (Asr.seg_end seg)) as [t2|] eqn:E2;
      [|discriminate].
    destruct (Asr.write_calls (i + 1) rest) as [ws'|] eqn:E; [|discriminate].
    apply (f_equal (fun o => match o with Some l => l | None => [] end)) in H.
    cbv beta iota in H. subst ws.
    inversion Hall as [|? ? Hseg Hrest]; subst.
    destruct (format_time_shape _ E1) as [Hn1 Hv1].
    destruct (format_time_shape _ E2) as [Hn2 Hv2].
    destruct (time_line_shape Hn1 Hv1 Hn2 Hv2) as (_ & _ & _ & Hcr).
    destruct (index_line Hi) as (_ & Hv & _).
    assert (Hlf : Py.LF <> Py.CR)
      by (intros Q; vm_compute in Q; discriminate Q).
    constructor; [|constructor; [|constructor]].
    + intros Hin. apply in_app_or in Hin as [Hin|[Hin|[]]].
      * now apply (@visible_not_in Py.CR (Py.str_of_int i)).
      * now apply Hlf.
    + replace (t1 ++ lit " --> " ++ t2 ++ [Py.LF])
        with ((t1 ++ lit " --> " ++ t2) ++ [Py.LF])
        by now rewrite <- !app_assoc.
      intros Hin. apply in_app_or in Hin as [Hin|[Hin|[]]].
      * now apply Hcr.
      * now apply Hlf.
    + intros Hin. apply in_app_or in Hin as [Hin|[Hin|[Hin|[]]]].
      * now apply Hseg.
      * now apply Hlf.
      * now apply Hlf.
    + apply (IH (i + 1)%Z ws' ltac:(lia) E Hrest).
Qed.

Lemma remove_cr_all : forall ws : list str,
  Forall (fun w => ~ In Py.CR w) ws -> map (Py.remove_char Py.CR) ws = ws.
Proof.
  intros ws H. induction H as [|w ws Hw _ IH]; [reflexivity|].
  cbn [map]. rewrite IH. f_equal. now apply remove_char_notin.
Qed.

Lemma concat_cr_free : forall ws : list str,
  Forall (fun w => ~ In Py.CR w) ws -> ~ In Py.CR (concat ws).
Proof.
  intros ws H Hin. apply in_concat in Hin as (w & Hw & Hc).
  rewrite Forall_forall in H. now apply (H w Hw).
Qed.

(** What the emitter writes for texts without carriage return is
    what the serializer of [translate.py] writes for the entries read
    back. *)
Lemma emitter_reread : forall segs ws,
  Asr.write_calls 1 segs = Some ws ->
  Forall (fun seg => sep_free (Py.strip (Asr.seg_text seg)) = true
                     /\ ~ In Py.CR (Py.strip (Asr.seg_text seg))) segs ->
  exists entries,
    length entries = length segs
    /\ Forall storable entries
    /\ write_calls 1 entries = ws
    /\ ~ In Py.CR (concat ws).
Proof.
  intros segs ws Hws Hall.
  assert (Hcr : Forall (fun seg => ~ In Py.CR (Py.strip (Asr.seg_text seg)))
                  segs)
    by (eapply Forall_impl; [|exact Hall]; intros seg H; apply H).
  assert (Hsep : Forall (fun seg => sep_free (text_of seg) = true) segs).
  { eapply Forall_impl; [|exact Hall]. intros seg [Hs Hc].
    unfold text_of. now rewrite remove_char_notin. }
  pose proof (@emitter_cr_free segs 1 ws ltac:(lia) Hws Hcr) as Hfree.
  destruct (@emitter_entries segs 1 ws ltac:(lia) Hws Hsep)
    as (entries & Hlen & Hst & Hw & _).
  exists entries. rewrite remove_cr_all in Hw by assumption.
  repeat split; try assumption; auto.
  now apply concat_cr_free.
Qed.

Lemma written_cr_free : forall entries : list entry,
  Forall storable entries -> ~ In Py.CR (write_srt entries).
Proof.
  intros entries H. unfold write_srt. rewrite write_emit.
  now apply (@captions_props entries 1 ltac:(lia) H).
Qed.

End EmitterFile.

(** C1 as stated fails: the text of a segment may hold a blank line,
    which the parser takes for the end of the caption.  One segment
    from 0 s to 1 s with the text ["first\n\nsecond\nthird"] is
    written as one caption and read back as two, the second with the
    timestamp line ["second"]: the file written again has another
    timestamp line and other text.  The file holds no carriage
    return, so the reader hands it to the parser as it is. *)
Lemma round_trip_counterexample :
  SFleb (F64.of_Z 0) (F64.of_Z 0) = true
  /\ SFleb (F64.of_Z 0) (F64.of_Z 1) = true
  /\ Asr.write_calls 1
       [Asr.Segment (F64.of_Z 0) (F64.of_Z 1)
          (lit "first" ++ [Py.LF; Py.LF] ++ lit "second" ++ [Py.LF]
             ++ lit "third")]
     = Some [lit "1" ++ [Py.LF];
             lit "00:00:00,000 --> 00:00:01,000" ++ [Py.LF];
             lit "first" ++ [Py.LF; Py.LF] ++ lit "second" ++ [Py.LF]
               ++ lit "third" ++ [Py.LF; Py.LF]]
  /\ Translate.parse_srt
       (concat [lit "1" ++ [Py.LF];
                lit "00:00:00,000 --> 00:00:01,000" ++ [Py.LF];
                lit "first" ++ [Py.LF; Py.LF] ++ lit "second" ++ [Py.LF]
                  ++ lit "third" ++ [Py.LF; Py.LF]])
     = Some [(lit "00:00:00,000 --> 00:00:01,000", [lit "first"]);
             (lit "second", [lit "third"])]
  /\ Notions.time_lines
       (Translate.write_calls 1
          [(lit "00:00:00,000 --> 00:00:01,000", [lit "first"]);
           (lit "second", [lit "third"])])
     <> Notions.time_lines
          [lit "1" ++ [Py.LF];
           lit "00:00:00,000 --> 00:00:01,000" ++ [Py.LF];
           lit "first" ++ [Py.LF; Py.LF] ++ lit "second" ++ [Py.LF]
             ++ lit "third" ++ [Py.LF; Py.LF]]
  /\ map Notions.squeeze
       (Notions.text_blocks
          (Translate.write_calls 1
             [(lit "00:00:00,000 --> 00:00:01,000", [lit "first"]);
              (lit "second", [lit "third"])]))
     <> map Notions.squeeze
          (Notions.text_blocks
             [lit "1" ++ [Py.LF];
              lit "00:00:00,000 --> 00:00:01,000" ++ [Py.LF];
              lit "first" ++ [Py.LF; Py.LF] ++ lit "second" ++ [Py.LF]
                ++ lit "third" ++ [Py.LF; Py.LF]])
  /\ Translate.read_text
       (concat [lit "1" ++ [Py.LF];
                lit "00:00:00,000 --> 00:00:01,000" ++ [Py.LF];
                lit "first" ++ [Py.LF; Py.LF] ++ lit "second" ++ [Py.LF]
                  ++ lit "third" ++ [Py.LF; Py.LF]])
     = concat [lit "1" ++ [Py.LF];
               lit "00:00:00,000 --> 00:00:01,000" ++ [Py.LF];
               lit "first" ++ [Py.LF; Py.LF] ++ lit "second" ++ [Py.LF]
                 ++ lit "third" ++ [Py.LF; Py.LF]].
Proof.
  repeat split; try (vm_compute; reflexivity); vm_compute; discriminate.
Qed.

(** A carriage return inside a text does not survive the reader
    either: the text ["a\r\rb"] is written as it is, read as
    ["a\n\nb"], and parsed as the one text line ["a"]. *)
Example carriage_returns_read_as_newlines :
  Asr.write_srt
    [Asr.Segment (F64.of_Z 0) (F64.of_Z 1)
       (lit "a" ++ [Py.CR; Py.CR] ++ lit "b")]
  = Some (lit "1" ++ [Py.LF] ++ lit "00:00:00,000 --> 00:00:01,000"
            ++ [Py.LF] ++ lit "a" ++ [Py.CR; Py.CR] ++ lit "b"
            ++ [Py.LF; Py.LF])
  /\ Translate.read_text
       (lit "1" ++ [Py.LF] ++ lit "00:00:00,000 --> 00:00:01,000"
          ++ [Py.LF] ++ lit "a" ++ [Py.CR; Py.CR] ++ lit "b"
          ++ [Py.LF; Py.LF])
     = lit "1" ++ [Py.LF] ++ lit "00:00:00,000 --> 00:00:01,000"
         ++ [Py.LF] ++ lit "a" ++ [Py.LF; Py.LF] ++ lit "b"
         ++ [Py.LF; Py.LF]
  /\ Translate.parse_srt
       (Translate.read_text
          (lit "1" ++ [Py.LF] ++ lit "00:00:00,000 --> 00:00:01,000"
             ++ [Py.LF] ++ lit "a" ++ [Py.CR; Py.CR] ++ lit "b"
             ++ [Py.LF; Py.LF]))
     = Some [(lit "00:00:00,000 --> 00:00:01,000", [lit "a"])].
Proof. repeat split; vm_compute; reflexivity. Qed.

(** C1, amended.  The file goes from the emitter to the parser
    through the reader of [translate.py], which opens it in text
    mode.  For every sequence of segments that the emitter writes
    without raising and whose stripped texts hold neither a blank
    line nor a carriage return, the reader hands the file to the
    parser unchanged, the parser reads it back as one entry per
    segment, and the serializer of [translate.py] makes for these
    entries the very writes the emitter made: the index lines, the
    timestamp lines and the text blocks are the same character for
    character, and so is the file.  In the same way the file that the
    serializer of [translate.py] writes for storable entries (one-line
    timestamp lines and texts without whitespace at the ends, without
    blank line and without carriage return) is read unchanged and
    parsed back as these very entries. *)
Theorem round_trip :
  (forall (segs : list Asr.segment) (out : str),
    Asr.write_srt segs = Some out ->
    Forall (fun seg =>
              Notions.sep_free (Py.strip (Asr.seg_text seg)) = true
              /\ ~ In Py.CR (Py.strip (Asr.seg_text seg))) segs ->
    exists entries ws,
      Asr.write_calls 1 segs = Some ws
      /\ Translate.read_text out = out
      /\ Translate.parse_srt (Translate.read_text out) = Some entries
      /\ length entries = length segs
      /\ Translate.write_calls 1 entries = ws
      /\ Translate.write_srt entries = out
      /\ Notions.index_lines (Translate.write_calls 1 entries)
         = Notions.index_lines ws
      /\ Notions.time_lines (Translate.write_calls 1 entries)
         = Notions.time_lines ws
      /\ Notions.text_blocks (Translate.write_calls 1 entries)
         = Notions.text_blocks ws)
  /\ (forall entries : list Translate.entry,
        Forall Notions.storable entries ->
        Translate.read_text (Translate.write_srt entries)
        = Translate.write_srt entries
        /\ Translate.parse_srt
             (Translate.read_text (Translate.write_srt entries))
           = Some entries).
Proof.
  split.
  - intros segs out Hout Hall. unfold Asr.write_srt in Hout.
    destruct (Asr.write_calls 1 segs) as [ws|] eqn:Ews; [|discriminate].
    injection Hout as <-.
    destruct (emitter_reread Ews Hall) as (entries & Hlen & Hst & Hw & Hcr).
    assert (Hread : Translate.read_text (concat ws) = concat ws)
      by now apply read_text_notin.
    exists entries, ws. rewrite Hread.
    split; [reflexivity|]. split; [reflexivity|].
    split.
    { rewrite <- Hw. apply (@parse_written entries 1); [lia|assumption]. }
    split; [exact Hlen|]. split; [exact Hw|].
    split; [unfold Translate.write_srt; now rewrite Hw|].
    now rewrite Hw.
  - intros entries Hst.
    assert (Hread : Translate.read_text (Translate.write_srt entries)
                    = Translate.write_srt entries)
      by now apply read_text_notin, written_cr_free.
    split; [exact Hread|]. rewrite Hread.
    apply (@parse_written entries 1); [lia|assumption].
Qed.

Lemma round_trip_witness :
  exists entries ws,
    Asr.write_calls 1
      [Asr.Segment (F64.of_Z 0) (F64.of_ratio 5 2)
         (lit " Hello" ++ [Py.LF] ++ lit " world ");
       Asr.Segment (F64.of_ratio 5 2) (F64.of_Z 4) (lit "  ")]
      = Some ws
    /\ Translate.read_text
         (lit "1" ++ [Py.LF] ++ lit "00:00:00,000 --> 00:00:02,500"
            ++ [Py.LF] ++ lit "Hello" ++ [Py.LF] ++ lit " world"
            ++ [Py.LF; Py.LF]
            ++ lit "2" ++ [Py.LF] ++ lit "00:00:02,500 --> 00:00:04,000"
            ++ [Py.LF] ++ [Py.LF; Py.LF])
       = lit "1" ++ [Py.LF] ++ lit "00:00:00,000 --> 00:00:02,500"
           ++ [Py.LF] ++ lit "Hello" ++ [Py.LF] ++ lit " world"
           ++ [Py.LF; Py.LF]
           ++ lit "2" ++ [Py.LF] ++ lit "00:00:02,500 --> 00:00:04,000"
           ++ [Py.LF] ++ [Py.LF; Py.LF]
    /\ Translate.parse_srt
         (Translate.read_text
            (lit "1" ++ [Py.LF] ++ lit "00:00:00,000 --> 00:00:02,500"
               ++ [Py.LF] ++ lit "Hello" ++ [Py.LF] ++ lit " world"
               ++ [Py.LF; Py.LF]
               ++ lit "2" ++ [Py.LF] ++ lit "00:00:02,500 --> 00:00:04,000"
               ++ [Py.LF] ++ [Py.LF; Py.LF]))
       = Some entries
    /\ length entries = 2
    /\ Translate.write_calls 1 entries = ws
    /\ Translate.write_srt entries
       = lit "1" ++ [Py.LF] ++ lit "00:00:00,000 --> 00:00:02,500"
           ++ [Py.LF] ++ lit "Hello" ++ [Py.LF] ++ lit " world"
           ++ [Py.LF; Py.LF]
           ++ lit "2" ++ [Py.LF] ++ lit "00:00:02,500 --> 00:00:04,000"
           ++ [Py.LF] ++ [Py.LF; Py.LF]
    /\ Notions.index_lines (Translate.write_calls 1 entries)
       = Notions.index_lines ws
    /\ Notions.time_lines (Translate.write_calls 1 entries)
       = Notions.time_lines ws
    /\ Notions.text_blocks (Translate.write_calls 1 entries)
       = Notions.text_blocks ws.
Proof.
  apply (proj1 round_trip
           [Asr.Segment (F64.of_Z 0) (F64.of_ratio 5 2)
              (lit " Hello" ++ [Py.LF] ++ lit " world ");
            Asr.Segment (F64.of_ratio 5 2) (F64.of_Z 4) (lit "  ")]).
  - vm_compute. reflexivity.
  - repeat constructor;
      solve [ vm_compute; reflexivity
            | intros H; vm_compute in H;
              repeat (destruct H as [H|H]; [discriminate H|]); exact H ].
Defined.

(** ** A translator whose answer depends on the line only *)

Section PureTranslator.

Import Notions.
Import Derived.

Variable tstate : Type.
Variable translate_line : str -> tstate -> str * tstate.
Variable f : str -> str.
Hypothesis answer : forall l st, fst (translate_line l st) = f l.

Lemma pure_lines : forall body acc (g : Pipeline.engine tstate),
  fst (Pipeline.translate_lines translate_line body acc g)
  = acc ++ map (translated_line f) body.
Proof.
  induction body as [|line rest IH]; intros acc g.
  - simpl. now rewrite app_nil_r.
  - cbn [Pipeline.translate_lines map].
    assert (Ht : translated_line f line
                 = match Py.strip line with
                   | [] => []
                   | c :: l => f (c :: l)
                   end) by reflexivity.
    rewrite Ht. clear Ht.
    destruct (Py.strip line) as [|c l] eqn:E.
    + rewrite IH. now rewrite <- app_assoc.
    + unfold Pipeline.call_translate.
      pose proof (answer (c :: l) (Pipeline.eng_state g)) as Ha.
      destruct (translate_line (c :: l) (Pipeline.eng_state g)) as [out st].
      simpl in Ha. subst out. rewrite IH. now rewrite <- app_assoc.
Qed.

Lemma pure_entries : forall entries acc (g : Pipeline.engine tstate),
  fst (Pipeline.translate_entries translate_line entries acc g)
  = acc ++ map (translated_entry f) entries.
Proof.
  induction entries as [|[time_line body] rest IH]; intros acc g.
  - simpl. now rewrite app_nil_r.
  - cbn [Pipeline.translate_entries map].
    pose proof (pure_lines body [] g) as Hl.
    destruct (Pipeline.translate_lines translate_line body [] g) as [outs g1].
    cbn [fst app] in Hl. subst outs. rewrite IH.
    now rewrite <- app_assoc.
Qed.

End PureTranslator.

(** X1. With a translator whose answer depends on the line only, the
    pipeline writes every caption with its timestamp line and, for
    each text line, the answer of the translator on the stripped
    line, or the empty string when the stripped line is empty. *)
Theorem pure_translation :
  forall (tstate : Type) (translate_line : str -> tstate -> str * tstate)
         (f : str -> str),
    (forall l st, fst (translate_line l st) = f l) ->
    forall (text : str) (st : tstate),
    exists g,
      Pipeline.main translate_line text (Some st)
      = Some (Translate.write_srt
                (map (Derived.translated_entry f) (Notions.parse_spec text)),
              g).
Proof.
  intros tstate translate_line f Hf text st. unfold Pipeline.main.
  rewrite parse_srt_total, parse_spec_by_count.
  pose proof (pure_entries translate_line f Hf (Notions.parse_spec text) []
                {| Pipeline.eng_state := st; Pipeline.eng_calls := [] |}) as H.
  destruct (Pipeline.translate_entries translate_line _ [] _) as [outs g].
  cbn [fst app] in H. subst outs. now exists g.
Qed.

Lemma pure_translation_witness :
  exists g,
    Pipeline.main (fun l (n : nat) => (lit "ru:" ++ l, S n))
      (lit "4" ++ [Py.LF] ++ lit "00:00:01,000 --> 00:00:02,000" ++ [Py.LF]
         ++ lit " hello ")
      (Some 0)
    = Some (Translate.write_srt
              (map (Derived.translated_entry (fun l => lit "ru:" ++ l))
                 (Notions.parse_spec
                    (lit "4" ++ [Py.LF]
                       ++ lit "00:00:01,000 --> 00:00:02,000" ++ [Py.LF]
                       ++ lit " hello "))),
            g).
Proof.
  apply (@pure_translation nat (fun l (n : nat) => (lit "ru:" ++ l, S n))
           (fun l => lit "ru:" ++ l)).
  intros l st. reflexivity.
Defined.

(** ** What the parsed lines are made of *)

Section ParsedLines.

Import Notions.
Import Derived.
Import Translate.

Lemma in_lstrip : forall c s, In c (Py.lstrip s) -> In c s.
Proof.
  intros c s. induction s as [|x s IH]; simpl; [tauto|].
  destruct (Py.isspace x); [intros H; right; auto|tauto].
Qed.

Lemma in_strip : forall c s, In c (Py.strip s) -> In c s.
Proof.
  intros c s H. unfold Py.strip, Py.rstrip in H.
  apply in_rev, in_lstrip, in_rev in H. now apply in_lstrip.
Qed.

Lemma in_re_split : forall m s k cur b c,
  In b (Py.re_split_aux m k cur s) -> In c b -> In c cur \/ In c s.
Proof.
  intros m s. induction s as [|x s IH]; intros k cur b c Hb Hc.
  - simpl in Hb. destruct Hb as [<-|[]]. left. now apply in_rev.
  - destruct k as [|k].
    + cbn [Py.re_split_aux] in Hb.
      destruct (m (x :: s)) as [[|j]|].
      * destruct (IH 0 (x :: cur) b c Hb Hc) as [[<-|H]|H];
          [right; now left|now left|right; now right].
      * destruct Hb as [<-|Hb].
        -- left. now apply in_rev.
        -- destruct (IH j [] b c Hb Hc) as [[]|H]. right. now right.
      * destruct (IH 0 (x :: cur) b c Hb Hc) as [[<-|H]|H];
          [right; now left|now left|right; now right].
    + cbn [Py.re_split_aux] in Hb.
      destruct (IH k cur b c Hb Hc) as [H|H]; [now left|right; now right].
Qed.

Lemma in_split : forall sep s l c,
  In l (Py.split sep s) -> In c l -> In c s.
Proof.
  intros sep s. induction s as [|x s IH]; intros l c Hl Hc.
  - simpl in Hl. destruct Hl as [<-|[]]. exact Hc.
  - simpl in Hl. destruct (Ascii.eqb x sep).
    + destruct Hl as [<-|Hl]; [destruct Hc|]. right. eauto.
    + destruct (Py.split sep s) as [|l0 ls] eqn:E.
      * destruct Hl as [<-|[]]. destruct Hc as [<-|[]]. now left.
      * destruct Hl as [<-|Hl].
        -- destruct Hc as [<-|Hc]; [now left|].
           right. apply (IH l0 c); [now left|assumption].
        -- right. apply (IH l c); [now right|assumption].
Qed.

Lemma entry_of_lines_incl : forall lines e,
  In e (entry_of_lines lines) ->
  In (fst e) lines /\ incl (snd e) lines.
Proof.
  intros [|first rest] e H; [destruct H|]. simpl in H.
  destruct (Py.isdigit (Py.strip first)).
  - destruct rest as [|time_line body]; [destruct H|].
    destruct H as [<-|[]]. split; [right; now left|].
    intros l Hl. right. now right.
  - destruct H as [<-|[]]. split; [now left|].
    intros l Hl. now right.
Qed.

Lemma block_line_clean : forall text b l,
  In b (blocks_of text) -> 2 <= length (Py.split Py.LF b) ->
  In l (Py.split Py.LF b) -> clean l.
Proof.
  intros text b l Hb Hlen Hl. repeat split.
  - destruct (blocks_of_lines text) as [E|Hall].
    + rewrite E in Hb. destruct Hb as [<-|[]]. simpl in Hlen. lia.
    + rewrite Forall_forall in Hall. specialize (Hall b Hb).
      rewrite Forall_forall in Hall. now apply Hall.
  - pose proof (split_lines_no_sep Py.LF b) as H.
    rewrite Forall_forall in H. now apply H.
  - intros Hc. pose proof (@in_split _ _ _ _ Hl Hc) as Hc'.
    unfold blocks_of, Py.re_split in Hb.
    destruct (@in_re_split _ _ _ _ _ _ Hb Hc') as [[]|H].
    apply in_strip in H. now apply remove_char_absent in H.
Qed.

End ParsedLines.

Lemma parsed_clean : forall text,
  Forall (fun e => Derived.clean (fst e) /\ Forall Derived.clean (snd e))
    (flat_map Notions.entries_by_count (Translate.blocks_of text)).
Proof.
  intros text. apply Forall_forall. intros e He.
  apply in_flat_map in He as (b & Hb & He).
  unfold Notions.entries_by_count in He.
  destruct (Nat.ltb_spec (length (Py.split Py.LF b)) 2) as [|Hlen];
    [destruct He|].
  apply entry_of_lines_incl in He as [Ht Hbody]. split.
  - now apply (block_line_clean text b).
  - apply Forall_forall. intros l Hl.
    apply (block_line_clean text b); auto.
Qed.

(** X2. Every timestamp line and every text line that the parser
    returns holds a visible character and holds neither a newline nor
    a carriage return. *)
Theorem parsed_lines_clean :
  forall (text : str) (entries : list Translate.entry),
    Translate.parse_srt text = Some entries ->
    Forall (fun e => Derived.clean (fst e) /\ Forall Derived.clean (snd e))
      entries.
Proof.
  intros text entries H. rewrite parse_srt_total in H. injection H as <-.
  apply parsed_clean.
Qed.

Lemma parsed_lines_clean_witness :
  Forall (fun e => Derived.clean (fst e) /\ Forall Derived.clean (snd e))
    [(lit "00:00:01,000 --> 00:00:02,000", [lit "hello "; lit " there"])].
Proof.
  apply (@parsed_lines_clean
           (lit "4" ++ [Py.CR; Py.LF] ++ lit "00:00:01,000 --> 00:00:02,000"
              ++ [Py.CR; Py.LF] ++ lit "hello " ++ [Py.CR; Py.LF]
              ++ lit " there" ++ [Py.CR; Py.LF; Py.CR; Py.LF])).
  vm_compute. reflexivity.
Defined.

(** ** Every parsed line reaches the translator *)

Section EveryLine.

Import Notions.
Import Derived.

Lemma lstrip_nil_blank : forall s, Py.lstrip s = [] -> blank s = true.
Proof.
  induction s as [|c s IH]; simpl; [reflexivity|].
  destruct (Py.isspace c); [assumption|discriminate].
Qed.

Lemma strip_nonblank : forall l, nonblank l = true -> Py.strip l <> [].
Proof.
  intros l Hl E. unfold Py.strip, Py.rstrip in E.
  assert (E' : Py.lstrip (rev (Py.lstrip l)) = []).
  { rewrite <- (rev_involutive (Py.lstrip (rev (Py.lstrip l)))). now rewrite E. }
  apply lstrip_nil_blank in E'. rewrite blank_rev in E'.
  pose proof (lstrip_head_ok l) as Hh.
  assert (Hn : Py.lstrip l = []).
  { destruct (Py.lstrip l) as [|c t]; [reflexivity|]. simpl in *.
    apply andb_prop in E' as [Ec _]. now rewrite Ec in Hh. }
  apply lstrip_nil_blank in Hn. unfold nonblank in Hl. now rewrite Hn in Hl.
Qed.

Lemma filter_strip_clean : forall lines,
  Forall clean lines ->
  filter nonempty (map Py.strip lines) = map Py.strip lines.
Proof.
  intros lines H. induction H as [|l ls (Hl & _) _ IH]; [reflexivity|].
  cbn [map filter]. rewrite IH.
  destruct (Py.strip l) as [|c t] eqn:E; [|reflexivity].
  now apply strip_nonblank in Hl.
Qed.

Lemma clean_text_lines : forall entries : list Translate.entry,
  Forall (fun e => clean (fst e) /\ Forall clean (snd e)) entries ->
  Forall clean (concat (map snd entries)).
Proof.
  intros entries H. induction H as [|e es (_ & He) _ IH]; [constructor|].
  cbn [map concat]. apply Forall_app. now split.
Qed.

End EveryLine.

(** X3. In the pipeline no parsed text line is empty once stripped:
    the translator is handed the stripped form of every text line of
    every parsed entry, each once and in file order, and the branch
    that keeps an empty line is never taken. *)
Theorem every_line_translated :
  forall (tstate : Type) (translate_line : str -> tstate -> str * tstate)
         (text : str) (st : tstate) (file : str)
         (g : Pipeline.engine tstate),
    Pipeline.main translate_line text (Some st) = Some (file, g) ->
    Pipeline.eng_calls g
      = map Py.strip (concat (map snd (Notions.parse_spec text)))
    /\ Forall (fun l => l <> []) (Pipeline.eng_calls g)
    /\ length (Pipeline.eng_calls g)
       = length (concat (map snd (Notions.parse_spec text))).
Proof.
  intros tstate translate_line text st file g H. unfold Pipeline.main in H.
  rewrite parse_srt_total in H.
  destruct (translate_entries_spec translate_line
              (flat_map Notions.entries_by_count (Translate.blocks_of text)) []
              {| Pipeline.eng_state := st; Pipeline.eng_calls := [] |})
    as (outs & g' & Hr & _ & _ & Hc).
  rewrite Hr in H. injection H as _ <-.
  pose proof (clean_text_lines (parsed_clean text)) as Hclean.
  rewrite filter_strip_clean in Hc by assumption.
  rewrite parse_spec_by_count in *. cbn [Pipeline.eng_calls app] in Hc.
  rewrite Hc. repeat split.
  - apply Forall_forall. intros l Hl. apply in_map_iff in Hl as (x & <- & Hx).
    rewrite Forall_forall in Hclean. apply strip_nonblank, (Hclean x Hx).
  - apply length_map.
Qed.

Lemma every_line_translated_witness :
  Pipeline.eng_calls
    {| Pipeline.eng_state := 2;
       Pipeline.eng_calls := [lit "hello"; lit "there"] |}
    = map Py.strip
        (concat (map snd
           (Notions.parse_spec
              (lit "4" ++ [Py.LF] ++ lit "00:00:01,000 --> 00:00:02,000"
                 ++ [Py.LF] ++ lit "hello " ++ [Py.LF] ++ lit " there"))))
  /\ Forall (fun l => l <> [])
       (Pipeline.eng_calls
          {| Pipeline.eng_state := 2;
             Pipeline.eng_calls := [lit "hello"; lit "there"] |})
  /\ length
       (Pipeline.eng_calls
          {| Pipeline.eng_state := 2;
             Pipeline.eng_calls := [lit "hello"; lit "there"] |})
     = length
         (concat (map snd
            (Notions.parse_spec
               (lit "4" ++ [Py.LF] ++ lit "00:00:01,000 --> 00:00:02,000"
                  ++ [Py.LF] ++ lit "hello " ++ [Py.LF] ++ lit " there")))).
Proof.
  apply (@every_line_translated nat (fun l (n : nat) => (lit "ru:" ++ l, S n))
           (lit "4" ++ [Py.LF] ++ lit "00:00:01,000 --> 00:00:02,000"
              ++ [Py.LF] ++ lit "hello " ++ [Py.LF] ++ lit " there")
           0
           (lit "1" ++ [Py.LF] ++ lit "00:00:01,000 --> 00:00:02,000"
              ++ [Py.LF] ++ lit "ru:hello" ++ [Py.LF] ++ lit "ru:there"
              ++ [Py.LF; Py.LF])).
  vm_compute. reflexivity.
Defined.

(** ** What the parser ignores *)

Section Ignored.

Import Notions.
Import Derived.

Lemma blank_remove_char : forall c w,
  blank w = true -> blank (Py.remove_char c w) = true.
Proof.
  intros c w. induction w as [|x w IH]; simpl; intros H; [reflexivity|].
  apply andb_prop in H as [Hx Hw].
  destruct (negb (Ascii.eqb x c)); simpl; [rewrite Hx|]; auto.
Qed.

Lemma strip_blank : forall w, blank w = true -> Py.strip w = [].
Proof. intros w H. unfold Py.strip. now rewrite lstrip_blank. Qed.

Lemma strip_outer : forall w t w',
  blank w = true -> blank w' = true ->
  Py.strip (w ++ t ++ w') = Py.strip t.
Proof.
  intros w t w' Hw Hw'. unfold Py.strip.
  rewrite lstrip_blank_app by assumption.
  destruct (blank t) eqn:Et.
  - rewrite !lstrip_blank; [reflexivity|assumption|].
    now rewrite blank_app, Et, Hw'.
  - rewrite lstrip_nonblank_app by (unfold nonblank; now rewrite Et).
    now apply rstrip_blank_app.
Qed.

Lemma blocks_of_blank : forall text,
  blank text = true -> Translate.blocks_of text = [[]].
Proof.
  intros text H. unfold Translate.blocks_of.
  rewrite strip_blank by now apply blank_remove_char. reflexivity.
Qed.

Lemma blocks_of_outer : forall w text w',
  blank w = true -> blank w' = true ->
  Translate.blocks_of (w ++ text ++ w') = Translate.blocks_of text.
Proof.
  intros w text w' Hw Hw'. unfold Translate.blocks_of.
  rewrite !remove_char_app, strip_outer; auto using blank_remove_char.
Qed.

Lemma remove_cr_crlf : forall s,
  Py.remove_char Py.CR (crlf s) = Py.remove_char Py.CR s.
Proof.
  induction s as [|c s IH]; [reflexivity|].
  change (crlf (c :: s))
    with ((if Ascii.eqb c Py.LF then [Py.CR; Py.LF] else [c]) ++ crlf s).
  change (c :: s) with ([c] ++ s).
  rewrite !remove_char_app, IH. f_equal.
  destruct (Ascii.eqb c Py.LF) eqn:E; [|reflexivity].
  apply Ascii.eqb_eq in E. now subst c.
Qed.

Lemma notin_check : forall (c : ascii) s,
  forallb (fun x => negb (Ascii.eqb x c)) s = true -> ~ In c s.
Proof.
  intros c s H Hin. rewrite forallb_forall in H. specialize (H c Hin).
  now rewrite Ascii.eqb_refl in H.
Qed.

Lemma boundary_remove_cr : forall p,
  boundary p -> boundary (Py.remove_char Py.CR p).
Proof.
  intros p (w & -> & Hw). exists (Py.remove_char Py.CR w). split.
  - change (Py.LF :: w ++ [Py.LF]) with ([Py.LF] ++ w ++ [Py.LF]).
    now rewrite !remove_char_app.
  - now apply blank_remove_char.
Qed.

Lemma remove_cr_weave : forall bs ps,
  Forall (fun b => ~ In Py.CR b) bs ->
  Py.remove_char Py.CR (weave bs ps)
  = weave bs (map (Py.remove_char Py.CR) ps).
Proof.
  induction bs as [|b bs IH]; intros ps H; [reflexivity|].
  inversion H as [|? ? Hb Hbs]; subst.
  destruct ps as [|p ps]; simpl.
  - now apply remove_char_notin.
  - rewrite !remove_char_app, IH by assumption.
    now rewrite (@remove_char_notin _ _ Hb).
Qed.

Lemma blocks_of_woven : forall bs ps,
  Forall tight bs -> Forall (fun b => ~ In Py.CR b) bs ->
  Forall boundary ps -> S (length ps) = length bs ->
  Translate.blocks_of (weave bs ps) = bs.
Proof.
  intros bs ps Ht Hcr Hp Hlen. unfold Translate.blocks_of, Py.re_split.
  rewrite remove_cr_weave by assumption.
  assert (Hp' : Forall boundary (map (Py.remove_char Py.CR) ps)).
  { apply Forall_forall. intros p Hin.
    apply in_map_iff in Hin as (q & <- & Hq).
    rewrite Forall_forall in Hp. now apply boundary_remove_cr, Hp. }
  assert (Hlen' : S (length (map (Py.remove_char Py.CR) ps)) = length bs)
    by now rewrite length_map.
  destruct (weave_trimmed _ Ht Hlen') as [Htr _].
  rewrite strip_id by assumption.
  rewrite re_split_unweave by assumption.
  destruct bs; [discriminate Hlen|reflexivity].
Qed.

End Ignored.

(** X4. A text that holds nothing but whitespace, the empty text
    included, parses to no entry; the pipeline then writes an empty
    file and never calls the translator. *)
Theorem blank_input :
  forall (tstate : Type) (translate_line : str -> tstate -> str * tstate)
         (text : str) (st : tstate),
    Notions.blank text = true ->
    Translate.parse_srt text = Some []
    /\ Pipeline.main translate_line text (Some st)
       = Some ([], {| Pipeline.eng_state := st; Pipeline.eng_calls := [] |}).
Proof.
  intros tstate translate_line text st H.
  assert (Hp : Translate.parse_srt text = Some []).
  { unfold Translate.parse_srt. now rewrite blocks_of_blank. }
  split; [exact Hp|]. unfold Pipeline.main. now rewrite Hp.
Qed.

Lemma blank_input_witness :
  Translate.parse_srt ([Py.LF] ++ lit "  " ++ [Py.CR; Py.LF]) = Some []
  /\ Pipeline.main (fun l (n : nat) => (lit "ru:" ++ l, S n))
       ([Py.LF] ++ lit "  " ++ [Py.CR; Py.LF]) (Some 0)
     = Some ([], {| Pipeline.eng_state := 0; Pipeline.eng_calls := [] |}).
Proof.
  apply (@blank_input nat (fun l (n : nat) => (lit "ru:" ++ l, S n))
           ([Py.LF] ++ lit "  " ++ [Py.CR; Py.LF]) 0).
  vm_compute. reflexivity.
Defined.

(** X5. Whitespace before the first caption and after the last one
    does not change what the parser returns. *)
Theorem outer_whitespace_ignored :
  forall w text w' : str,
    Notions.blank w = true -> Notions.blank w' = true ->
    Translate.parse_srt (w ++ text ++ w') = Translate.parse_srt text.
Proof.
  intros w text w' Hw Hw'. unfold Translate.parse_srt.
  now rewrite blocks_of_outer.
Qed.

Lemma outer_whitespace_ignored_witness :
  Translate.parse_srt
    (([Py.LF; Py.LF] ++ lit " ")
       ++ (lit "00:00:01,000 --> 00:00:02,000" ++ [Py.LF] ++ lit "hello")
       ++ (lit " " ++ [Py.CR; Py.LF; Py.LF]))
  = Translate.parse_srt
      (lit "00:00:01,000 --> 00:00:02,000" ++ [Py.LF] ++ lit "hello").
Proof.
  apply (@outer_whitespace_ignored ([Py.LF; Py.LF] ++ lit " ")
           (lit "00:00:01,000 --> 00:00:02,000" ++ [Py.LF] ++ lit "hello")
           (lit " " ++ [Py.CR; Py.LF; Py.LF])); vm_compute; reflexivity.
Defined.

(** X6. A file saved with carriage return, newline line ends parses to
    the same entries as the file with plain newlines. *)
Theorem crlf_ignored :
  forall text : str,
    Translate.parse_srt (Derived.crlf text) = Translate.parse_srt text.
Proof.
  intros text. unfold Translate.parse_srt, Translate.blocks_of.
  now rewrite remove_cr_crlf.
Qed.

(** X7. Blocks without whitespace at their ends, without a blank line
    and without a carriage return are found again by the parser
    whatever blank-line boundaries separate them: how many blank
    lines there are between two captions, and which whitespace they
    hold, makes no difference. *)
Theorem boundaries_irrelevant :
  forall bs ps : list str,
    Forall Notions.tight bs -> Forall (fun b => ~ In Py.CR b) bs ->
    Forall Notions.boundary ps -> S (length ps) = length bs ->
    Translate.blocks_of (Notions.weave bs ps) = bs
    /\ Translate.parse_srt (Notions.weave bs ps)
       = Translate.parse_blocks bs [].
Proof.
  intros bs ps Ht Hcr Hp Hlen.
  assert (H : Translate.blocks_of (Notions.weave bs ps) = bs)
    by now apply blocks_of_woven.
  split; [exact H|]. unfold Translate.parse_srt. now rewrite H.
Qed.

Lemma boundaries_irrelevant_witness :
  Translate.blocks_of
    (Notions.weave
       [lit "7" ++ [Py.LF] ++ lit "00:00:01,000 --> 00:00:02,000"
          ++ [Py.LF] ++ lit "hello";
        lit "00:00:02,000 --> 00:00:03,000" ++ [Py.LF] ++ lit "there"]
       [[Py.LF] ++ lit " " ++ [Py.CR; Py.LF; Py.LF]])
  = [lit "7" ++ [Py.LF] ++ lit "00:00:01,000 --> 00:00:02,000"
       ++ [Py.LF] ++ lit "hello";
     lit "00:00:02,000 --> 00:00:03,000" ++ [Py.LF] ++ lit "there"]
  /\ Translate.parse_srt
       (Notions.weave
          [lit "7" ++ [Py.LF] ++ lit "00:00:01,000 --> 00:00:02,000"
             ++ [Py.LF] ++ lit "hello";
           lit "00:00:02,000 --> 00:00:03,000" ++ [Py.LF] ++ lit "there"]
          [[Py.LF] ++ lit " " ++ [Py.CR; Py.LF; Py.LF]])
     = Translate.parse_blocks
         [lit "7" ++ [Py.LF] ++ lit "00:00:01,000 --> 00:00:02,000"
            ++ [Py.LF] ++ lit "hello";
          lit "00:00:02,000 --> 00:00:03,000" ++ [Py.LF] ++ lit "there"]
         [].
Proof.
  apply (@boundaries_irrelevant
           [lit "7" ++ [Py.LF] ++ lit "00:00:01,000 --> 00:00:02,000"
              ++ [Py.LF] ++ lit "hello";
            lit "00:00:02,000 --> 00:00:03,000" ++ [Py.LF] ++ lit "there"]
           [[Py.LF] ++ lit " " ++ [Py.CR; Py.LF; Py.LF]]).
  - repeat constructor; solve [discriminate | vm_compute; reflexivity].
  - repeat constructor; apply notin_check; vm_compute; reflexivity.
  - repeat constructor. exists (lit " " ++ [Py.CR; Py.LF]).
    split; vm_compute; reflexivity.
  - reflexivity.
Defined.

(** ** Writing captions one after the other *)

Section Appending.

Lemma translate_calls_app : forall a b i,
  Translate.write_calls i (a ++ b)
  = Translate.write_calls i a
      ++ Translate.write_calls (i + Z.of_nat (length a)) b.
Proof.
  induction a as [|[time_line body] a IH]; intros b i.
  - simpl. now rewrite Z.add_0_r.
  - cbn [app Translate.write_calls length]. rewrite IH.
    now replace (i + 1 + Z.of_nat (length a))%Z
      with (i + Z.of_nat (S (length a)))%Z by lia.
Qed.

Lemma asr_calls_app : forall a b i,
  Asr.write_calls i (a ++ b)
  = match Asr.write_calls i a,
          Asr.write_calls (i + Z.of_nat (length a)) b with
    | Some x, Some y => Some (x ++ y)
    | _, _ => None
    end.
Proof.
  induction a as [|seg a IH]; intros b i.
  - simpl. rewrite Z.add_0_r. now destruct (Asr.write_calls i b).
  - cbn [app Asr.write_calls length]. rewrite IH.
    replace (i + 1 + Z.of_nat (length a))%Z
      with (i + Z.of_nat (S (length a)))%Z by lia.
    destruct (Asr.format_time (Asr.seg_start seg)); [|reflexivity].
    destruct (Asr.format_time (Asr.seg_end seg)); [|reflexivity].
    destruct (Asr.write_calls (i + 1) a); [|reflexivity].
    now destruct (Asr.write_calls (i + Z.of_nat (S (length a))) b).
Qed.

End Appending.

(** X8. Both serializers write a list of captions followed by a second
    list as the file of the first list followed by the captions of the
    second, numbered on from where the first list stopped; the
    recognizer's serializer fails exactly when one of the two parts
    does. *)
Theorem serializer_append :
  (forall a b : list Translate.entry,
     Translate.write_srt (a ++ b)
     = Translate.write_srt a
         ++ concat (Translate.write_calls (1 + Z.of_nat (length a)) b))
  /\ (forall a b : list Asr.segment,
        Asr.write_srt (a ++ b)
        = match Asr.write_srt a,
                Asr.write_calls (1 + Z.of_nat (length a)) b with
          | Some x, Some y => Some (x ++ concat y)
          | _, _ => None
          end).
Proof.
  split; intros a b.
  - unfold Translate.write_srt. now rewrite translate_calls_app, concat_app.
  - unfold Asr.write_srt. rewrite asr_calls_app.
    destruct (Asr.write_calls 1 a); [|reflexivity].
    destruct (Asr.write_calls (1 + Z.of_nat (length a)) b); [|reflexivity].
    simpl. now rewrite concat_app.
Qed.

(** ** A whole run of the recognizer script *)

Section WholeRun.

Import Notions.

Lemma zero_not_positive : forall d,
  F64.is_zero d = true -> F64.gt d (F64.of_Z 0) = false.
Proof. intros [[|]| | |] H; try discriminate H; reflexivity. Qed.

Lemma main_defined : forall clock segs d file,
  Asr.write_srt segs = Some file ->
  exists lines, Asr.main clock segs d = Some (lines, file).
Proof.
  intros clock segs d file H. unfold Asr.main.
  cbn [Asr.time_time Asr.clock_calls].
  destruct (F64.gt (if F64.is_zero d then S754_zero false else d)
              (F64.of_Z 0)) eqn:Eg.
  - rewrite consume_emits by assumption. cbn [app]. rewrite H. eauto.
  - rewrite consume_silent by assumption. cbn [app]. rewrite H. eauto.
Qed.

End WholeRun.

(** X9. The file system and the output stream being taken to work, a
    run of the recognizer script fails only when a timestamp of a
    segment cannot be formatted.  Otherwise the subtitle file is the
    one of [write_srt] on the segments in the order received, whatever
    the clock and the duration are, and the progress lines are one per
    segment when the duration is strictly positive, the clock having
    been read once before the first segment, and none when the
    duration is zero, negative, not a number or not given. *)
Theorem recognizer_run :
  forall (clock : nat -> spec_float) (segs : list Asr.segment)
         (duration_sec : spec_float),
    Asr.main clock segs duration_sec
    = match Asr.write_srt segs with
      | None => None
      | Some file =>
          Some (if F64.gt duration_sec (F64.of_Z 0)
                then Notions.lines_from clock duration_sec (clock 0) 1 segs
                else [],
                file)
      end.
Proof.
  intros clock segs d. unfold Asr.main. cbn [Asr.time_time Asr.clock_calls].
  destruct (F64.is_zero d) eqn:Ez.
  - rewrite (zero_not_positive d Ez).
    rewrite consume_silent by reflexivity. reflexivity.
  - destruct (F64.gt d (F64.of_Z 0)) eqn:Eg.
    + rewrite consume_emits by assumption. reflexivity.
    + rewrite consume_silent by assumption. reflexivity.
Qed.

(** ** Reading a progress line *)

Section ProgressLine.

Import Notions.

Lemma visible_app : forall a b,
  Derived.visible a -> Derived.visible b -> Derived.visible (a ++ b).
Proof. intros a b Ha Hb. apply Forall_app. now split. Qed.

Lemma visible_parts : forall k (d : str),
  Derived.visible d -> Derived.visible (firstn k d) /\ Derived.visible (skipn k d).
Proof.
  intros k d H. unfold Derived.visible in *.
  rewrite <- (firstn_skipn k d) in H. now apply Forall_app in H.
Qed.

Lemma fixed_visible : forall p n, Derived.visible (F64.fixed p n).
Proof.
  intros p n. unfold F64.fixed.
  set (d := Py.zfill (p + 1) (Py.str_of_N (Z.to_N n))).
  assert (Hd : Derived.visible d)
    by apply digits_visible, zfill_ascii, str_of_N_ascii.
  destruct (visible_parts (length d - p) Hd) as [H1 H2].
  apply visible_app; [assumption|].
  destruct (p =? 0); [constructor|].
  apply visible_app; [|assumption]. repeat constructor.
Qed.

Lemma sign_visible : forall s, Derived.visible (F64.sign_of s).
Proof. intros [|]; repeat constructor. Qed.

Lemma format_f_visible : forall p x, Derived.visible (F64.format_f p x).
Proof.
  intros p [s|s| |s m e]; unfold F64.format_f.
  - apply visible_app; [apply sign_visible|apply fixed_visible].
  - apply visible_app; [apply sign_visible|repeat constructor].
  - repeat constructor.
  - apply visible_app; [apply sign_visible|apply fixed_visible].
Qed.

Lemma visible_no_space : forall s, Derived.visible s -> ~ In " "%char s.
Proof. intros s H. now apply visible_not_in. Qed.

End ProgressLine.

(** X10. A progress line is one line, and cutting it at its spaces
    gives exactly five fields: the word PROGRESS, the ratio with four
    decimals, and the position, the total and the speed with two; no
    field holds whitespace, whatever the four numbers are. *)
Theorem progress_line_fields :
  forall ratio pos total speed : spec_float,
    Py.split " "%char (Asr.progress_line ratio pos total speed)
    = Derived.progress_fields ratio pos total speed
    /\ Forall Derived.visible
         (Derived.progress_fields ratio pos total speed)
    /\ Notions.no_newline (Asr.progress_line ratio pos total speed).
Proof.
  intros ratio pos total speed.
  assert (Hw : Derived.visible (lit "PROGRESS")) by repeat constructor.
  pose proof (format_f_visible 4 ratio) as H1.
  pose proof (format_f_visible 2 pos) as H2.
  pose proof (format_f_visible 2 total) as H3.
  pose proof (format_f_visible 2 speed) as H4.
  assert (E : Asr.progress_line ratio pos total speed
              = lit "PROGRESS" ++ " "%char
                  :: F64.format_f 4 ratio ++ " "%char
                  :: F64.format_f 2 pos ++ " "%char
                  :: F64.format_f 2 total ++ " "%char
                  :: F64.format_f 2 speed) by reflexivity.
  split; [|split].
  - rewrite E. unfold Derived.progress_fields.
    rewrite !split_app_sep by now apply visible_no_space.
    now rewrite split_no_sep by now apply visible_no_space.
  - unfold Derived.progress_fields. repeat constructor; assumption.
  - rewrite E. unfold Notions.no_newline.
    assert (Hn : forall s, Derived.visible s -> ~ In Py.LF s)
      by (intros s Hv; now apply visible_not_in).
    intros Hin.
    repeat (apply in_app_or in Hin as [Hin|Hin];
            [refine (Hn _ _ Hin); assumption|];
            destruct Hin as [Hin|Hin];
            [vm_compute in Hin; discriminate Hin|]).
    refine (Hn _ _ Hin); assumption.
Qed.

(** ** Timestamps as strings *)

Section Stamps.

Import Notions.
Import Derived.

Local Open Scope Z_scope.

Lemma format_time_stamp : forall x,
  Asr.format_time x
  = option_map stamp (F64.round (F64.mul x (F64.of_Z 1000))).
Proof.
  intros x. unfold Asr.format_time.
  now destruct (F64.round (F64.mul x (F64.of_Z 1000))).
Qed.

Lemma format_0d_neg : forall z,
  z < 0 -> Py.format_0d 2 z = lit "-" ++ Py.str_of_N (Z.abs_N z).
Proof.
  intros z Hz. unfold Py.format_0d.
  destruct (Z.ltb_spec z 0) as [_|]; [|lia].
  rewrite zfill_long; [reflexivity|]. simpl. apply str_of_N_nonempty.
Qed.

Lemma format_0d_chars : forall w z,
  Forall (fun c => (N_of_ascii c = 45 \/ 48 <= N_of_ascii c <= 57)%N)
    (Py.format_0d w z).
Proof.
  intros w z.
  assert (H : forall k n,
             Forall (fun c => (N_of_ascii c = 45
                               \/ 48 <= N_of_ascii c <= 57)%N)
               (Py.zfill k (Py.str_of_N n))).
  { intros k n. pose proof (zfill_ascii k (str_of_N_ascii n)) as Hd.
    unfold ascii_digits in Hd. rewrite Forall_forall in *.
    intros c Hc. right. now apply Hd. }
  unfold Py.format_0d. destruct (z <? 0); [|apply H].
  constructor; [now left|apply H].
Qed.

Lemma format_0d_free : forall (c : ascii) w z,
  (N_of_ascii c <> 45)%N -> (N_of_ascii c < 48 \/ 57 < N_of_ascii c)%N ->
  ~ In c (Py.format_0d w z).
Proof.
  intros c w z H1 H2 Hin. pose proof (format_0d_chars w z) as H.
  rewrite Forall_forall in H. specialize (H c Hin). lia.
Qed.

Lemma app_sep_inj : forall (c : ascii) a a' r r',
  ~ In c a -> ~ In c a' -> a ++ c :: r = a' ++ c :: r' ->
  a = a' /\ r = r'.
Proof.
  intros c. induction a as [|x a IH]; intros [|x' a'] r r' Ha Ha' E;
    simpl in *.
  - injection E as <-. now split.
  - injection E as <- _. tauto.
  - injection E as -> _. tauto.
  - injection E as <- E. destruct (IH a' r r') as [<- <-]; tauto.
Qed.

Lemma format_0d_inj : forall w z1 z2,
  Py.format_0d w z1 = Py.format_0d w z2 -> z1 = z2.
Proof.
  intros w z1 z2 E. unfold Py.format_0d in E.
  assert (Hmix : forall k n k' n',
            lit "-" ++ Py.zfill k (Py.str_of_N n)
            <> Py.zfill k' (Py.str_of_N n')).
  { intros k n k' n' Q.
    pose proof (zfill_ascii k' (str_of_N_ascii n')) as Hd.
    rewrite <- Q in Hd. inversion Hd as [|? ? Hc _]. vm_compute in Hc.
    destruct Hc as [Hc _]. now apply Hc. }
  assert (Hval : forall k n n',
            Py.zfill k (Py.str_of_N n) = Py.zfill k (Py.str_of_N n') ->
            n = n').
  { intros k n n' Q. apply (f_equal decimal_value) in Q.
    now rewrite !zfill_value, !str_of_N_value in Q. }
  destruct (Z.ltb_spec z1 0), (Z.ltb_spec z2 0).
  - injection E as E. apply Hval in E. lia.
  - now apply Hmix in E.
  - symmetry in E. now apply Hmix in E.
  - apply Hval in E. lia.
Qed.

Lemma stamp_inj : forall a b, stamp a = stamp b -> a = b.
Proof.
  intros a b E. unfold stamp in E.
  change (lit ":") with [":"%char] in E.
  change (lit ",") with [","%char] in E.
  cbn [app] in E.
  assert (Hc : forall w z, ~ In ":"%char (Py.format_0d w z))
    by (intros w z; apply format_0d_free; vm_compute; [discriminate|now right]).
  assert (Hm : forall w z, ~ In ","%char (Py.format_0d w z))
    by (intros w z; apply format_0d_free; vm_compute; [discriminate|now left]).
  apply app_sep_inj in E as [E1 E]; [|apply Hc|apply Hc].
  apply app_sep_inj in E as [E2 E]; [|apply Hc|apply Hc].
  apply app_sep_inj in E as [E3 E4]; [|apply Hm|apply Hm].
  apply format_0d_inj in E1, E2, E3, E4.
  Z.to_euclidean_division_equations. lia.
Qed.

Lemma stamp_negative : forall millis,
  millis < 0 ->
  exists hh mm ss ms,
    stamp millis
      = lit "-" ++ hh ++ lit ":" ++ mm ++ lit ":" ++ ss ++ lit "," ++ ms
    /\ (ascii_digits hh /\ ascii_digits mm /\ ascii_digits ss
        /\ ascii_digits ms)
    /\ ((1 <= length hh)%nat /\ length mm = 2%nat /\ length ss = 2%nat
        /\ length ms = 3%nat)
    /\ hh = Py.str_of_int (- (millis / 3600000))
    /\ (1 <= Z.of_N (decimal_value hh)
        /\ Z.of_N (decimal_value mm) < 60
        /\ Z.of_N (decimal_value ss) < 60)
    /\ millis = - Z.of_N (decimal_value hh) * 3600000
                + Z.of_N (decimal_value mm) * 60000
                + Z.of_N (decimal_value ss) * 1000
                + Z.of_N (decimal_value ms).
Proof.
  intros millis Hneg.
  assert (Hh : millis / 3600000 < 0)
    by (Z.to_euclidean_division_equations; lia).
  assert (Hm : 0 <= (millis mod 3600000) / 60000 < 60)
    by (Z.to_euclidean_division_equations; lia).
  assert (Hs : 0 <= (millis mod 60000) / 1000 < 60)
    by (Z.to_euclidean_division_equations; lia).
  assert (Hms : 0 <= millis mod 1000 < 1000)
    by (Z.to_euclidean_division_equations; lia).
  destruct (field_two (z := (millis mod 3600000) / 60000)) as (Lm & Dm & Vm);
    [lia|].
  destruct (field_two (z := (millis mod 60000) / 1000)) as (Ls & Ds & Vs);
    [lia|].
  destruct (field_three (z := millis mod 1000)) as (Lms & Dms & Vms);
    [lia|].
  exists (Py.str_of_N (Z.abs_N (millis / 3600000))),
    (Py.format_0d 2 ((millis mod 3600000) / 60000)),
    (Py.format_0d 2 ((millis mod 60000) / 1000)),
    (Py.format_0d 3 (millis mod 1000)).
  split.
  { unfold stamp. rewrite format_0d_neg by assumption.
    now rewrite <- !app_assoc. }
  split; [auto using str_of_N_ascii|].
  split; [auto using str_of_N_nonempty|].
  split.
  { rewrite str_of_int_nonneg by lia. f_equal. lia. }
  rewrite str_of_N_value, Vm, Vs, Vms.
  split; [lia|].
  rewrite N2Z.inj_abs_N.
  Z.to_euclidean_division_equations. lia.
Qed.

End Stamps.

(** X11. For a time that rounds to a negative number of milliseconds
    [format_time] does not raise: it writes a minus sign, the hours
    without padding, and minutes, seconds and milliseconds on two, two
    and three digits.  The fields come from floor division, so the
    minus sign bears on the hours only and the other fields count
    upwards from that hour: the count of milliseconds is minus the
    hours plus the minutes, seconds and milliseconds written.
    [format_time(-1.5)] is [-1:59:58,500]. *)
Theorem negative_time :
  Asr.format_time (F64.of_ratio (-3) 2) = Some (lit "-1:59:58,500")
  /\ (forall (x : spec_float) (millis : Z),
        F64.round (F64.mul x (F64.of_Z 1000)) = Some millis ->
        (millis < 0)%Z ->
        exists hh mm ss ms,
          Asr.format_time x
            = Some (lit "-" ++ hh ++ lit ":" ++ mm ++ lit ":" ++ ss
                      ++ lit "," ++ ms)
          /\ (Notions.ascii_digits hh /\ Notions.ascii_digits mm
              /\ Notions.ascii_digits ss /\ Notions.ascii_digits ms)
          /\ (1 <= length hh /\ length mm = 2 /\ length ss = 2
              /\ length ms = 3)
          /\ hh = Py.str_of_int (- (millis / 3600000))
          /\ (1 <= Z.of_N (Notions.decimal_value hh)
              /\ Z.of_N (Notions.decimal_value mm) < 60
              /\ Z.of_N (Notions.decimal_value ss) < 60)%Z
          /\ (millis = - Z.of_N (Notions.decimal_value hh) * 3600000
                       + Z.of_N (Notions.decimal_value mm) * 60000
                       + Z.of_N (Notions.decimal_value ss) * 1000
                       + Z.of_N (Notions.decimal_value ms))%Z).
Proof.
  split; [vm_compute; reflexivity|].
  intros x millis Hr Hneg. rewrite format_time_stamp, Hr.
  destruct (stamp_negative Hneg) as (hh & mm & ss & ms & E & H).
  exists hh, mm, ss, ms. cbn [option_map]. now rewrite E.
Qed.

Lemma negative_time_witness :
  exists hh mm ss ms,
    Asr.format_time (F64.of_ratio (-7300250) 1000)
      = Some (lit "-" ++ hh ++ lit ":" ++ mm ++ lit ":" ++ ss
                ++ lit "," ++ ms)
    /\ (Notions.ascii_digits hh /\ Notions.ascii_digits mm
        /\ Notions.ascii_digits ss /\ Notions.ascii_digits ms)
    /\ (1 <= length hh /\ length mm = 2 /\ length ss = 2
        /\ length ms = 3)
    /\ hh = Py.str_of_int (- (-7300250 / 3600000))
    /\ (1 <= Z.of_N (Notions.decimal_value hh)
        /\ Z.of_N (Notions.decimal_value mm) < 60
        /\ Z.of_N (Notions.decimal_value ss) < 60)%Z
    /\ (-7300250 = - Z.of_N (Notions.decimal_value hh) * 3600000
                   + Z.of_N (Notions.decimal_value mm) * 60000
                   + Z.of_N (Notions.decimal_value ss) * 1000
                   + Z.of_N (Notions.decimal_value ms))%Z.
Proof.
  apply (proj2 negative_time (F64.of_ratio (-7300250) 1000) (-7300250)%Z).
  - vm_compute. reflexivity.
  - reflexivity.
Defined.

(** X12. Two times are written as the same timestamp only when they
    round to the same number of milliseconds: no two counts of
    milliseconds, negative ones included, share a timestamp, however
    many digits the hours take. *)
Theorem timestamp_injective :
  forall (x y : spec_float) (s : str),
    Asr.format_time x = Some s -> Asr.format_time y = Some s ->
    F64.round (F64.mul x (F64.of_Z 1000))
    = F64.round (F64.mul y (F64.of_Z 1000)).
Proof.
  intros x y s Hx Hy. rewrite format_time_stamp in Hx, Hy.
  destruct (F64.round (F64.mul x (F64.of_Z 1000))) as [a|]; [|discriminate].
  destruct (F64.round (F64.mul y (F64.of_Z 1000))) as [b|]; [|discriminate].
  cbn [option_map] in Hx, Hy. f_equal. apply stamp_inj. congruence.
Qed.

Lemma timestamp_injective_witness :
  F64.round (F64.mul (F64.of_ratio 12346 10000) (F64.of_Z 1000))
  = F64.round (F64.mul (F64.of_ratio 12354 10000) (F64.of_Z 1000)).
Proof.
  apply (@timestamp_injective (F64.of_ratio 12346 10000)
           (F64.of_ratio 12354 10000) (lit "00:00:01,235"));
    vm_compute; reflexivity.
Defined.

(** ** Times that can be formatted *)

Section Formattable.

Import Notions.
Import Derived.

Local Open Scope Z_scope.

Lemma digits2_le : forall m k, 0 <= k -> 0 <= m < 2 ^ k -> Zdigits2 m <= k.
Proof.
  intros [|p|p] k Hk Hm; cbn [Zdigits2]; try lia.
  pose proof (digits2_bounds p) as [Hd _].
  destruct (Z_le_gt_dec (Z.pos (digits2_pos p)) k) as [|Hgt]; [assumption|].
  assert (2 ^ k <= 2 ^ (Z.pos (digits2_pos p) - 1))
    by (apply Z.pow_le_mono_r; lia).
  lia.
Qed.

Lemma shr_fexp_bound : forall m e l k,
  0 <= k -> 0 <= m < 2 ^ k ->
  0 <= shr_m (fst (shr_fexp F64.prec F64.emax m e l)) <= m
  /\ snd (shr_fexp F64.prec F64.emax m e l)
     <= Z.max e (Z.max (k + e - 53) (-1074)).
Proof.
  intros m e l k Hk Hm. unfold shr_fexp, shr.
  assert (Hrec : shr_m (shr_record_of_loc m l) = m)
    by (destruct l as [|[| |]]; reflexivity).
  pose proof (digits2_le Hk Hm) as Hd.
  destruct (fexp F64.prec F64.emax (Zdigits2 m + e) - e) as [|p|p] eqn:En;
    cbn [fst snd]; rewrite ?Hrec; try lia.
  rewrite iter_shr_m by (rewrite Hrec; lia). rewrite Hrec.
  assert (Hp : 0 < 2 ^ Z.pos p) by (apply Z.pow_pos_nonneg; lia).
  split.
  - split; [apply Z.div_pos; lia|].
    apply Z.div_le_upper_bound; [assumption|]. nia.
  - unfold fexp, emin, F64.prec, F64.emax in En. lia.
Qed.

Lemma round_nearest_even_le : forall m l, round_nearest_even m l <= m + 1.
Proof.
  intros m l. unfold round_nearest_even.
  destruct l as [|[| |]]; try destruct (Z.even m); lia.
Qed.

(** A product below [2^106] with an exponent of at most 864 rounds to
    a finite double, on which [round] does not raise. *)
Lemma round_aux_defined : forall s P e,
  0 < P < 2 ^ 106 -> e <= 864 ->
  exists r,
    F64.round (binary_round_aux F64.prec F64.emax s P e loc_Exact) = Some r.
Proof.
  intros s P e HP He. unfold binary_round_aux.
  destruct (@shr_fexp_bound P e loc_Exact 106 ltac:(lia) ltac:(lia))
    as [Hm1 He1].
  destruct (shr_fexp F64.prec F64.emax P e loc_Exact) as [mrs1 e1].
  cbn [fst snd] in Hm1, He1.
  pose proof (round_nearest_even_ge (shr_m mrs1) (loc_of_shr_record mrs1))
    as Hge.
  pose proof (round_nearest_even_le (shr_m mrs1) (loc_of_shr_record mrs1))
    as Hle.
  assert (Hm1' : 0 <= round_nearest_even (shr_m mrs1)
                        (loc_of_shr_record mrs1) < 2 ^ 107).
  { change (2 ^ 107) with (2 * 2 ^ 106). lia. }
  destruct (@shr_fexp_bound _ e1 loc_Exact 107 ltac:(lia) Hm1')
    as [Hm2 He2].
  destruct (shr_fexp F64.prec F64.emax
              (round_nearest_even (shr_m mrs1) (loc_of_shr_record mrs1))
              e1 loc_Exact) as [mrs2 e2].
  cbn [fst snd] in Hm2, He2.
  destruct (shr_m mrs2) as [|m|m]; [| |lia].
  - now exists 0.
  - destruct (Z.leb_spec e2 (F64.emax - F64.prec)) as [_|Hgt].
    + cbn [F64.round]. eauto.
    + unfold F64.emax, F64.prec in Hgt. lia.
Qed.

Lemma valid_mantissa : forall s m e,
  valid_binary F64.prec F64.emax (S754_finite s m e) = true ->
  Z.pos m < 2 ^ 53.
Proof.
  intros s m e H. cbn [valid_binary] in H. unfold bounded in H.
  apply andb_prop in H as [H _]. unfold canonical_mantissa in H.
  apply Z.eqb_eq in H. unfold fexp, emin, F64.prec, F64.emax in H.
  pose proof (digits2_bounds m) as [_ Hd].
  assert (2 ^ Z.pos (digits2_pos m) <= 2 ^ 53)
    by (apply Z.pow_le_mono_r; lia).
  lia.
Qed.

Lemma moderate_exponent : forall s m e,
  SFleb (SFabs (S754_finite s m e)) (F64.of_Z (2 ^ 900)) = true ->
  e <= 848.
Proof.
  intros s m e H.
  assert (Hv : F64.of_Z (2 ^ 900) = S754_finite false 4503599627370496 848)
    by (vm_compute; reflexivity).
  rewrite Hv in H. unfold SFleb in H. cbn [SFabs SFcompare] in H.
  destruct (Z.compare_spec e 848); [lia|lia|discriminate].
Qed.

Lemma format_time_defined : forall x,
  moderate x -> exists ts, Asr.format_time x = Some ts.
Proof.
  intros x [Hv Hb].
  assert (Hr : exists r, F64.round (F64.mul x (F64.of_Z 1000)) = Some r).
  { rewrite thousand_value. destruct x as [s|s| |s m e].
    - now exists 0.
    - discriminate Hb.
    - discriminate Hb.
    - unfold F64.mul, SFmul. apply round_aux_defined.
      + pose proof (@valid_mantissa _ _ _ Hv) as Hm. rewrite Pos2Z.inj_mul.
        change (2 ^ 106) with (2 ^ 53 * 2 ^ 53).
        change (2 ^ 53) with 9007199254740992 in *. nia.
      + apply moderate_exponent in Hb. lia. }
  destruct Hr as [r Hr]. rewrite format_time_stamp, Hr. cbn. eauto.
Qed.

Lemma write_calls_defined : forall segs i,
  Forall (fun seg => moderate (Asr.seg_start seg)
                     /\ moderate (Asr.seg_end seg)) segs ->
  exists ws, Asr.write_calls i segs = Some ws.
Proof.
  induction segs as [|seg segs IH]; intros i H; [now exists []|].
  inversion H as [|? ? [H1 H2] Hrest]; subst.
  destruct (format_time_defined H1) as [t1 E1].
  destruct (format_time_defined H2) as [t2 E2].
  destruct (IH (i + 1) Hrest) as [ws Ews].
  cbn [Asr.write_calls]. rewrite E1, E2, Ews. eauto.
Qed.

End Formattable.

(** X13. [format_time] raises on a NaN and on an infinity, and raises
    on no double of magnitude at most [2^900]: the product by 1000
    stays finite, so [round] has a result.  A run of the recognizer
    script over segments whose times are all of that kind never
    raises on its data, whatever the clock and the duration are:
    neither division of the progress report nor the formatting of the
    file fails (the file system and the output stream are taken to
    work). *)
Theorem recognizer_never_raises :
  Asr.format_time S754_nan = None
  /\ (forall s, Asr.format_time (S754_infinity s) = None)
  /\ (forall x : spec_float,
        Derived.moderate x -> exists ts, Asr.format_time x = Some ts)
  /\ (forall (clock : nat -> spec_float) (segs : list Asr.segment)
             (duration_sec : spec_float),
        Forall (fun seg => Derived.moderate (Asr.seg_start seg)
                           /\ Derived.moderate (Asr.seg_end seg)) segs ->
        exists lines file,
          Asr.main clock segs duration_sec = Some (lines, file)).
Proof.
  split; [reflexivity|]. split; [intros [|]; reflexivity|].
  split; [apply format_time_defined|].
  intros clock segs d H. destruct (write_calls_defined 1 H) as [ws Hws].
  destruct (@main_defined clock segs d (concat ws)) as [lines Hm].
  - unfold Asr.write_srt. now rewrite Hws.
  - eauto.
Qed.

Lemma recognizer_never_raises_witness :
  exists lines file,
    Asr.main (fun k => F64.of_Z (Z.of_nat k))
      [Asr.Segment (F64.of_Z 0) (F64.of_ratio 5 2) (lit " Hello ");
       Asr.Segment (F64.of_ratio 5 2) (F64.of_Z 400000) (lit "world")]
      (F64.of_Z 0)
    = Some (lines, file).
Proof.
  apply (proj2 (proj2 (proj2 recognizer_never_raises))
           (fun k => F64.of_Z (Z.of_nat k))
           [Asr.Segment (F64.of_Z 0) (F64.of_ratio 5 2) (lit " Hello ");
            Asr.Segment (F64.of_ratio 5 2) (F64.of_Z 400000) (lit "world")]
           (F64.of_Z 0)).
  repeat constructor; vm_compute; reflexivity.
Defined.

(** ** A translator with a state *)

Section Sequential.

Import Notions.
Import Derived.

Variable tstate : Type.
Variable translate_line : str -> tstate -> str * tstate.

Lemma drive_app : forall a b (st : tstate),
  drive translate_line (a ++ b) st
  = (fst (drive translate_line a st)
       ++ fst (drive translate_line b (snd (drive translate_line a st))),
     snd (drive translate_line b (snd (drive translate_line a st)))).
Proof.
  induction a as [|l a IH]; intros b st.
  - cbn [app drive fst snd]. now destruct (drive translate_line b st).
  - cbn [app drive]. destruct (translate_line l st) as [out st1].
    rewrite IH. destruct (drive translate_line a st1) as [outs st2].
    reflexivity.
Qed.

Lemma drive_length : forall lines (st : tstate),
  length (fst (drive translate_line lines st)) = length lines.
Proof.
  induction lines as [|l lines IH]; intros st; [reflexivity|].
  cbn [drive]. destruct (translate_line l st) as [out st1].
  specialize (IH st1). destruct (drive translate_line lines st1).
  cbn [fst length] in *. now rewrite IH.
Qed.

Lemma drive_lines : forall body acc (g : Pipeline.engine tstate),
  Forall clean body ->
  Pipeline.translate_lines translate_line body acc g
  = (acc ++ fst (drive translate_line (map Py.strip body)
                   (Pipeline.eng_state g)),
     {| Pipeline.eng_state :=
          snd (drive translate_line (map Py.strip body)
                 (Pipeline.eng_state g));
        Pipeline.eng_calls := Pipeline.eng_calls g ++ map Py.strip body |}).
Proof.
  induction body as [|line rest IH]; intros acc g H.
  - cbn. rewrite !app_nil_r. now destruct g.
  - inversion H as [|? ? (Hl & _) Hrest]; subst.
    cbn [Pipeline.translate_lines map drive].
    destruct (Py.strip line) as [|c l] eqn:E;
      [now apply strip_nonblank in Hl|].
    unfold Pipeline.call_translate.
    destruct (translate_line (c :: l) (Pipeline.eng_state g)) as [out st].
    rewrite IH by assumption. cbn [Pipeline.eng_state Pipeline.eng_calls].
    destruct (drive translate_line (map Py.strip rest) st) as [outs st2].
    cbn [fst snd]. now rewrite <- !app_assoc.
Qed.

Lemma drive_entries : forall entries acc (g : Pipeline.engine tstate),
  Forall (fun e : Translate.entry => Forall clean (snd e)) entries ->
  exists outs g',
    Pipeline.translate_entries translate_line entries acc g
    = (acc ++ outs, g')
    /\ map fst outs = map fst entries
    /\ Forall2 (fun (e o : Translate.entry) =>
                  length (snd o) = length (snd e)) entries outs
    /\ (concat (map snd outs), Pipeline.eng_state g')
       = drive translate_line
           (map Py.strip (concat (map snd entries))) (Pipeline.eng_state g).
Proof.
  induction entries as [|[time_line body] rest IH]; intros acc g H.
  - exists [], g. cbn. rewrite app_nil_r. repeat split. constructor.
  - inversion H as [|? ? Hb Hrest]; subst. cbn [snd] in Hb.
    cbn [Pipeline.translate_entries]. rewrite drive_lines by assumption.
    cbn [app].
    set (d := drive translate_line (map Py.strip body)
                (Pipeline.eng_state g)).
    destruct (IH (acc ++ [(time_line, fst d)])
                {| Pipeline.eng_state := snd d;
                   Pipeline.eng_calls :=
                     Pipeline.eng_calls g ++ map Py.strip body |} Hrest)
      as (outs & g' & Hr & Hf & Hall & Hd).
    exists ((time_line, fst d) :: outs), g'. split; [|split; [|split]].
    + rewrite Hr. now rewrite <- app_assoc.
    + cbn [map fst]. now rewrite Hf.
    + constructor; [|assumption]. cbn [snd]. subst d.
      now rewrite drive_length, length_map.
    + cbn [map concat snd]. rewrite map_app, drive_app.
      cbn [Pipeline.eng_state] in Hd. fold d.
      rewrite <- Hd. reflexivity.
Qed.

End Sequential.

(** X14. The translator is driven strictly in file order, also when it
    keeps a state.  The pipeline writes the parsed entries with their
    timestamp lines unchanged and as many text lines each; the text
    lines written are, in order, the answers of the engine fed the
    stripped text lines one after the other from its initial state,
    and the engine is left in the state that this leaves. *)
Theorem engine_driven_in_order :
  forall (tstate : Type) (translate_line : str -> tstate -> str * tstate)
         (text : str) (st : tstate) (file : str)
         (g : Pipeline.engine tstate),
    Pipeline.main translate_line text (Some st) = Some (file, g) ->
    exists translated : list Translate.entry,
      file = Translate.write_srt translated
      /\ map fst translated = map fst (Notions.parse_spec text)
      /\ Forall2 (fun (e o : Translate.entry) =>
                    length (snd o) = length (snd e))
           (Notions.parse_spec text) translated
      /\ (concat (map snd translated), Pipeline.eng_state g)
         = Derived.drive translate_line
             (map Py.strip (concat (map snd (Notions.parse_spec text)))) st.
Proof.
  intros tstate translate_line text st file g H. unfold Pipeline.main in H.
  rewrite parse_srt_total in H. rewrite <- parse_spec_by_count.
  assert (Hc : Forall (fun e : Translate.entry =>
                         Forall Derived.clean (snd e))
                 (flat_map Notions.entries_by_count
                    (Translate.blocks_of text))).
  { eapply Forall_impl; [|apply parsed_clean]. intros e He. apply He. }
  destruct (drive_entries translate_line []
              {| Pipeline.eng_state := st; Pipeline.eng_calls := [] |} Hc)
    as (outs & g' & Hr & Hf & Hall & Hd).
  rewrite Hr in H. cbn [app] in H. injection H as <- <-.
  exists outs. repeat split; assumption.
Qed.

Lemma engine_driven_in_order_witness :
  exists translated : list Translate.entry,
    lit "1" ++ [Py.LF] ++ lit "00:00:01,000 --> 00:00:02,000"
      ++ [Py.LF] ++ lit "0:hello" ++ [Py.LF] ++ lit "1:there"
      ++ [Py.LF; Py.LF]
    = Translate.write_srt translated
    /\ map fst translated
       = map fst
           (Notions.parse_spec
              (lit "4" ++ [Py.LF] ++ lit "00:00:01,000 --> 00:00:02,000"
                 ++ [Py.LF] ++ lit "hello " ++ [Py.LF] ++ lit " there"))
    /\ Forall2 (fun (e o : Translate.entry) =>
                  length (snd o) = length (snd e))
         (Notions.parse_spec
            (lit "4" ++ [Py.LF] ++ lit "00:00:01,000 --> 00:00:02,000"
               ++ [Py.LF] ++ lit "hello " ++ [Py.LF] ++ lit " there"))
         translated
    /\ (concat (map snd translated),
        Pipeline.eng_state
          {| Pipeline.eng_state := 2;
             Pipeline.eng_calls := [lit "hello"; lit "there"] |})
       = Derived.drive
           (fun l (n : nat) => (Py.str_of_N (N.of_nat n) ++ lit ":" ++ l, S n))
           (map Py.strip
              (concat (map snd
                 (Notions.parse_spec
                    (lit "4" ++ [Py.LF]
                       ++ lit "00:00:01,000 --> 00:00:02,000"
                       ++ [Py.LF] ++ lit "hello " ++ [Py.LF]
                       ++ lit " there")))))
           0.
Proof.
  apply (@engine_driven_in_order nat
           (fun l (n : nat) => (Py.str_of_N (N.of_nat n) ++ lit ":" ++ l, S n))
           (lit "4" ++ [Py.LF] ++ lit "00:00:01,000 --> 00:00:02,000"
              ++ [Py.LF] ++ lit "hello " ++ [Py.LF] ++ lit " there")
           0).
  vm_compute. reflexivity.
Defined.

(** ** Files without index lines *)

Section Indexless.

Import Notions.
Import Derived.

Lemma bare_block_props : forall e : Translate.entry,
  storable e -> snd e <> [] -> Py.isdigit (Py.strip (fst e)) = false ->
  tight (bare_block e) /\ ~ In Py.CR (bare_block e)
  /\ entries_by_count (bare_block e) = [e].
Proof.
  intros [tl body] ((Hne & Htr & Hnl & Hcr) & t & Hb & Ht & Hs & Hct)
    Hbody Hdig.
  cbn [fst snd] in *. subst body. unfold bare_block. cbn [fst snd].
  destruct t as [|x r]; [now elim Hbody|]. cbn [text_lines].
  rewrite join_split.
  destruct (trimmed_ends _ Htr) as [Hh1 Hh2].
  destruct (trimmed_ends _ Ht) as [Hx1 Hx2].
  assert (Hx : Py.isspace x = false)
    by (cbn [head_ok] in Hx1; now destruct (Py.isspace x)).
  split; [|split].
  - split; [|split].
    + destruct tl; discriminate.
    + unfold trimmed. rewrite head_ok_app by assumption. rewrite Hh1.
      replace (tl ++ Py.LF :: x :: r) with ((tl ++ [Py.LF]) ++ x :: r)
        by now rewrite <- app_assoc.
      rewrite head_ok_rev_app by discriminate. now rewrite Hx2.
    + rewrite sep_free_no_newline by assumption.
      now rewrite sep_free_line_end.
  - intros Hin. apply in_app_or in Hin as [Hin|[Hin|Hin]]; try tauto.
    vm_compute in Hin. discriminate Hin.
  - unfold entries_by_count. rewrite split_app_sep by assumption.
    pose proof (split_not_nil Py.LF (x :: r)) as Hsp.
    destruct (Py.split Py.LF (x :: r)) as [|l ls]; [now elim Hsp|].
    cbn [length Nat.ltb Nat.leb entry_of_lines]. now rewrite Hdig.
Qed.

Lemma bare_blocks_parse : forall entries : list Translate.entry,
  Forall storable entries ->
  Forall (fun e => snd e <> []
                   /\ Py.isdigit (Py.strip (fst e)) = false) entries ->
  Forall tight (map bare_block entries)
  /\ Forall (fun b => ~ In Py.CR b) (map bare_block entries)
  /\ flat_map entries_by_count (map bare_block entries) = entries.
Proof.
  induction entries as [|e entries IH]; intros Hs Hp.
  - repeat split; constructor.
  - inversion Hs as [|? ? Hs1 Hs2]; subst.
    inversion Hp as [|? ? [Hp1 Hp1'] Hp2]; subst.
    destruct (bare_block_props Hs1 Hp1 Hp1') as (Ht & Hc & He).
    destruct (IH Hs2 Hp2) as (IHt & IHc & IHe).
    cbn [map flat_map]. rewrite He, IHe.
    repeat split; try constructor; assumption.
Qed.

End Indexless.

(** X15. A file whose captions carry no index line parses to the same
    entries as the file the serializer writes with index lines.  For
    entries that a subtitle file can hold as they are, each with at
    least one text line and a timestamp line that is not a number,
    the captions written as timestamp line and text, separated by any
    blank-line boundaries, parse back to exactly these entries. *)
Theorem indexless_file :
  forall (entries : list Translate.entry) (ps : list str),
    Forall Notions.storable entries ->
    Forall (fun e => snd e <> []
                     /\ Py.isdigit (Py.strip (fst e)) = false) entries ->
    Forall Notions.boundary ps -> S (length ps) = length entries ->
    Translate.parse_srt
      (Notions.weave (map Derived.bare_block entries) ps) = Some entries
    /\ Translate.parse_srt (Translate.write_srt entries) = Some entries.
Proof.
  intros entries ps Hs Hp Hb Hlen.
  destruct (bare_blocks_parse Hs Hp) as (Ht & Hc & He). split.
  - unfold Translate.parse_srt.
    rewrite blocks_of_woven by (try assumption; now rewrite length_map).
    rewrite parse_blocks_total. cbn [app]. now rewrite He.
  - apply (@parse_written entries 1); [lia|assumption].
Qed.

Lemma indexless_file_witness :
  Translate.parse_srt
    (Notions.weave
       (map Derived.bare_block
          [(lit "00:00:01,000 --> 00:00:02,000", [lit "hello"; lit " there"]);
           (lit "00:00:02,000 --> 00:00:03,000", [lit "world"])])
       [[Py.LF] ++ lit " " ++ [Py.LF; Py.LF]])
  = Some [(lit "00:00:01,000 --> 00:00:02,000", [lit "hello"; lit " there"]);
          (lit "00:00:02,000 --> 00:00:03,000", [lit "world"])]
  /\ Translate.parse_srt
       (Translate.write_srt
          [(lit "00:00:01,000 --> 00:00:02,000",
            [lit "hello"; lit " there"]);
           (lit "00:00:02,000 --> 00:00:03,000", [lit "world"])])
     = Some [(lit "00:00:01,000 --> 00:00:02,000",
              [lit "hello"; lit " there"]);
             (lit "00:00:02,000 --> 00:00:03,000", [lit "world"])].
Proof.
  apply (@indexless_file
           [(lit "00:00:01,000 --> 00:00:02,000",
             [lit "hello"; lit " there"]);
            (lit "00:00:02,000 --> 00:00:03,000", [lit "world"])]
           [[Py.LF] ++ lit " " ++ [Py.LF; Py.LF]]).
  - constructor; [|constructor; [|constructor]].
    + split.
      * repeat split; try discriminate; try (vm_compute; reflexivity);
          apply notin_check; vm_compute; reflexivity.
      * exists (lit "hello" ++ [Py.LF] ++ lit " there").
        repeat split; try (vm_compute; reflexivity).
        apply notin_check; vm_compute; reflexivity.
    + split.
      * repeat split; try discriminate; try (vm_compute; reflexivity);
          apply notin_check; vm_compute; reflexivity.
      * exists (lit "world").
        repeat split; try (vm_compute; reflexivity).
        apply notin_check; vm_compute; reflexivity.
  - repeat constructor; solve [discriminate | vm_compute; reflexivity].
  - repeat constructor. exists (lit " " ++ [Py.LF]).
    split; vm_compute; reflexivity.
  - reflexivity.
Defined.
